(** * OntologieService: layer classification pipeline

    A shallow embedding of the Python package [ontologieService]
    (TTL parser helpers, generic layer classifier, the COBIT5 and
    ISO17025 analyzers and the Graphiti importer), together with the
    properties of the pipeline that are stated in its design document.

    Python dictionaries with string keys are finite maps
    [gmap string value]; Python sets of strings are [gset string];
    a Python exception is the [Raise] outcome of the [result] monad. *)

From Stdlib Require Import Ascii String ZArith QArith.
From stdpp Require Import gmap strings list fin_maps.

#[local] Set Warnings "-register-all,-clear-no-such-hyp".
#[local] Open Scope string_scope.
#[local] Open Scope nat_scope.

(** ** Python values and exceptions *)

Module Py.

(** The universe of Python values that the pipeline handles: the JSON-like
    values produced by the parser and consumed by the importer.  A float
    is represented by the rational it approximates (rounding is not
    modelled); text is a byte string. *)
Inductive value : Type :=
| VNone
| VBool (b : bool)
| VInt (z : Z)
| VFloat (q : Q)
| VStr (s : string)
| VList (l : list value)
| VDict (d : gmap string value).

(** [Unsupported] marks inputs on which Python continues with values that
    lie outside [value] (for example a set holding both numbers and
    strings); every other constructor is the exception Python raises. *)
Inductive exn : Type := TypeError | AttributeError | KeyError | Unsupported.

Inductive result (A : Type) : Type :=
| Ok (a : A)
| Raise (e : exn).
Arguments Ok {A} a.
Arguments Raise {A} e.

#[export] Instance result_ret : MRet result := fun A a => Ok a.
#[export] Instance result_bind : MBind result := fun A B f m =>
  match m with Ok a => f a | Raise e => Raise e end.
#[export] Instance result_fmap : FMap result := fun A B f m =>
  match m with Ok a => Ok (f a) | Raise e => Raise e end.

(** [any(f(x) for x in l)]: stops at the first element on which [f] is
    true, so a later element that would raise is never inspected. *)
Fixpoint any_m {A} (f : A → result bool) (l : list A) : result bool :=
  match l with
  | [] => Ok false
  | x :: r => b ← f x; if (b : bool) then Ok true else any_m f r
  end.

(** A [for] loop that appends one computed item per element. *)
Fixpoint for_each {A B} (f : A → result B) (l : list A) : result (list B) :=
  match l with
  | [] => Ok []
  | x :: r => y ← f x; ys ← for_each f r; Ok (y :: ys)
  end.

(** *** Strings *)

Definition is_upper (c : ascii) : bool :=
  let n := nat_of_ascii c in (65 <=? n) && (n <=? 90).
Definition is_lower (c : ascii) : bool :=
  let n := nat_of_ascii c in (97 <=? n) && (n <=? 122).
Definition is_digit (c : ascii) : bool :=
  let n := nat_of_ascii c in (48 <=? n) && (n <=? 57).

Definition lower_char (c : ascii) : ascii :=
  if is_upper c then ascii_of_nat (nat_of_ascii c + 32) else c.
Definition upper_char (c : ascii) : ascii :=
  if is_lower c then ascii_of_nat (nat_of_ascii c - 32) else c.

(** [s.lower()] and [s.upper()], on the ASCII letters. *)
Fixpoint lower (s : string) : string :=
  match s with
  | EmptyString => EmptyString
  | String c r => String (lower_char c) (lower r)
  end.
Fixpoint upper (s : string) : string :=
  match s with
  | EmptyString => EmptyString
  | String c r => String (upper_char c) (upper r)
  end.

(** [s.title()]: a letter is upper-cased after a non-letter and
    lower-cased after a letter. *)
Fixpoint title_from (after_letter : bool) (s : string) : string :=
  match s with
  | EmptyString => EmptyString
  | String c r =>
      let letter := is_upper c || is_lower c in
      String (if after_letter then lower_char c else upper_char c)
             (title_from letter r)
  end.
Definition title (s : string) : string := title_from false s.

(** [s.startswith(p)] *)
Definition startswith (s p : string) : bool := String.prefix p s.

(** [sub in s] for two strings *)
Fixpoint contains (sub s : string) : bool :=
  String.prefix sub s ||
  match s with
  | EmptyString => false
  | String _ r => contains sub r
  end.

(** [s.endswith(suf)] *)
Fixpoint endswith (s suf : string) : bool :=
  String.eqb s suf ||
  match s with
  | EmptyString => false
  | String _ r => endswith r suf
  end.

(** [s[n:]] *)
Fixpoint drop_str (n : nat) (s : string) : string :=
  match n, s with
  | O, _ => s
  | S n', String _ r => drop_str n' r
  | S _, EmptyString => EmptyString
  end.

(** [s.split(c)] for a one-character separator [c]: never empty. *)
Fixpoint split (c : ascii) (s : string) : list string :=
  match s with
  | EmptyString => [EmptyString]
  | String a r =>
      if Ascii.eqb a c then EmptyString :: split c r
      else match split c r with
           | [] => [String a EmptyString]
           | w :: ws => String a w :: ws
           end
  end.

(** [c in s] for a character [c] *)
Fixpoint has_char (c : ascii) (s : string) : bool :=
  match s with
  | EmptyString => false
  | String a r => Ascii.eqb a c || has_char c r
  end.

(** The characters of a string, each as a one-character string: what
    iterating over a [str] yields. *)
Fixpoint chars (s : string) : list string :=
  match s with
  | EmptyString => []
  | String c r => String c EmptyString :: chars r
  end.

(** The three regular-expression shapes used by the classifier, with
    [re.search] semantics: [^lit[A-Z]], [^lit] and [lit$].  Python's [$]
    also matches just before a newline that ends the string. *)
Inductive pattern : Type :=
| PStartUpper (lit : string)
| PStart (lit : string)
| PEnd (lit : string).

Definition newline : string := String "010"%char EmptyString.

Definition re_search (p : pattern) (s : string) : bool :=
  match p with
  | PStartUpper lit =>
      startswith s lit &&
      match String.get (String.length lit) s with
      | Some c => is_upper c
      | None => false
      end
  | PStart lit => startswith s lit
  | PEnd lit => endswith s lit || endswith s (lit +:+ newline)
  end.

(** [sorted] on a list of strings (insertion sort on the byte order,
    which is the code-point order of UTF-8 text). *)
Fixpoint insert_sorted (x : string) (l : list string) : list string :=
  match l with
  | [] => [x]
  | y :: r => if String.leb x y then x :: l else y :: insert_sorted x r
  end.
Fixpoint sorted (l : list string) : list string :=
  match l with
  | [] => []
  | x :: r => insert_sorted x (sorted r)
  end.

(** [sorted(list(s))] for a set of strings. *)
Definition sorted_of_set (s : gset string) : list string := sorted (elements s).

(** *** Dynamic operations on values *)

(** [d.get(k, dflt)] *)
Definition get (d : gmap string value) (k : string) (dflt : value) : value :=
  default dflt (d !! k).

(** Use of a value where only a [str] works; [e] is the exception that
    the failing operation raises. *)
Definition as_str (e : exn) (v : value) : result string :=
  match v with VStr s => Ok s | _ => Raise e end.

(** Use of a value as a dictionary through one of its methods. *)
Definition as_dict (v : value) : result (gmap string value) :=
  match v with VDict d => Ok d | _ => Raise AttributeError end.

(** [bool(v)] *)
Definition truthy (v : value) : bool :=
  match v with
  | VNone => false
  | VBool b => b
  | VInt z => negb (Z.eqb z 0)
  | VFloat q => negb (Qeq_bool q 0)
  | VStr s => negb (String.eqb s "")
  | VList l => match l with [] => false | _ => true end
  | VDict d => negb (bool_decide (d = ∅))
  end.

(** [len(v)] *)
Definition len (v : value) : result nat :=
  match v with
  | VStr s => Ok (String.length s)
  | VList l => Ok (length l)
  | VDict d => Ok (size d)
  | _ => Raise TypeError
  end.

Definition is_strb (v : value) : bool :=
  match v with VStr _ => true | _ => false end.
Definition str_is (s : string) (v : value) : bool :=
  match v with VStr t => String.eqb t s | _ => false end.

(** [s in v] for a string [s]: substring test on a [str], element test
    on a list, key test on a dictionary. *)
Definition str_in (s : string) (v : value) : result bool :=
  match v with
  | VStr t => Ok (contains s t)
  | VList l => Ok (existsb (str_is s) l)
  | VDict d => Ok (bool_decide (is_Some (d !! s)))
  | _ => Raise TypeError
  end.

(** What a [for] loop over [v] visits.  The keys of a dictionary come in
    an order that is not modelled. *)
Definition iter (v : value) : result (list value) :=
  match v with
  | VList l => Ok l
  | VStr s => Ok (VStr <$> chars s)
  | VDict d => Ok (VStr <$> (map_to_list d).*1)
  | _ => Raise TypeError
  end.

(** [a + b] *)
Definition add (a b : value) : result value :=
  match a, b with
  | VList x, VList y => Ok (VList (x ++ y)%list)
  | VStr x, VStr y => Ok (VStr (x +:+ y))
  | VInt x, VInt y => Ok (VInt (x + y))
  | VInt x, VBool y => Ok (VInt (x + Z.b2z y))
  | VBool x, VInt y => Ok (VInt (Z.b2z x + y))
  | VBool x, VBool y => Ok (VInt (Z.b2z x + Z.b2z y))
  | VFloat _, (VInt _ | VBool _ | VFloat _)
  | (VInt _ | VBool _), VFloat _ => Raise Unsupported
  | _, _ => Raise TypeError
  end.

(** Whether [hash(v)] works. *)
Definition hashable (v : value) : bool :=
  match v with VList _ | VDict _ => false | _ => true end.

(** [v in s] for a set (or the keys of a dictionary) [s] of strings. *)
Definition in_str_set (v : value) (s : list string) : result bool :=
  match v with
  | VStr t => Ok (bool_decide (t ∈ s))
  | VList _ | VDict _ => Raise TypeError
  | _ => Ok false
  end.

(** [set(v)] when it is a set of strings. *)
Definition str_set (v : value) : result (gset string) :=
  l ← iter v;
  if negb (forallb hashable l) then Raise TypeError
  else if negb (forallb is_strb l) then Raise Unsupported
  else Ok (list_to_set (omap (λ x, match x with VStr s => Some s | _ => None end) l)).

Definition str_list (l : list string) : value := VList (VStr <$> l).

End Py.

(** ** The generic layer classifier ([core/layer_classifier.py]) *)

Module LayerClassifier.
Import Py.

Definition business_keywords : list string :=
  [ "domain"; "process"; "goal"; "objective"; "enabler"; "control";
    "governance"; "management"; "audit"; "compliance"; "risk";
    "stakeholder"; "framework"; "practice"; "activity"; "outcome";
    "metric"; "kpi"; "performance"; "maturity"; "capability";
    "service"; "resource"; "asset"; "value"; "benefit";
    "requirement"; "standard"; "policy"; "procedure"; "guideline";
    "laboratory"; "test"; "sample"; "analysis"; "result";
    "calibration"; "measurement"; "uncertainty"; "traceability";
    "quality"; "assurance"; "accreditation"; "certification" ].

Definition technical_keywords : list string :=
  [ "property"; "class"; "individual"; "restriction"; "constraint";
    "axiom"; "assertion"; "inference"; "reasoning"; "ontology";
    "namespace"; "prefix"; "uri"; "iri"; "rdf"; "owl"; "rdfs";
    "domain"; "range"; "inverse"; "functional"; "transitive";
    "symmetric"; "reflexive"; "irreflexive"; "asymmetric";
    "equivalent"; "disjoint"; "complement"; "union"; "intersection";
    "cardinality"; "some"; "only"; "exactly"; "min"; "max";
    "annotation"; "comment"; "label"; "seealso"; "isdefinedby" ].

Definition core_keywords : list string :=
  [ "organization"; "role"; "responsibility"; "person"; "user";
    "system"; "application"; "data"; "information"; "document";
    "time"; "date"; "period"; "duration"; "event"; "action";
    "status"; "state"; "type"; "category"; "classification" ].

Definition technical_patterns : list pattern :=
  [ PStartUpper "has"; PStartUpper "is"; PEnd "Property"; PEnd "Class";
    PStart "owl:"; PStart "rdfs:"; PStart "rdf:";
    PEnd "Restriction"; PEnd "Constraint"; PEnd "Axiom" ].

Definition business_patterns : list pattern :=
  [ PEnd "Goal"; PEnd "Process"; PEnd "Domain"; PEnd "Enabler";
    PEnd "Control"; PEnd "Framework"; PEnd "Standard"; PEnd "Requirement";
    PEnd "Practice"; PEnd "Activity"; PEnd "Outcome"; PEnd "Metric" ].

Definition _is_technical_entity (entity : gmap string value)
    (text_content : string) : result bool :=
  if existsb (λ keyword, contains keyword text_content) technical_keywords
  then Ok true else
  local_name ← as_str TypeError (get entity "local_name" (VStr ""));
  if existsb (λ p, re_search p local_name) technical_patterns
  then Ok true else
  let entity_type := get entity "type" (VStr "") in
  is_prop ← str_in "Property" entity_type;
  if is_prop || existsb (λ t, str_is t entity_type) ["Class"; "Restriction"]
  then Ok true else
  prefixed_name ← as_str AttributeError (get entity "prefixed_name" (VStr ""));
  if existsb (startswith prefixed_name) ["owl:"; "rdfs:"; "rdf:"; "xsd:"]
  then Ok true else Ok false.

Definition _is_business_entity (entity : gmap string value)
    (text_content : string) : result bool :=
  if existsb (λ keyword, contains keyword text_content) business_keywords
  then Ok true else
  local_name ← as_str TypeError (get entity "local_name" (VStr ""));
  if existsb (λ p, re_search p local_name) business_patterns
  then Ok true else
  prefixed_name ← as_str AttributeError (get entity "prefixed_name" (VStr ""));
  let business_namespaces := ["cobit5:"; "iso17025:"; "bfo:"; "sosa:"] in
  if existsb (startswith prefixed_name) business_namespaces
  then Ok true else Ok false.

(** [if k in entity: count += len(entity[k])] *)
Definition add_len (entity : gmap string value) (k : string) (count : nat)
    : result nat :=
  match entity !! k with
  | Some v => n ← len v; Ok (count + n)
  | None => Ok count
  end.

(** The counter that [_is_core_entity] builds. *)
Definition relationships_count (entity : gmap string value) : result nat :=
  c ← add_len entity "subclass_of" 0;
  c ← add_len entity "superclass_of" c;
  c ← add_len entity "domain" c;
  add_len entity "range" c.

Definition _is_core_entity (entity : gmap string value)
    (text_content : string) : result bool :=
  if existsb (λ keyword, contains keyword text_content) core_keywords
  then Ok true else
  count ← relationships_count entity;
  if 3 <=? count then Ok true else Ok false.

Definition _classify_property (property_entity : gmap string value)
    : result (gset string) :=
  let layers : gset string := ∅ in
  let prop_type := get property_entity "type" (VStr "") in
  layers ←
    (if str_is "ObjectProperty" prop_type then
       let domain := get property_entity "domain" (VList []) in
       let range_vals := get property_entity "range" (VList []) in
       let business_domains := ["Goal"; "Process"; "Domain"; "Control"; "Framework"] in
       refs ← add domain range_vals;
       refs ← iter refs;
       hit ← any_m (λ dr, any_m (λ bd, str_in bd dr) business_domains) refs;
       if (hit : bool) then Ok (layers ∪ {["business"]}) else Ok layers
     else if str_is "AnnotationProperty" prop_type then
       Ok (layers ∪ {["technical"]})
     else Ok layers);
  if truthy (get property_entity "functional" VNone)
     || truthy (get property_entity "inverse_functional" VNone)
  then Ok (layers ∪ {["technical"]}) else Ok layers.

Definition _classify_class (class_entity : gmap string value)
    : result (gset string) :=
  let layers : gset string := ∅ in
  superclass_count ← len (get class_entity "superclass_of" (VList []));
  let layers := if 3 <=? superclass_count then layers ∪ {["core"]} else layers in
  let subclass_of := get class_entity "subclass_of" (VList []) in
  let layers := if negb (truthy subclass_of) then layers ∪ {["core"]} else layers in
  Ok layers.

Definition _classify_individual (individual_entity : gmap string value)
    : result (gset string) :=
  let layers : gset string := ∅ in
  individual_type ← lower <$> as_str AttributeError
                       (get individual_entity "type_local_name" (VStr ""));
  let business_types :=
    ["goal"; "process"; "domain"; "control"; "enabler"; "framework"] in
  if existsb (λ bt, contains bt individual_type) business_types
  then Ok (layers ∪ {["business"]}) else Ok layers.

(** [entity.get(k, "").lower()] *)
Definition lower_field (entity : gmap string value) (k : string) : result string :=
  lower <$> as_str AttributeError (get entity k (VStr "")).

(** The f-string that joins the five lower-cased text fields. *)
Definition text_content_of (entity : gmap string value) : result string :=
  local_name ← lower_field entity "local_name";
  prefixed_name ← lower_field entity "prefixed_name";
  label ← lower_field entity "label";
  comment ← lower_field entity "comment";
  description ← lower_field entity "description";
  Ok (local_name +:+ " " +:+ prefixed_name +:+ " " +:+ label +:+ " "
      +:+ comment +:+ " " +:+ description).

(** The dispatch on [entity_type] in [_determine_layers]. *)
Definition by_entity_type (entity : gmap string value) (entity_type : string)
    : result (gset string) :=
  if String.eqb entity_type "property" then _classify_property entity
  else if String.eqb entity_type "class" then _classify_class entity
  else if String.eqb entity_type "individual" then _classify_individual entity
  else Ok ∅.

Definition _determine_layers (entity : gmap string value) (entity_type : string)
    : result (list string) :=
  let layers : gset string := ∅ in
  text_content ← text_content_of entity;
  technical ← _is_technical_entity entity text_content;
  let layers := if (technical : bool) then layers ∪ {["technical"]} else layers in
  business ← _is_business_entity entity text_content;
  let layers := if (business : bool) then layers ∪ {["business"]} else layers in
  core ← _is_core_entity entity text_content;
  let layers := if (core : bool) then layers ∪ {["core"]} else layers in
  extra ← by_entity_type entity entity_type;
  let layers := layers ∪ extra in
  let layers := if bool_decide (layers = ∅) then layers ∪ {["technical"]} else layers in
  Ok (sorted_of_set layers).

Definition _get_primary_layer (layers : list string) : string :=
  match layers with
  | [] => "technical"
  | _ =>
      if bool_decide ("business" ∈ layers) then "business"
      else if bool_decide ("core" ∈ layers) then "core"
      else "technical"
  end.

(** The body of the loop of [_classify_entities]: one entity. *)
Definition classify_entity (entity_type : string) (entity : value) : result value :=
  entity ← as_dict entity;
  layers ← _determine_layers entity entity_type;
  let entity_with_layers := entity in
  let entity_with_layers := <["layers" := str_list layers]> entity_with_layers in
  let entity_with_layers :=
    <["primary_layer" := VStr (_get_primary_layer layers)]> entity_with_layers in
  Ok (VDict entity_with_layers).

Definition _classify_entities (entities : value) (entity_type : string)
    : result (list value) :=
  entities ← iter entities;
  for_each (classify_entity entity_type) entities.

Definition categories : list string := ["classes"; "properties"; "individuals"].

(** The counters of [_get_layer_statistics] before the totals. *)
Definition stats_init : gmap string (gmap string Z) :=
  let zero : gmap string Z :=
    <["individuals" := 0%Z]> (<["properties" := 0%Z]> (<["classes" := 0%Z]> ∅)) in
  <["multi_layer" := zero]> (<["core" := zero]> (<["technical" := zero]>
    (<["business" := zero]> ∅))).

(** [stats[row][category] += 1] *)
Definition bump (row category : string) (stats : gmap string (gmap string Z))
    : gmap string (gmap string Z) :=
  alter (alter Z.succ category) row stats.

Definition count_entity (category : string) (stats : gmap string (gmap string Z))
    (entity : value) : result (gmap string (gmap string Z)) :=
  entity ← as_dict entity;
  let layers := get entity "layers" (VList []) in
  let primary := get entity "primary_layer" (VStr "technical") in
  known ← in_str_set primary ["business"; "technical"; "core"; "multi_layer"];
  stats ← (if (known : bool) then
             match primary with
             | VStr p => Ok (bump p category stats)
             | _ => Ok stats
             end
           else Ok stats);
  n ← len layers;
  if 1 <? n then Ok (bump "multi_layer" category stats) else Ok stats.

Fixpoint count_entities (category : string) (stats : gmap string (gmap string Z))
    (entities : list value) : result (gmap string (gmap string Z)) :=
  match entities with
  | [] => Ok stats
  | entity :: rest =>
      stats ← count_entity category stats entity;
      count_entities category stats rest
  end.

Definition count_category (classified_data : gmap string value)
    (stats : gmap string (gmap string Z)) (category : string)
    : result (gmap string (gmap string Z)) :=
  match classified_data !! category with
  | Some entities => entities ← iter entities; count_entities category stats entities
  | None => Ok stats
  end.

(** [stats[layer]["total"] = sum(stats[layer].values())] *)
Definition with_total (row : gmap string Z) : gmap string Z :=
  <["total" := map_fold (λ _ n acc, (n + acc)%Z) 0%Z row]> row.

Definition _get_layer_statistics (classified_data : gmap string value)
    : result value :=
  stats ← count_category classified_data stats_init "classes";
  stats ← count_category classified_data stats "properties";
  stats ← count_category classified_data stats "individuals";
  Ok (VDict ((λ row, VDict (VInt <$> with_total row)) <$> stats)).

(** [if category in ontology_data: classified_data[category] = ...] *)
Definition classify_category (ontology_data : gmap string value)
    (category entity_type : string) (classified_data : gmap string value)
    : result (gmap string value) :=
  match ontology_data !! category with
  | Some entities =>
      classified ← _classify_entities entities entity_type;
      Ok (<[category := VList classified]> classified_data)
  | None => Ok classified_data
  end.

Definition classify (ontology_data : gmap string value)
    : result (gmap string value) :=
  if bool_decide (is_Some (ontology_data !! "error")) then Ok ontology_data else
  let classified_data := ontology_data in
  classified_data ← classify_category ontology_data "classes" "class" classified_data;
  classified_data ← classify_category ontology_data "properties" "property" classified_data;
  classified_data ← classify_category ontology_data "individuals" "individual" classified_data;
  layer_statistics ← _get_layer_statistics classified_data;
  Ok (<["layer_statistics" := layer_statistics]> classified_data).

End LayerClassifier.
(** ** Well-formed entity models *)

Module WellFormed.
Import Py LayerClassifier.

(** The entity fields read as text and as relation lists. *)
Definition text_keys : list string :=
  ["local_name"; "prefixed_name"; "label"; "comment"; "description";
   "type"; "type_local_name"].
Definition list_keys : list string :=
  ["subclass_of"; "superclass_of"; "domain"; "range"].

Definition is_str_listb (v : value) : bool :=
  match v with VList l => forallb is_strb l | _ => false end.

(** A field, when present, satisfies [p]. *)
Definition field_ok (p : value → bool) (d : gmap string value) (k : string) : bool :=
  match d !! k with Some v => p v | None => true end.

(** An entity record as the parser builds it: text fields hold strings and
    relation fields hold lists of URI strings; any other field is free. *)
Definition wf_entityb (e : gmap string value) : bool :=
  forallb (field_ok is_strb e) text_keys
  && forallb (field_ok is_str_listb e) list_keys.

Definition is_entity_listb (v : value) : bool :=
  match v with
  | VList es => forallb (λ x, match x with VDict e => wf_entityb e | _ => false end) es
  | _ => false
  end.

(** An entity model: no error marker, and each category that is present
    is a list of well-formed entities. *)
Definition wf_modelb (m : gmap string value) : bool :=
  negb (bool_decide (is_Some (m !! "error")))
  && forallb (field_ok is_entity_listb m) categories.

(** The three layer names. *)
Definition three : gset string := {["business"; "technical"; "core"]}.

(** The layer set that [_determine_layers] accumulates, as a function of the
    outcomes of its three tests and of the rule of the entity type. *)
Definition chosen_layers (technical business core : bool) (extra : gset string)
    : gset string :=
  let layers : gset string := ∅ in
  let layers := if technical then layers ∪ {["technical"]} else layers in
  let layers := if business then layers ∪ {["business"]} else layers in
  let layers := if core then layers ∪ {["core"]} else layers in
  let layers := layers ∪ extra in
  if bool_decide (layers = ∅) then layers ∪ {["technical"]} else layers.

(** What [classify] stores under a category [cat] of the model [m], given
    the entity type [ty] it passes for that category. *)
Definition classified_as (m : gmap string value) (cat ty : string)
    (o : option value) : Prop :=
  match m !! cat with
  | Some v => ∃ es, _classify_entities v ty = Ok es ∧ o = Some (VList es)
  | None => o = None
  end.

(** An entity record that carries a layer assignment. *)
Definition tagged (v : value) : Prop :=
  ∃ e ls p, v = VDict e ∧ e !! "layers" = Some (str_list ls)
            ∧ e !! "primary_layer" = Some (VStr p).

Definition wf_entity (e : gmap string value) : Prop := wf_entityb e = true.
Definition wf_model (m : gmap string value) : Prop := wf_modelb m = true.

End WellFormed.

(** ** The ISO17025 analyzer ([frameworks/iso17025_analyzer.py]) *)

Module ISO17025.
Import Py.

(** The keys of the clause table; only its size is used. *)
Definition iso17025_clauses : list string := ["4"; "5"; "6"; "7"; "8"].

Definition laboratory_business_entities : list string :=
  [ "Laboratory"; "TestMethod"; "CalibrationMethod"; "Sample"; "Specimen";
    "TestResult"; "CalibrationResult"; "Certificate"; "Report";
    "Equipment"; "Instrument"; "Standard"; "ReferenceStandard";
    "Uncertainty"; "Traceability"; "Accreditation"; "Competence";
    "QualityControl"; "QualityAssurance"; "Validation"; "Verification";
    "NonConformity"; "CorrectiveAction"; "PreventiveAction";
    "CustomerComplaint"; "InternalAudit"; "ManagementReview" ].

Definition laboratory_technical_entities : list string :=
  [ "MeasurementProcedure"; "TestProcedure"; "CalibrationProcedure";
    "SamplingProcedure"; "DataProcessing"; "StatisticalAnalysis";
    "UncertaintyCalculation"; "TraceabilityChain"; "MeasurementModel";
    "EnvironmentalCondition"; "SafetyRequirement"; "TechnicalRecord" ].

Definition laboratory_core_entities : list string :=
  [ "Person"; "Staff"; "TechnicalPersonnel"; "Customer"; "Client";
    "Supplier"; "AccreditationBody"; "RegulatoryAuthority";
    "Document"; "Record"; "Procedure"; "Policy"; "Manual";
    "Location"; "Facility"; "Environment"; "Time"; "Date" ].

(** [any(x.lower() in entity_lower for x in names)] *)
Definition any_lower_in (names : list string) (entity_lower : string) : bool :=
  existsb (λ x, contains (lower x) entity_lower) names.

(** [any(term in text for term in terms)] *)
Definition any_in (terms : list string) (text : string) : bool :=
  existsb (λ term, contains term text) terms.

Definition _classify_iso17025_entity (entity_name : value) (entity_type : string)
    : result (gset string) :=
  let layers : gset string := ∅ in
  entity_lower ← lower <$> as_str AttributeError entity_name;
  let layers := if any_lower_in laboratory_business_entities entity_lower
                then layers ∪ {["business"]} else layers in
  let layers := if any_lower_in laboratory_technical_entities entity_lower
                then layers ∪ {["technical"]} else layers in
  let layers := if any_lower_in laboratory_core_entities entity_lower
                then layers ∪ {["core"]} else layers in
  Ok layers.

Definition _is_measurement_property (property_data : gmap string value)
    : result bool :=
  prop_name ← lower <$> as_str AttributeError
                 (get property_data "local_name" (VStr ""));
  let measurement_terms :=
    ["measure"; "calibrat"; "uncertain"; "trace"; "accura"; "precis"] in
  Ok (any_in measurement_terms prop_name).

Definition _get_iso17025_primary_layer (layers : gset string) : string :=
  if bool_decide ("business" ∈ layers) then "business"
  else if bool_decide ("core" ∈ layers) then "core"
  else "technical".

(** The first entry of a keyword table, in its order, one of whose
    keywords satisfies [hit]. *)
Fixpoint first_entry (hit : string → bool) (table : list (string * list string))
    : option string :=
  match table with
  | [] => None
  | (name, keywords) :: rest =>
      if existsb hit keywords then Some name else first_entry hit rest
  end.

Definition _get_iso17025_clause (entity_name : value) : result value :=
  entity_lower ← lower <$> as_str AttributeError entity_name;
  let clause_mapping :=
    [ ("4", ["management"; "system"; "policy"; "organization"]);
      ("5", ["structure"; "personnel"; "responsibility"; "authority"]);
      ("6", ["resource"; "equipment"; "facility"; "environment"; "competence"]);
      ("7", ["process"; "method"; "procedure"; "sample"; "test"; "calibration"]);
      ("8", ["record"; "document"; "review"; "audit"; "improvement"]) ] in
  match first_entry (λ keyword, contains keyword entity_lower) clause_mapping with
  | Some clause => Ok (VStr clause)
  | None => Ok VNone
  end.

Definition _get_laboratory_relevance (entity_name : value) : result string :=
  entity_lower ← lower <$> as_str AttributeError entity_name;
  let high_relevance :=
    ["test"; "calibration"; "measurement"; "sample"; "result"; "uncertainty"] in
  let medium_relevance :=
    ["equipment"; "method"; "procedure"; "standard"; "quality"] in
  if any_in high_relevance entity_lower then Ok "high"
  else if any_in medium_relevance entity_lower then Ok "medium"
  else Ok "low".

Definition _assess_measurement_relevance (property_data : gmap string value)
    : result string :=
  prop_name ← lower <$> as_str AttributeError
                 (get property_data "local_name" (VStr ""));
  let measurement_terms := ["measure"; "calibrat"; "uncertain"; "trace"; "accura"] in
  if any_in measurement_terms prop_name then Ok "high"
  else if contains "has" prop_name && any_in ["value"; "result"; "data"] prop_name
  then Ok "medium"
  else Ok "low".

Definition _get_laboratory_function (individual_data : gmap string value)
    : result string :=
  name ← lower <$> as_str AttributeError
            (get individual_data "local_name" (VStr ""));
  type_name ← lower <$> as_str AttributeError
                 (get individual_data "type_local_name" (VStr ""));
  let functions :=
    [ ("testing", ["test"; "analysis"; "examination"]);
      ("calibration", ["calibrat"; "standard"; "reference"]);
      ("sampling", ["sample"; "specimen"; "collection"]);
      ("quality", ["quality"; "control"; "assurance"]);
      ("management", ["management"; "administration"; "governance"]);
      ("technical", ["technical"; "method"; "procedure"]) ] in
  match first_entry (λ keyword, contains keyword name || contains keyword type_name)
          functions with
  | Some function => Ok function
  | None => Ok "general"
  end.

(** The body of the loop of [_enhance_class_classification]. *)
Definition enhance_class (cls : value) : result value :=
  cls ← as_dict cls;
  let enhanced_cls := cls in
  let local_name := get cls "local_name" (VStr "") in
  iso_layers ← _classify_iso17025_entity local_name "class";
  existing_layers ← str_set (get cls "layers" (VList []));
  let enhanced_layers := existing_layers ∪ iso_layers in
  let enhanced_cls :=
    <["layers" := str_list (sorted_of_set enhanced_layers)]> enhanced_cls in
  let enhanced_cls :=
    <["primary_layer" := VStr (_get_iso17025_primary_layer enhanced_layers)]>
      enhanced_cls in
  clause ← _get_iso17025_clause local_name;
  let enhanced_cls := <["iso17025_clause" := clause]> enhanced_cls in
  relevance ← _get_laboratory_relevance local_name;
  let enhanced_cls := <["laboratory_relevance" := VStr relevance]> enhanced_cls in
  Ok (VDict enhanced_cls).

Definition _enhance_class_classification (classes : value) : result (list value) :=
  classes ← iter classes;
  for_each enhance_class classes.

(** The body of the loop of [_enhance_property_classification]. *)
Definition enhance_property (prop : value) : result value :=
  prop ← as_dict prop;
  let enhanced_prop := prop in
  let local_name := get prop "local_name" (VStr "") in
  iso_layers ← _classify_iso17025_entity local_name "property";
  measurement ← _is_measurement_property prop;
  let iso_layers := if (measurement : bool) then iso_layers ∪ {["business"]}
                    else iso_layers in
  existing_layers ← str_set (get prop "layers" (VList []));
  let enhanced_layers := existing_layers ∪ iso_layers in
  let enhanced_prop :=
    <["layers" := str_list (sorted_of_set enhanced_layers)]> enhanced_prop in
  let enhanced_prop :=
    <["primary_layer" := VStr (_get_iso17025_primary_layer enhanced_layers)]>
      enhanced_prop in
  relevance ← _assess_measurement_relevance prop;
  let enhanced_prop := <["measurement_relevance" := VStr relevance]> enhanced_prop in
  Ok (VDict enhanced_prop).

Definition _enhance_property_classification (properties : value)
    : result (list value) :=
  properties ← iter properties;
  for_each enhance_property properties.

(** The body of the loop of [_enhance_individual_classification]. *)
Definition enhance_individual (individual : value) : result value :=
  individual ← as_dict individual;
  let enhanced_individual := individual in
  let local_name := get individual "local_name" (VStr "") in
  let type_name := get individual "type_local_name" (VStr "") in
  iso_layers ← _classify_iso17025_entity local_name "individual";
  business_type ← in_str_set type_name laboratory_business_entities;
  iso_layers ←
    (if (business_type : bool) then Ok (iso_layers ∪ {["business"]})
     else
       core_type ← in_str_set type_name laboratory_core_entities;
       if (core_type : bool) then Ok (iso_layers ∪ {["core"]}) else Ok iso_layers);
  existing_layers ← str_set (get individual "layers" (VList []));
  let enhanced_layers := existing_layers ∪ iso_layers in
  let enhanced_individual :=
    <["layers" := str_list (sorted_of_set enhanced_layers)]> enhanced_individual in
  let enhanced_individual :=
    <["primary_layer" := VStr (_get_iso17025_primary_layer enhanced_layers)]>
      enhanced_individual in
  function ← _get_laboratory_function individual;
  let enhanced_individual :=
    <["laboratory_function" := VStr function]> enhanced_individual in
  Ok (VDict enhanced_individual).

Definition _enhance_individual_classification (individuals : value)
    : result (list value) :=
  individuals ← iter individuals;
  for_each enhance_individual individuals.

(** One step of the loop that collects the clauses of the entities. *)
Definition cover_clause (clause_coverage : gset string) (entity : value)
    : result (gset string) :=
  entity ← as_dict entity;
  let clause := get entity "iso17025_clause" VNone in
  if truthy clause then
    match clause with
    | VStr c => Ok (clause_coverage ∪ {[c]})
    | VList _ | VDict _ => Raise TypeError
    | _ => Raise Unsupported
    end
  else Ok clause_coverage.

Fixpoint cover_clauses (clause_coverage : gset string) (entities : list value)
    : result (gset string) :=
  match entities with
  | [] => Ok clause_coverage
  | entity :: rest =>
      clause_coverage ← cover_clause clause_coverage entity;
      cover_clauses clause_coverage rest
  end.

Definition cover_category (enhanced_data : gmap string value)
    (clause_coverage : gset string) (category : string) : result (gset string) :=
  match enhanced_data !! category with
  | Some entities => entities ← iter entities; cover_clauses clause_coverage entities
  | None => Ok clause_coverage
  end.

Definition _generate_iso17025_analysis (enhanced_data : gmap string value)
    : result value :=
  clause_coverage ← cover_category enhanced_data ∅ "classes";
  clause_coverage ← cover_category enhanced_data clause_coverage "properties";
  clause_coverage ← cover_category enhanced_data clause_coverage "individuals";
  let total_clauses := length iso17025_clauses in
  let covered_clauses := size clause_coverage in
  let coverage_percentage :=
    if 0 <? total_clauses
    then VFloat (inject_Z (Z.of_nat covered_clauses)
                 / inject_Z (Z.of_nat total_clauses) * 100)%Q
    else VInt 0 in
  let laboratory_coverage : gmap string value :=
    <["coverage_percentage" := coverage_percentage]>
      (<["total_clauses" := VInt (Z.of_nat total_clauses)]>
         (<["clauses_covered" := VInt (Z.of_nat covered_clauses)]> ∅)) in
  let compliance_readiness :=
    if 4 <=? covered_clauses then "high"
    else if 2 <=? covered_clauses then "medium"
    else "low" in
  let analysis : gmap string value :=
    <["compliance_readiness" := VStr compliance_readiness]>
      (<["measurement_capabilities" := VDict ∅]>
         (<["laboratory_coverage" := VDict laboratory_coverage]>
            (<["clauses_covered" := str_list (sorted_of_set clause_coverage)]> ∅))) in
  Ok (VDict analysis).

(** [if category in enhanced_data: enhanced_data[category] = f(...)] *)
Definition enhance_category (f : value → result (list value)) (category : string)
    (enhanced_data : gmap string value) : result (gmap string value) :=
  match enhanced_data !! category with
  | Some entities =>
      enhanced ← f entities;
      Ok (<[category := VList enhanced]> enhanced_data)
  | None => Ok enhanced_data
  end.

Definition enhance_classification (classified_data : gmap string value)
    : result (gmap string value) :=
  let enhanced_data := classified_data in
  enhanced_data ← enhance_category _enhance_class_classification "classes" enhanced_data;
  enhanced_data ←
    enhance_category _enhance_property_classification "properties" enhanced_data;
  enhanced_data ←
    enhance_category _enhance_individual_classification "individuals" enhanced_data;
  analysis ← _generate_iso17025_analysis enhanced_data;
  Ok (<["iso17025_analysis" := analysis]> enhanced_data).

End ISO17025.

(** ** The COBIT5 analyzer ([frameworks/cobit5_analyzer.py]) *)

Module COBIT5.
Import Py.

(** The keys of the domain table, in the order of the table. *)
Definition cobit5_domains : list string := ["EDM"; "APO"; "BAI"; "DSS"; "MEA"].

Definition business_entities : list string :=
  [ "EnterpriseGoal"; "ITGoal"; "Goal"; "Process"; "Domain";
    "Enabler"; "Control"; "Framework"; "Practice"; "Activity";
    "Outcome"; "Metric"; "Stakeholder"; "Role"; "Responsibility";
    "RiskAssessment"; "ComplianceRequirement"; "AuditFinding" ].

Definition technical_entities : list string :=
  [ "ObjectProperty"; "DatatypeProperty"; "AnnotationProperty";
    "Restriction"; "Constraint"; "ValidationRule"; "InferenceRule" ].

Definition core_entities : list string :=
  [ "Organization"; "Person"; "System"; "Application"; "Information";
    "Service"; "Resource"; "Asset"; "Time"; "Date"; "Status"; "Type" ].

Definition any_lower_in (names : list string) (entity_lower : string) : bool :=
  existsb (λ x, contains (lower x) entity_lower) names.

Definition any_in (terms : list string) (text : string) : bool :=
  existsb (λ term, contains term text) terms.

Definition _classify_cobit5_entity (entity_name : value) (entity_type : string)
    : result (gset string) :=
  let layers : gset string := ∅ in
  entity_lower ← lower <$> as_str AttributeError entity_name;
  let layers := if any_lower_in cobit5_domains entity_lower
                then layers ∪ {["business"]} else layers in
  let layers := if any_lower_in business_entities entity_lower
                then layers ∪ {["business"]} else layers in
  let layers := if any_lower_in technical_entities entity_lower
                then layers ∪ {["technical"]} else layers in
  let layers := if any_lower_in core_entities entity_lower
                then layers ∪ {["core"]} else layers in
  Ok layers.

(** The loop over [all_refs]: it returns at the first reference that
    names a business entity, and [ref.lower()] needs a string. *)
Fixpoint refs_name_business (all_refs : list value) : result bool :=
  match all_refs with
  | [] => Ok false
  | ref :: rest =>
      ref_lower ← lower <$> as_str AttributeError ref;
      if any_lower_in business_entities ref_lower then Ok true
      else refs_name_business rest
  end.

Definition _has_business_domain_range (domain range_vals : value) : result bool :=
  all_refs ← add domain range_vals;
  all_refs ← iter all_refs;
  refs_name_business all_refs.

Definition _get_cobit5_primary_layer (layers : gset string) : string :=
  if bool_decide ("business" ∈ layers) then "business"
  else if bool_decide ("core" ∈ layers) then "core"
  else "technical".

Definition _get_cobit5_domain (entity_name : value) : result value :=
  entity_upper ← upper <$> as_str AttributeError entity_name;
  match List.find (λ domain_code, contains domain_code entity_upper) cobit5_domains with
  | Some domain_code => Ok (VStr domain_code)
  | None => Ok VNone
  end.

Definition _get_business_relevance (entity_name : value) : result string :=
  entity_lower ← lower <$> as_str AttributeError entity_name;
  let high_relevance :=
    ["goal"; "process"; "domain"; "control"; "audit"; "compliance"] in
  let medium_relevance :=
    ["enabler"; "framework"; "practice"; "activity"; "metric"] in
  if any_in high_relevance entity_lower then Ok "high"
  else if any_in medium_relevance entity_lower then Ok "medium"
  else Ok "low".

Definition _assess_governance_relevance (property_data : gmap string value)
    : result string :=
  prop_name ← lower <$> as_str AttributeError
                 (get property_data "local_name" (VStr ""));
  let governance_terms :=
    ["governance"; "control"; "audit"; "compliance"; "risk"; "monitor"] in
  if any_in governance_terms prop_name then Ok "high"
  else if contains "has" prop_name || contains "is" prop_name then Ok "medium"
  else Ok "low".

(** A match of [(EDM|APO|BAI|DSS|MEA)\d{2}] at the start of [s]. *)
Definition process_code_at (s : string) : option string :=
  if existsb (startswith s) ["EDM"; "APO"; "BAI"; "DSS"; "MEA"]
     && match String.get 3 s, String.get 4 s with
        | Some d1, Some d2 => is_digit d1 && is_digit d2
        | _, _ => false
        end
  then Some (String.substring 0 5 s)
  else None.

(** [re.search]: the leftmost match. *)
Fixpoint search_process_code (s : string) : option string :=
  match process_code_at s with
  | Some code => Some code
  | None =>
      match s with
      | EmptyString => None
      | String _ rest => search_process_code rest
      end
  end.

Definition _extract_process_code (entity_name : value) : result value :=
  entity_upper ← upper <$> as_str AttributeError entity_name;
  match search_process_code entity_upper with
  | Some code => Ok (VStr code)
  | None => Ok VNone
  end.

(** The body of the loop of [_enhance_class_classification]. *)
Definition enhance_class (cls : value) : result value :=
  cls ← as_dict cls;
  let enhanced_cls := cls in
  let local_name := get cls "local_name" (VStr "") in
  cobit5_layers ← _classify_cobit5_entity local_name "class";
  existing_layers ← str_set (get cls "layers" (VList []));
  let enhanced_layers := existing_layers ∪ cobit5_layers in
  let enhanced_cls :=
    <["layers" := str_list (sorted_of_set enhanced_layers)]> enhanced_cls in
  let enhanced_cls :=
    <["primary_layer" := VStr (_get_cobit5_primary_layer enhanced_layers)]>
      enhanced_cls in
  domain ← _get_cobit5_domain local_name;
  let enhanced_cls := <["cobit5_domain" := domain]> enhanced_cls in
  relevance ← _get_business_relevance local_name;
  let enhanced_cls := <["business_relevance" := VStr relevance]> enhanced_cls in
  Ok (VDict enhanced_cls).

Definition _enhance_class_classification (classes : value) : result (list value) :=
  classes ← iter classes;
  for_each enhance_class classes.

(** The body of the loop of [_enhance_property_classification]. *)
Definition enhance_property (prop : value) : result value :=
  prop ← as_dict prop;
  let enhanced_prop := prop in
  let local_name := get prop "local_name" (VStr "") in
  cobit5_layers ← _classify_cobit5_entity local_name "property";
  let domain := get prop "domain" (VList []) in
  let range_vals := get prop "range" (VList []) in
  business ← _has_business_domain_range domain range_vals;
  let cobit5_layers := if (business : bool) then cobit5_layers ∪ {["business"]}
                       else cobit5_layers in
  existing_layers ← str_set (get prop "layers" (VList []));
  let enhanced_layers := existing_layers ∪ cobit5_layers in
  let enhanced_prop :=
    <["layers" := str_list (sorted_of_set enhanced_layers)]> enhanced_prop in
  let enhanced_prop :=
    <["primary_layer" := VStr (_get_cobit5_primary_layer enhanced_layers)]>
      enhanced_prop in
  relevance ← _assess_governance_relevance prop;
  let enhanced_prop := <["governance_relevance" := VStr relevance]> enhanced_prop in
  Ok (VDict enhanced_prop).

Definition _enhance_property_classification (properties : value)
    : result (list value) :=
  properties ← iter properties;
  for_each enhance_property properties.

(** The body of the loop of [_enhance_individual_classification]. *)
Definition enhance_individual (individual : value) : result value :=
  individual ← as_dict individual;
  let enhanced_individual := individual in
  let local_name := get individual "local_name" (VStr "") in
  let type_name := get individual "type_local_name" (VStr "") in
  cobit5_layers ← _classify_cobit5_entity local_name "individual";
  business_type ← in_str_set type_name business_entities;
  cobit5_layers ←
    (if (business_type : bool) then Ok (cobit5_layers ∪ {["business"]})
     else
       core_type ← in_str_set type_name core_entities;
       if (core_type : bool) then Ok (cobit5_layers ∪ {["core"]})
       else Ok cobit5_layers);
  existing_layers ← str_set (get individual "layers" (VList []));
  let enhanced_layers := existing_layers ∪ cobit5_layers in
  let enhanced_individual :=
    <["layers" := str_list (sorted_of_set enhanced_layers)]> enhanced_individual in
  let enhanced_individual :=
    <["primary_layer" := VStr (_get_cobit5_primary_layer enhanced_layers)]>
      enhanced_individual in
  code ← _extract_process_code local_name;
  let enhanced_individual := <["cobit5_process_code" := code]> enhanced_individual in
  Ok (VDict enhanced_individual).

Definition _enhance_individual_classification (individuals : value)
    : result (list value) :=
  individuals ← iter individuals;
  for_each enhance_individual individuals.

(** One step of the loop that collects the domains of the entities, in
    order of first appearance. *)
Definition find_domain (domains_found : list string) (entity : value)
    : result (list string) :=
  entity ← as_dict entity;
  let domain := get entity "cobit5_domain" VNone in
  if truthy domain then
    match domain with
    | VStr d =>
        if bool_decide (d ∈ domains_found) then Ok domains_found
        else Ok (domains_found ++ [d])%list
    | _ => Raise Unsupported
    end
  else Ok domains_found.

Fixpoint find_domains (domains_found : list string) (entities : list value)
    : result (list string) :=
  match entities with
  | [] => Ok domains_found
  | entity :: rest =>
      domains_found ← find_domain domains_found entity;
      find_domains domains_found rest
  end.

Definition find_category (enhanced_data : gmap string value)
    (domains_found : list string) (category : string) : result (list string) :=
  match enhanced_data !! category with
  | Some entities => entities ← iter entities; find_domains domains_found entities
  | None => Ok domains_found
  end.

(** [n >= bound] for a number [n]. *)
Definition ge_int (n : value) (bound : Z) : result bool :=
  match n with
  | VInt z => Ok (bound <=? z)%Z
  | VBool b => Ok (bound <=? Z.b2z b)%Z
  | VFloat q => Ok (Qle_bool (inject_Z bound) q)
  | _ => Raise TypeError
  end.

Definition _generate_cobit5_analysis (enhanced_data : gmap string value)
    : result value :=
  domains_found ← find_category enhanced_data [] "classes";
  domains_found ← find_category enhanced_data domains_found "properties";
  domains_found ← find_category enhanced_data domains_found "individuals";
  let total_domains := length cobit5_domains in
  let found_domains := length domains_found in
  let coverage_percentage :=
    if 0 <? total_domains
    then VFloat (inject_Z (Z.of_nat found_domains)
                 / inject_Z (Z.of_nat total_domains) * 100)%Q
    else VInt 0 in
  let governance_coverage : gmap string value :=
    <["coverage_percentage" := coverage_percentage]>
      (<["total_domains" := VInt (Z.of_nat total_domains)]>
         (<["domains_found" := VInt (Z.of_nat found_domains)]> ∅)) in
  layer_stats ← as_dict (get enhanced_data "layer_statistics" (VDict ∅));
  business_row ← as_dict (get layer_stats "business" (VDict ∅));
  let business_entities := get business_row "total" (VInt 0) in
  at_least_20 ← ge_int business_entities 20;
  business_readiness ←
    (if (at_least_20 : bool) then Ok "high"
     else
       at_least_10 ← ge_int business_entities 10;
       if (at_least_10 : bool) then Ok "medium" else Ok "low");
  let analysis : gmap string value :=
    <["business_readiness" := VStr business_readiness]>
      (<["process_distribution" := VDict ∅]>
         (<["governance_coverage" := VDict governance_coverage]>
            (<["domains_found" := str_list domains_found]> ∅))) in
  Ok (VDict analysis).

Definition enhance_category (f : value → result (list value)) (category : string)
    (enhanced_data : gmap string value) : result (gmap string value) :=
  match enhanced_data !! category with
  | Some entities =>
      enhanced ← f entities;
      Ok (<[category := VList enhanced]> enhanced_data)
  | None => Ok enhanced_data
  end.

Definition enhance_classification (classified_data : gmap string value)
    : result (gmap string value) :=
  let enhanced_data := classified_data in
  enhanced_data ← enhance_category _enhance_class_classification "classes" enhanced_data;
  enhanced_data ←
    enhance_category _enhance_property_classification "properties" enhanced_data;
  enhanced_data ←
    enhance_category _enhance_individual_classification "individuals" enhanced_data;
  analysis ← _generate_cobit5_analysis enhanced_data;
  Ok (<["cobit5_analysis" := analysis]> enhanced_data).

End COBIT5.

(** ** The TTL parser ([core/ttl_parser.py]) *)

Module TTLParser.
Import Py.

(** The terms of the triple store.  Two terms are equal when they are of
    the same kind and have the same text; language tags and datatypes of
    literals are not modelled. *)
Inductive term : Type :=
| URIRef (s : string)
| Literal (s : string)
| BNode (s : string).

#[export] Instance term_eq_dec : EqDecision term.
Proof. solve_decision. Defined.

(** [str(t)] *)
Definition str (t : term) : string :=
  match t with URIRef s | Literal s | BNode s => s end.

(** The parsed graph [self.rdf_graph], in the order in which it is
    iterated, and the table [self.namespace_map], in insertion order. *)
Definition graph : Type := list (term * term * term).
Definition namespace_map : Type := list (string * string).

Definition fits (pat : option term) (t : term) : bool :=
  match pat with Some u => bool_decide (t = u) | None => true end.

(** [graph.triples((s, p, o))], where [None] is a wildcard. *)
Definition triples (g : graph) (s p o : option term) : graph :=
  List.filter (λ t, fits s t.1.1 && fits p t.1.2 && fits o t.2) g.

Definition rdf (name : string) : term :=
  URIRef ("http://www.w3.org/1999/02/22-rdf-syntax-ns#" +:+ name).
Definition rdfs (name : string) : term :=
  URIRef ("http://www.w3.org/2000/01/rdf-schema#" +:+ name).
Definition owl (name : string) : term :=
  URIRef ("http://www.w3.org/2002/07/owl#" +:+ name).
Definition dcterms (name : string) : term :=
  URIRef ("http://purl.org/dc/terms/" +:+ name).

Definition _get_literal_value (g : graph) (subject predicate : term)
    (default : string) : string :=
  match triples g (Some subject) (Some predicate) None with
  | (_, _, o) :: _ => str o
  | [] => default
  end.

Definition _get_local_name (uri : term) : string :=
  let uri_str := str uri in
  if has_char "#" uri_str then List.last (split "#" uri_str) ""
  else if has_char "/" uri_str then List.last (split "/" uri_str) ""
  else uri_str.

(** The loop of [_get_prefixed_name] over the items of the table: the
    first namespace that is a prefix of the URI decides. *)
Fixpoint matching_namespace (items : namespace_map) (uri_str : string)
    : option string :=
  match items with
  | [] => None
  | (prefix, namespace_uri) :: rest =>
      if startswith uri_str namespace_uri then
        let local_part := drop_str (String.length namespace_uri) uri_str in
        Some (if String.eqb prefix "" then local_part
              else prefix +:+ ":" +:+ local_part)
      else matching_namespace rest uri_str
  end.

Definition _get_prefixed_name (ns : namespace_map) (uri : term) : string :=
  let uri_str := str uri in
  match matching_namespace ns uri_str with
  | Some name => name
  | None => _get_local_name uri
  end.

(** [[str(obj) for subj, pred, obj in triples]] and the like *)
Definition objects (ts : graph) : value := str_list ((λ t, str t.2) <$> ts).
Definition subjects (ts : graph) : value := str_list ((λ t, str t.1.1) <$> ts).

(** The record built for one class by the loop of [_extract_classes]. *)
Definition class_data (g : graph) (ns : namespace_map) (s : term)
    : gmap string value :=
  <["disjoint_with" := objects (triples g (Some s) (Some (owl "disjointWith")) None)]>
  (<["equivalent_class" :=
       objects (triples g (Some s) (Some (owl "equivalentClass")) None)]>
  (<["superclass_of" := subjects (triples g None (Some (rdfs "subClassOf")) (Some s))]>
  (<["subclass_of" := objects (triples g (Some s) (Some (rdfs "subClassOf")) None)]>
  (<["description" := VStr (_get_literal_value g s (dcterms "description") "")]>
  (<["comment" := VStr (_get_literal_value g s (rdfs "comment") "")]>
  (<["label" := VStr (_get_literal_value g s (rdfs "label") "")]>
  (<["prefixed_name" := VStr (_get_prefixed_name ns s)]>
  (<["local_name" := VStr (_get_local_name s)]>
  (<["uri" := VStr (str s)]> ∅))))))))).

Definition _extract_classes (g : graph) (ns : namespace_map)
    : list (gmap string value) :=
  (λ t, class_data g ns t.1.1) <$> triples g None (Some (rdf "type")) (Some (owl "Class")).

(** [bool(list(graph.triples((prop_uri, RDF.type, kind))))] *)
Definition has_type (g : graph) (prop_uri : term) (kind : string) : value :=
  VBool (match triples g (Some prop_uri) (Some (rdf "type")) (Some (owl kind)) with
         | [] => false
         | _ => true
         end).

Definition _build_property_data (g : graph) (ns : namespace_map)
    (prop_uri : term) (prop_type : string) : gmap string value :=
  <["irreflexive" := has_type g prop_uri "IrreflexiveProperty"]>
  (<["reflexive" := has_type g prop_uri "ReflexiveProperty"]>
  (<["asymmetric" := has_type g prop_uri "AsymmetricProperty"]>
  (<["symmetric" := has_type g prop_uri "SymmetricProperty"]>
  (<["transitive" := has_type g prop_uri "TransitiveProperty"]>
  (<["inverse_functional" := has_type g prop_uri "InverseFunctionalProperty"]>
  (<["functional" := has_type g prop_uri "FunctionalProperty"]>
  (<["inverse_of" := objects (triples g (Some prop_uri) (Some (owl "inverseOf")) None)]>
  (<["subproperty_of" :=
       objects (triples g (Some prop_uri) (Some (rdfs "subPropertyOf")) None)]>
  (<["range" := objects (triples g (Some prop_uri) (Some (rdfs "range")) None)]>
  (<["domain" := objects (triples g (Some prop_uri) (Some (rdfs "domain")) None)]>
  (<["description" := VStr (_get_literal_value g prop_uri (dcterms "description") "")]>
  (<["comment" := VStr (_get_literal_value g prop_uri (rdfs "comment") "")]>
  (<["label" := VStr (_get_literal_value g prop_uri (rdfs "label") "")]>
  (<["type" := VStr prop_type]>
  (<["prefixed_name" := VStr (_get_prefixed_name ns prop_uri)]>
  (<["local_name" := VStr (_get_local_name prop_uri)]>
  (<["uri" := VStr (str prop_uri)]> ∅))))))))))))))))).

(** The properties of one kind, in the order of the graph. *)
Definition properties_of_kind (g : graph) (ns : namespace_map) (kind : string)
    : list (gmap string value) :=
  (λ t, _build_property_data g ns t.1.1 kind)
    <$> triples g None (Some (rdf "type")) (Some (owl kind)).

Definition _extract_properties (g : graph) (ns : namespace_map)
    : list (gmap string value) :=
  (properties_of_kind g ns "ObjectProperty"
   ++ properties_of_kind g ns "DatatypeProperty"
   ++ properties_of_kind g ns "AnnotationProperty")%list.

End TTLParser.

(** ** The Graphiti importer ([core/ontology_importer.py]) *)

Module OntologyImporter.
Import Py.

(** One call of [add_memory].  [episode_body] is the value whose JSON text
    is passed; the serialisation itself is not modelled. *)
Record submission : Type := Submission {
  name : string;
  episode_body : value;
  group_id : string;
  source : string;
  source_description : string
}.

(** What a call of [add_memory] does: it returns a value (a receipt, or a
    description of a failure), or it raises an exception. *)
Inductive outcome : Type :=
| Returns (v : value)
| Raises (msg : string).

(** The external sink: its outcome may depend on the calls made before. *)
Definition sink : Type := list submission → submission → outcome.

(** Why the [try] block of [import_with_layers] is left. *)
Inductive failure : Type :=
| SinkRaised (msg : string)
| CodeRaised (e : exn).

(** Computations of the importer: they extend the list of the calls made
    so far, and either produce a value or leave by an exception. *)
Definition io (A : Type) : Type := list submission → (A + failure) * list submission.

#[export] Instance io_ret : MRet io := λ A a calls, (inl a, calls).
#[export] Instance io_bind : MBind io := λ A B f m calls,
  match m calls with
  | (inl a, calls') => f a calls'
  | (inr e, calls') => (inr e, calls')
  end.
#[export] Instance io_fmap : FMap io := λ A B f m calls,
  match m calls with
  | (inl a, calls') => (inl (f a), calls')
  | (inr e, calls') => (inr e, calls')
  end.

(** A step of the code that calls nothing. *)
Definition lift {A} (r : result A) : io A := λ calls,
  match r with
  | Ok a => (inl a, calls)
  | Raise e => (inr (CodeRaised e), calls)
  end.

(** [await self.add_memory(...)] *)
Definition add_memory (snk : sink) (sub : submission) : io value := λ calls,
  match snk calls sub with
  | Returns v => (inl v, calls ++ [sub])
  | Raises msg => (inr (SinkRaised msg), calls ++ [sub])
  end%list.

Definition _import_metadata (snk : sink) (metadata : value)
    (group_id framework_name : string) : io value :=
  add_memory snk
    {| name := framework_name +:+ " Ontology Metadata";
       episode_body := metadata;
       group_id := group_id;
       source := "json";
       source_description :=
         "Ontology metadata for " +:+ framework_name +:+ " framework" |}.

(** The three buckets [{"business": [], "technical": [], "core": []}]. *)
Record buckets : Type := Buckets {
  business : list value;
  technical : list value;
  core : list value
}.

(** One step of the loop that sorts the entities by primary layer. *)
Definition put (layers : buckets) (entity : value) : result buckets :=
  e ← as_dict entity;
  let primary_layer := get e "primary_layer" (VStr "technical") in
  known ← in_str_set primary_layer ["business"; "technical"; "core"];
  if (known : bool) then
    match primary_layer with
    | VStr "business" =>
        Ok {| business := business layers ++ [entity];
              technical := technical layers; core := core layers |}%list
    | VStr "technical" =>
        Ok {| business := business layers;
              technical := technical layers ++ [entity]; core := core layers |}%list
    | _ =>
        Ok {| business := business layers; technical := technical layers;
              core := core layers ++ [entity] |}%list
    end
  else Ok layers.

Fixpoint put_all (layers : buckets) (entities : list value) : result buckets :=
  match entities with
  | [] => Ok layers
  | entity :: rest => layers ← put layers entity; put_all layers rest
  end.

(** One round of the loop over the buckets: an empty bucket is skipped. *)
Definition import_layer (snk : sink) (kind Kind group_id framework_name : string)
    (layer_name : string) (layer_entities : list value)
    (layer_results : gmap string value) : io (gmap string value) :=
  match layer_entities with
  | [] => mret layer_results
  | _ =>
      result ← add_memory snk
        {| name := framework_name +:+ " " +:+ Kind +:+ " - "
                   +:+ title layer_name +:+ " Layer";
           episode_body :=
             VDict (<["count" := VInt (Z.of_nat (length layer_entities))]>
                   (<[kind := VList layer_entities]>
                   (<["framework" := VStr framework_name]>
                   (<["layer" := VStr layer_name]> ∅))));
           group_id := group_id;
           source := "json";
           source_description :=
             framework_name +:+ " " +:+ layer_name +:+ " layer " +:+ kind |};
      mret (<[layer_name := result]> layer_results)
  end.

(** The common shape of [_import_classes_by_layer],
    [_import_properties_by_layer] and [_import_individuals_by_layer], which
    differ in the word [kind] ("classes", ...) and its capitalised form. *)
Definition import_by_layer (kind Kind : string) (snk : sink) (entities : value)
    (group_id framework_name : string) : io (gmap string value) :=
  entities ← lift (iter entities);
  layers ← lift (put_all {| business := []; technical := []; core := [] |} entities);
  layer_results ← import_layer snk kind Kind group_id framework_name
                     "business" (business layers) ∅;
  layer_results ← import_layer snk kind Kind group_id framework_name
                     "technical" (technical layers) layer_results;
  import_layer snk kind Kind group_id framework_name
    "core" (core layers) layer_results.

Definition _import_classes_by_layer := import_by_layer "classes" "Classes".
Definition _import_properties_by_layer := import_by_layer "properties" "Properties".
Definition _import_individuals_by_layer := import_by_layer "individuals" "Individuals".

(** [relationship_groups[predicate].append(rel)], creating the group at
    the end of the dictionary when it is new. *)
Fixpoint append_to_group (groups : list (string * list value)) (predicate : string)
    (rel : value) : list (string * list value) :=
  match groups with
  | [] => [(predicate, [rel])]
  | (p, rels) :: rest =>
      if String.eqb p predicate then (p, rels ++ [rel])%list :: rest
      else (p, rels) :: append_to_group rest predicate rel
  end.

Definition group_relationship (groups : list (string * list value)) (rel : value)
    : result (list (string * list value)) :=
  r ← as_dict rel;
  match get r "predicate_local_name" (VStr "unknown") with
  | VStr predicate => Ok (append_to_group groups predicate rel)
  | VList _ | VDict _ => Raise TypeError
  | _ => Raise Unsupported
  end.

Fixpoint group_relationships (groups : list (string * list value))
    (relationships : list value) : result (list (string * list value)) :=
  match relationships with
  | [] => Ok groups
  | rel :: rest =>
      groups ← group_relationship groups rel;
      group_relationships groups rest
  end.

Fixpoint import_groups (snk : sink) (group_id framework_name : string)
    (groups : list (string * list value)) (group_results : gmap string value)
    : io (gmap string value) :=
  match groups with
  | [] => mret group_results
  | (rel_type, rel_list) :: rest =>
      group_results ←
        (if 0 <? length rel_list then
           result ← add_memory snk
             {| name := framework_name +:+ " Relationships - " +:+ rel_type;
                episode_body :=
                  VDict (<["count" := VInt (Z.of_nat (length rel_list))]>
                        (<["relationships" := VList rel_list]>
                        (<["framework" := VStr framework_name]>
                        (<["relationship_type" := VStr rel_type]> ∅))));
                group_id := group_id;
                source := "json";
                source_description :=
                  framework_name +:+ " " +:+ rel_type +:+ " relationships" |};
           mret (<[rel_type := result]> group_results)
         else mret group_results);
      import_groups snk group_id framework_name rest group_results
  end.

Definition _import_relationships (snk : sink) (relationships : value)
    (group_id framework_name : string) : io (gmap string value) :=
  relationships ← lift (iter relationships);
  relationship_groups ← lift (group_relationships [] relationships);
  import_groups snk group_id framework_name relationship_groups ∅.

(** The keys under which [import_with_layers] stores results, in the
    order in which it stores them. *)
Definition import_keys : list string :=
  ["metadata"; "classes"; "properties"; "individuals"; "relationships"].

(** The number of results of one category that carry a ["message"]. *)
Definition episodes_in (category_results : value) : nat :=
  match category_results with
  | VDict d =>
      length (List.filter (λ kv, match kv.2 with
                            | VDict r => bool_decide (is_Some (r !! "message"))
                            | _ => false
                            end) (map_to_list d))
  | _ => 0
  end.

Definition _generate_import_summary (now : string)
    (import_results classified_data : gmap string value) : result value :=
  let layer_stats := get classified_data "layer_statistics" (VDict ∅) in
  let episodes_created :=
    map_fold (λ _ category_results n, n + episodes_in category_results) 0
             import_results in
  stats ← as_dict (get classified_data "statistics" (VDict ∅));
  properties ← add (get stats "object_properties" (VInt 0))
                   (get stats "datatype_properties" (VInt 0));
  let entities_processed : gmap string value :=
    <["relationships" := get stats "relationships" (VInt 0)]>
    (<["individuals" := get stats "individuals" (VInt 0)]>
    (<["properties" := properties]>
    (<["classes" := get stats "classes" (VInt 0)]> ∅))) in
  let summary : gmap string value :=
    <["import_categories" :=
        str_list (filter (λ k, is_Some (import_results !! k)) import_keys)]>
    (<["original_triples" := get stats "total_triples" (VInt 0)]>
    (<["layer_distribution" := layer_stats]>
    (<["entities_processed" := VDict entities_processed]>
    (<["episodes_created" := VInt (Z.of_nat episodes_created)]>
    (<["import_timestamp" := VStr now]> ∅))))) in
  Ok (VDict summary).

(** [if key in classified_data: import_results[key] = await f(...)] *)
Definition import_part (classified_data : gmap string value) (key : string)
    (f : value → io value) (import_results : gmap string value)
    : io (gmap string value) :=
  match classified_data !! key with
  | Some part => result ← f part; mret (<[key := result]> import_results)
  | None => mret import_results
  end.

(** The body of the [try] block of [import_with_layers]. *)
Definition import_all (snk : sink) (now : string)
    (classified_data : gmap string value) (group_id framework_name : string)
    : io value :=
  let import_results : gmap string value := ∅ in
  import_results ← import_part classified_data "metadata"
    (λ part, _import_metadata snk part group_id framework_name) import_results;
  import_results ← import_part classified_data "classes"
    (λ part, VDict <$> _import_classes_by_layer snk part group_id framework_name)
    import_results;
  import_results ← import_part classified_data "properties"
    (λ part, VDict <$> _import_properties_by_layer snk part group_id framework_name)
    import_results;
  import_results ← import_part classified_data "individuals"
    (λ part, VDict <$> _import_individuals_by_layer snk part group_id framework_name)
    import_results;
  import_results ← import_part classified_data "relationships"
    (λ part, VDict <$> _import_relationships snk part group_id framework_name)
    import_results;
  summary ← lift (_generate_import_summary now import_results classified_data);
  mret (VDict (<["summary" := summary]>
              (<["results" := VDict import_results]>
              (<["success" := VBool true]> ∅)))).

(** [str(e)] of the exception that left the [try] block; for an exception
    raised by the code itself only its class is kept. *)
Definition describe (f : failure) : string :=
  match f with
  | SinkRaised msg => msg
  | CodeRaised TypeError => "TypeError"
  | CodeRaised AttributeError => "AttributeError"
  | CodeRaised KeyError => "KeyError"
  | CodeRaised Unsupported => "Unsupported"
  end.

Definition not_imported (error : value) : value :=
  VDict (<["error" := error]> (<["success" := VBool false]> ∅)).

(** [import_with_layers]: the returned dictionary and the calls of
    [add_memory] that were made, in order.  [now] is the time stamp that
    the summary records. *)
Definition import_with_layers (snk : sink) (now : string)
    (classified_data : gmap string value) (group_id framework_name : string)
    : value * list submission :=
  match classified_data !! "error" with
  | Some error => (not_imported error, [])
  | None =>
      match import_all snk now classified_data group_id framework_name [] with
      | (inl result, calls) => (result, calls)
      | (inr e, calls) => (not_imported (VStr (describe e)), calls)
      end
  end.

End OntologyImporter.

(** ** The properties of the pipeline, as predicates *)

Module Spec.
Import Py LayerClassifier WellFormed.

(** The three entity categories of a model, with the model key and the
    entity type that [classify] passes for each. *)
Inductive category : Type := Classes | Properties | Individuals.

Definition key_of (c : category) : string :=
  match c with
  | Classes => "classes"
  | Properties => "properties"
  | Individuals => "individuals"
  end.

Definition entity_type_of (c : category) : string :=
  match c with
  | Classes => "class"
  | Properties => "property"
  | Individuals => "individual"
  end.

(** The two domain enhancers, and the passes that assign layers. *)
Inductive enhancer : Type := Iso17025 | Cobit5.
Inductive pass : Type := Generic | Enhance (f : enhancer).

(** What an enhancer does to one entity of a category, and to the list of
    the entities of a category. *)
Definition enhance_entity (f : enhancer) (c : category) : value → result value :=
  match f, c with
  | Iso17025, Classes => ISO17025.enhance_class
  | Iso17025, Properties => ISO17025.enhance_property
  | Iso17025, Individuals => ISO17025.enhance_individual
  | Cobit5, Classes => COBIT5.enhance_class
  | Cobit5, Properties => COBIT5.enhance_property
  | Cobit5, Individuals => COBIT5.enhance_individual
  end.

Definition enhance_entities (f : enhancer) (c : category)
    : value → result (list value) :=
  match f, c with
  | Iso17025, Classes => ISO17025._enhance_class_classification
  | Iso17025, Properties => ISO17025._enhance_property_classification
  | Iso17025, Individuals => ISO17025._enhance_individual_classification
  | Cobit5, Classes => COBIT5._enhance_class_classification
  | Cobit5, Properties => COBIT5._enhance_property_classification
  | Cobit5, Individuals => COBIT5._enhance_individual_classification
  end.

Definition enhance_model (f : enhancer)
    : gmap string value → result (gmap string value) :=
  match f with
  | Iso17025 => ISO17025.enhance_classification
  | Cobit5 => COBIT5.enhance_classification
  end.

(** What a pass does to one entity of a category. *)
Definition pass_entity (p : pass) (c : category) : value → result value :=
  match p with
  | Generic => classify_entity (entity_type_of c)
  | Enhance f => enhance_entity f c
  end.

(** No rule of steps 2 to 5 of the classifier matches the entity. *)
Definition no_rule (e : gmap string value) (ty : string) : Prop :=
  ∃ txt, text_content_of e = Ok txt
         ∧ _is_technical_entity e txt = Ok false
         ∧ _is_business_entity e txt = Ok false
         ∧ _is_core_entity e txt = Ok false
         ∧ by_entity_type e ty = Ok ∅.

(** [v'] is the entity [v] with a layer assignment: a non-empty list of
    layer names and a primary layer taken from it, the list being
    [technical] alone when no rule matches. *)
Definition assigned (ty : string) (v v' : value) : Prop :=
  ∃ e e' ls p,
    v = VDict e ∧ v' = VDict e'
    ∧ e' !! "layers" = Some (str_list ls)
    ∧ e' !! "primary_layer" = Some (VStr p)
    ∧ ls ≠ [] ∧ (∀ y, y ∈ ls → y ∈ three) ∧ p ∈ ls
    ∧ (no_rule e ty → ls = ["technical"]).

(** The priority business > core > technical on the record of an entity. *)
Definition priority_law (v : value) : Prop :=
  ∃ e ls p,
    v = VDict e
    ∧ e !! "layers" = Some (str_list ls)
    ∧ e !! "primary_layer" = Some (VStr p)
    ∧ (p = "business" ↔ "business" ∈ ls)
    ∧ ("business" ∉ ls → (p = "core" ↔ "core" ∈ ls))
    ∧ ("business" ∉ ls → "core" ∉ ls → p = "technical").

(** [v'] is the record [e] after an enhancer merged its own layers
    [extra] into those that [e] has, with [primary] as primary layer. *)
Definition merged (primary : gset string → string) (e : gmap string value)
    (v' : value) : Prop :=
  ∃ e' existing extra,
    v' = VDict e'
    ∧ str_set (get e "layers" (VList [])) = Ok existing
    ∧ e' !! "layers" = Some (str_list (sorted_of_set (existing ∪ extra)))
    ∧ e' !! "primary_layer" = Some (VStr (primary (existing ∪ extra))).

(** An entity of a classified model: a well-formed record whose [layers]
    field is a list of names. *)
Definition classified (v : value) : Prop :=
  ∃ e ls, v = VDict e ∧ wf_entity e ∧ e !! "layers" = Some (str_list ls).

(** Every layer of [v] is a layer of [v']. *)
Definition layers_kept (v v' : value) : Prop :=
  ∃ e e' ls ls',
    v = VDict e ∧ v' = VDict e'
    ∧ e !! "layers" = Some (str_list ls)
    ∧ e' !! "layers" = Some (str_list ls')
    ∧ ∀ y, y ∈ ls → y ∈ ls'.

(** The combined relationship-reference count of an entity: the lengths of
    its four relation lists, where present, added up. *)
Definition reference_count (e : gmap string value) : nat :=
  sum_list ((λ k, match e !! k with
                  | Some (VList l) => length l
                  | _ => 0
                  end) <$> list_keys).

(** [v'] has every field of [v], with the same value, except possibly the
    two fields of the layer assignment. *)
Definition same_fields (v v' : value) : Prop :=
  ∃ e e', v = VDict e ∧ v' = VDict e'
          ∧ ∀ k, k ≠ "layers" → k ≠ "primary_layer" → e' !! k = e !! k.

(** The kinds that the technical test of the classifier accepts. *)
Definition technical_kinds : list string :=
  ["ObjectProperty"; "DatatypeProperty"; "AnnotationProperty";
   "Class"; "Restriction"].

(** The entities of a category of a model. *)
Definition entities_of (m : gmap string value) (c : category) : list value :=
  match m !! key_of c with Some (VList es) => es | _ => [] end.

(** The entity has [layer] as its primary layer, where a record without
    the field counts as technical. *)
Definition has_primary (layer : string) (v : value) : bool :=
  match v with
  | VDict e => str_is layer (get e "primary_layer" (VStr "technical"))
  | _ => false
  end.

(** The entity has more than one layer. *)
Definition multi_layered (v : value) : bool :=
  match v with
  | VDict e =>
      match len (get e "layers" (VList [])) with
      | Ok n => 1 <? n
      | Raise _ => false
      end
  | _ => false
  end.

(** The number of the entities that satisfy [p]. *)
Definition count (p : value → bool) (es : list value) : Z :=
  Z.of_nat (length (List.filter p es)).

(** The number that a statistics table holds in a row at a column. *)
Definition statistic_in (stats : value) (row column : string) : option Z :=
  match stats with
  | VDict rows =>
      match rows !! row with
      | Some (VDict r) =>
          match r !! column with Some (VInt n) => Some n | _ => None end
      | _ => None
      end
  | _ => None
  end.

(** The number that the layer statistics of a model hold in the row of a
    layer (or of [multi_layer]) at the column of a category (or [total]). *)
Definition statistic (m : gmap string value) (row column : string) : option Z :=
  match m !! "layer_statistics" with
  | Some stats => statistic_in stats row column
  | None => None
  end.

(** The rows of the statistics table. *)
Definition rows : list string := ["business"; "technical"; "core"; "multi_layer"].

(** A counter of the table that [_get_layer_statistics] builds. *)
Definition cell (stats : gmap string (gmap string Z)) (row col : string)
    : option Z :=
  stats !! row ≫= λ r, r !! col.

(** What one entity adds to a counter. *)
Definition tally (row : string) (v : value) : Z :=
  ((if has_primary row v && bool_decide (row ∈ rows) then 1 else 0)
   + (if String.eqb row "multi_layer" && multi_layered v then 1 else 0))%Z.

(** What the entities of a list add to a counter. *)
Definition tallies (row : string) (es : list value) : Z :=
  foldr (λ v acc, tally row v + acc)%Z 0%Z es.

(** A category is absent or holds a list. *)
Definition listed (cd : gmap string value) : Prop :=
  ∀ cat, cat ∈ categories → cd !! cat = None ∨ ∃ es, cd !! cat = Some (VList es).

(** An entity as [classify] returns it: its primary layer is one of the
    three layers. *)
Definition layered (v : value) : Prop :=
  ∃ e p, v = VDict e ∧ e !! "primary_layer" = Some (VStr p)
         ∧ p ∈ ["business"; "technical"; "core"].

(** The three layers in the order in which [sorted] puts them. *)
Definition layer_order : list string := ["business"; "core"; "technical"].

(** The five fields that make up the text of an entity. *)
Definition content_keys : list string :=
  ["local_name"; "prefixed_name"; "label"; "comment"; "description"].

(** The fields of an entity that the enhancers read, besides [layers]. *)
Definition read_keys : list string :=
  ["local_name"; "type_local_name"; "domain"; "range"].

(** The fields that an enhancer adds to an entity of a category. *)
Definition annotation_keys (f : enhancer) (c : category) : list string :=
  match f, c with
  | Iso17025, Classes => ["laboratory_relevance"; "iso17025_clause"]
  | Iso17025, Properties => ["measurement_relevance"]
  | Iso17025, Individuals => ["laboratory_function"]
  | Cobit5, Classes => ["business_relevance"; "cobit5_domain"]
  | Cobit5, Properties => ["governance_relevance"]
  | Cobit5, Individuals => ["cobit5_process_code"]
  end.

(** The record [e] with the fields [anns] set, the first one last. *)
Definition annotate (anns : list (string * value)) (e : gmap string value)
    : gmap string value :=
  foldr (λ kv m, <[kv.1 := kv.2]> m) e anns.

(** The record [e] with the layers [layers] and their primary layer. *)
Definition with_layers (layers : gset string) (e : gmap string value)
    : gmap string value :=
  <["primary_layer" := VStr (ISO17025._get_iso17025_primary_layer layers)]>
    (<["layers" := str_list (sorted_of_set layers)]> e).

(** The key under which an enhancer stores its analysis, and the function
    that computes the analysis. *)
Definition analysis_key (f : enhancer) : string :=
  match f with
  | Iso17025 => "iso17025_analysis"
  | Cobit5 => "cobit5_analysis"
  end.

Definition analysis (f : enhancer) : gmap string value → result value :=
  match f with
  | Iso17025 => ISO17025._generate_iso17025_analysis
  | Cobit5 => COBIT5._generate_cobit5_analysis
  end.

(** The entity field that the analysis of an enhancer collects. *)
Definition watched (f : enhancer) : string :=
  match f with
  | Iso17025 => "iso17025_clause"
  | Cobit5 => "cobit5_domain"
  end.

(** Two records with the same value in a field. *)
Definition same_at (key : string) (v v' : value) : Prop :=
  ∃ e e', v = VDict e ∧ v' = VDict e' ∧ e' !! key = e !! key.

(** The model [d] with the entity lists [o] in its categories. *)
Definition replaced (o : category → option (list value)) (d : gmap string value)
    : gmap string value :=
  let put c d :=
    match o c with Some es => <[key_of c := VList es]> d | None => d end in
  put Individuals (put Properties (put Classes d)).

(** What an enhancer does to an entity: it computes layers and
    annotations from the fields it reads, and stores them with the merged
    layers in the record. *)
Definition shape (f : enhancer) (c : category) (e : gmap string value)
    (extra : gset string) (anns : list (string * value)) : Prop :=
  extra ⊆ three ∧ anns.*1 = annotation_keys f c
  ∧ ∀ e2 existing2,
      (∀ k, k ∈ read_keys → e2 !! k = e !! k) →
      str_set (get e2 "layers" (VList [])) = Ok existing2 →
      enhance_entity f c (VDict e2)
        = Ok (VDict (annotate anns (with_layers (existing2 ∪ extra) e2))).

End Spec.

(** ** Sample inputs *)

Module Samples.
Import Py LayerClassifier TTLParser OntologyImporter.

(** A root class named [GovernanceControl]. *)
Definition governance_control : gmap string value :=
  <["subclass_of" := VList []]>
  (<["prefixed_name" := VStr "cobit5:GovernanceControl"]>
  (<["local_name" := VStr "GovernanceControl"]> ∅)).

(** The annotation property [hasComment], with empty domain and range. *)
Definition has_comment : gmap string value :=
  <["range" := VList []]>
  (<["domain" := VList []]>
  (<["type" := VStr "AnnotationProperty"]>
  (<["local_name" := VStr "hasComment"]> ∅))).

(** A class with three superclasses and no matching keyword. *)
Definition dense_class : gmap string value :=
  <["subclass_of" := str_list ["http://example.org/A"; "http://example.org/B";
                               "http://example.org/C"]]>
  (<["local_name" := VStr "Foo"]> ∅).

Definition sample_model : gmap string value :=
  <["metadata" := VDict (<["title" := VStr "Sample"]> ∅)]>
  (<["properties" := VList [VDict has_comment]]>
  (<["classes" := VList [VDict governance_control; VDict dense_class]]> ∅)).

(** A class that the generic classifier tagged as technical only. *)
Definition calibration_certificate : gmap string value :=
  <["primary_layer" := VStr "technical"]>
  (<["layers" := str_list ["technical"]]>
  (<["local_name" := VStr "CalibrationCertificate"]> ∅)).

(** The model that replaces the parser's output when parsing fails. *)
Definition error_model : gmap string value :=
  <["error" := VStr "Parsing failed"]> ∅.

(** The analysis that the ISO17025 enhancer computes for a model without
    entities. *)
Definition empty_iso17025_analysis : value :=
  VDict (<["compliance_readiness" := VStr "low"]>
        (<["measurement_capabilities" := VDict ∅]>
        (<["laboratory_coverage" :=
             VDict (<["coverage_percentage" := VFloat (inject_Z 0 / inject_Z 5 * 100)%Q]>
                   (<["total_clauses" := VInt 5]>
                   (<["clauses_covered" := VInt 0]> ∅)))]>
        (<["clauses_covered" := VList []]> ∅)))).

(** The analysis that the COBIT5 enhancer computes for a model without
    entities and without layer statistics. *)
Definition empty_cobit5_analysis : value :=
  VDict (<["business_readiness" := VStr "low"]>
        (<["process_distribution" := VDict ∅]>
        (<["governance_coverage" :=
             VDict (<["coverage_percentage" := VFloat (inject_Z 0 / inject_Z 5 * 100)%Q]>
                   (<["total_domains" := VInt 5]>
                   (<["domains_found" := VInt 0]> ∅)))]>
        (<["domains_found" := VList []]> ∅)))).

(** A small ontology: one class, one object property with a domain, and
    an overlapping pair of namespaces. *)
Definition sample_graph : graph :=
  [ (URIRef "http://example.org/lab#Sample", rdf "type", owl "Class");
    (URIRef "http://example.org/lab#Sample", rdfs "label", Literal "Sample");
    (URIRef "http://example.org/lab#takenBy", rdf "type", owl "ObjectProperty");
    (URIRef "http://example.org/lab#takenBy", rdfs "domain",
       URIRef "http://example.org/lab#Sample") ].

Definition sample_namespaces : namespace_map :=
  [ ("ex", "http://example.org/"); ("lab", "http://example.org/lab#") ].

(** A classified model with one class. *)
Definition certificate_model : gmap string value :=
  <["classes" := VList [VDict calibration_certificate]]> ∅.

(** The class after the ISO17025 enhancer, and after the COBIT5 one. *)
Definition certificate_iso17025 : gmap string value :=
  <["laboratory_relevance" := VStr "high"]>
  (<["iso17025_clause" := VStr "7"]>
  (<["primary_layer" := VStr "business"]>
  (<["layers" := str_list ["business"; "technical"]]> calibration_certificate))).

Definition certificate_cobit5 : gmap string value :=
  <["business_relevance" := VStr "low"]>
  (<["cobit5_domain" := VNone]> calibration_certificate).

(** The models that the two enhancers return for [certificate_model]. *)
Definition certificate_model_iso17025 : gmap string value :=
  <["iso17025_analysis" :=
      VDict (<["compliance_readiness" := VStr "low"]>
            (<["measurement_capabilities" := VDict ∅]>
            (<["laboratory_coverage" :=
                 VDict (<["coverage_percentage" :=
                            VFloat (inject_Z 1 / inject_Z 5 * 100)%Q]>
                       (<["total_clauses" := VInt 5]>
                       (<["clauses_covered" := VInt 1]> ∅)))]>
            (<["clauses_covered" := str_list ["7"]]> ∅))))]>
  (<["classes" := VList [VDict certificate_iso17025]]> ∅).

Definition certificate_model_cobit5 : gmap string value :=
  <["cobit5_analysis" := empty_cobit5_analysis]>
  (<["classes" := VList [VDict certificate_cobit5]]> ∅).

(** A sink that queues every episode, and one that is unavailable. *)
Definition accepting : sink :=
  λ _ _, Returns (VDict (<["message" := VStr "Episode queued"]> ∅)).
Definition unavailable : sink := λ _ _, Raises "Connection refused".


(** Three relationships with two predicates. *)
Definition uses_a : value :=
  VDict (<["subject" := VStr "a"]> (<["predicate_local_name" := VStr "uses"]> ∅)).
Definition owns_b : value :=
  VDict (<["subject" := VStr "b"]> (<["predicate_local_name" := VStr "owns"]> ∅)).
Definition uses_c : value :=
  VDict (<["subject" := VStr "c"]> (<["predicate_local_name" := VStr "uses"]> ∅)).

End Samples.

(** ** The properties of the importer, as predicates *)

Module ImportSpec.
Import Py LayerClassifier WellFormed Spec OntologyImporter.

(** What holds of every computation of the importer for the group [gid]
    with the sink [snk]: it only adds calls, every added call is for the
    group with source [json], and an added call on which the sink raises is
    the last one and its exception leaves the computation. *)
Definition disciplined {A} (snk : sink) (gid : string) (m : io A) : Prop :=
  ∀ calls0 res calls, m calls0 = (res, calls) →
    ∃ new, calls = (calls0 ++ new)%list
      ∧ Forall (λ sub, group_id sub = gid ∧ source sub = "json") new
      ∧ ∀ before sub after msg,
          new = (before ++ sub :: after)%list →
          snk (calls0 ++ before)%list sub = Raises msg →
          after = [] ∧ res = inr (SinkRaised msg).

(** The call that [import_by_layer] makes for a layer with the entities
    [bucket]. *)
Definition layer_submission (kind Kind gid fw layer : string)
    (bucket : list value) : submission :=
  {| name := fw +:+ " " +:+ Kind +:+ " - " +:+ title layer +:+ " Layer";
     episode_body :=
       VDict (<["count" := VInt (Z.of_nat (length bucket))]>
             (<[kind := VList bucket]>
             (<["framework" := VStr fw]>
             (<["layer" := VStr layer]> ∅))));
     group_id := gid;
     source := "json";
     source_description := fw +:+ " " +:+ layer +:+ " layer " +:+ kind |}.

(** The entities of a list whose primary layer is [layer]. *)
Definition bucket_of (layer : string) (es : list value) : list value :=
  List.filter (has_primary layer) es.

(** The call for a layer, if the layer has entities. *)
Definition layer_call (kind Kind gid fw : string) (es : list value)
    (layer : string) : list submission :=
  match bucket_of layer es with
  | [] => []
  | bucket => [layer_submission kind Kind gid fw layer bucket]
  end.

(** The calls for the layers that have entities, in the order of the
    layers. *)
Definition expected_layer_calls (kind Kind gid fw : string) (es : list value)
    : list submission :=
  (layer_call kind Kind gid fw es "business"
   ++ layer_call kind Kind gid fw es "technical"
   ++ layer_call kind Kind gid fw es "core")%list.

(** The call that imports the metadata. *)
Definition metadata_call (gid fw : string) (metadata : value) : submission :=
  {| name := fw +:+ " Ontology Metadata";
     episode_body := metadata;
     group_id := gid;
     source := "json";
     source_description := "Ontology metadata for " +:+ fw +:+ " framework" |}.

(** The call for a group of relationships. *)
Definition group_call (gid fw : string) (group : string * list value)
    : list submission :=
  if 0 <? length group.2 then
    [ {| name := fw +:+ " Relationships - " +:+ group.1;
         episode_body :=
           VDict (<["count" := VInt (Z.of_nat (length group.2))]>
                 (<["relationships" := VList group.2]>
                 (<["framework" := VStr fw]>
                 (<["relationship_type" := VStr group.1]> ∅))));
         group_id := gid;
         source := "json";
         source_description := fw +:+ " " +:+ group.1 +:+ " relationships" |} ]
  else [].

(** The calls for a category, when it is present and can be iterated. *)
Definition by_layer_calls (kind Kind gid fw : string) (part : option value)
    : list submission :=
  match part with
  | Some v =>
      match iter v with
      | Ok es => expected_layer_calls kind Kind gid fw es
      | Raise _ => []
      end
  | None => []
  end.

(** The calls for the relationships, one per predicate in the order in
    which the predicates first occur. *)
Definition relationship_calls (gid fw : string) (part : option value)
    : list submission :=
  match part with
  | Some v =>
      match iter v ≫= group_relationships [] with
      | Ok groups => flat_map (group_call gid fw) groups
      | Raise _ => []
      end
  | None => []
  end.

(** All the calls of an import that is not cut short. *)
Definition expected_calls (cd : gmap string value) (gid fw : string)
    : list submission :=
  match cd !! "error" with
  | Some _ => []
  | None =>
      (match cd !! "metadata" with
       | Some metadata => [metadata_call gid fw metadata]
       | None => []
       end
       ++ by_layer_calls "classes" "Classes" gid fw (cd !! "classes")
       ++ by_layer_calls "properties" "Properties" gid fw (cd !! "properties")
       ++ by_layer_calls "individuals" "Individuals" gid fw (cd !! "individuals")
       ++ relationship_calls gid fw (cd !! "relationships"))%list
  end.

(** A computation of the importer makes an initial part of the calls
    [expected], and all of them when it returns. *)
Definition follows {A} (expected : list submission) (m : io A) : Prop :=
  ∀ calls0 res calls, m calls0 = (res, calls) →
    ∃ new, calls = (calls0 ++ new)%list
      ∧ new `prefix_of` expected
      ∧ (∀ r, res = inl r → new = expected).

(** A computation of the importer returns, with a value that satisfies
    [P]. *)
Definition returns {A} (P : A → Prop) (m : io A) : Prop :=
  ∀ calls0, ∃ a calls, m calls0 = (inl a, calls) ∧ P a.

(** A record whose field [key], when present, is text; and a list of
    such records. *)
Definition is_recordb (key : string) (v : value) : bool :=
  match v with VDict e => field_ok is_strb e key | _ => false end.
Definition is_record_listb (key : string) (v : value) : bool :=
  match v with VList es => forallb (is_recordb key) es | _ => false end.

(** The statistics of the parser, as far as the summary adds them up. *)
Definition is_intb (v : value) : bool :=
  match v with VInt _ => true | _ => false end.
Definition is_statisticsb (v : value) : bool :=
  match v with
  | VDict stats =>
      field_ok is_intb stats "object_properties"
      && field_ok is_intb stats "datatype_properties"
  | _ => false
  end.

(** Data that the importer can process: the categories hold records with
    a text primary layer, the relationships hold records with a text
    predicate name, and the statistics hold numbers. *)
Definition importableb (cd : gmap string value) : bool :=
  forallb (field_ok (is_record_listb "primary_layer") cd) categories
  && field_ok (is_record_listb "predicate_local_name") cd "relationships"
  && field_ok is_statisticsb cd "statistics".

(** The value that [import_with_layers] returns for a completed import. *)
Definition imported (results : gmap string value) (summary : value) : value :=
  VDict (<["summary" := summary]>
        (<["results" := VDict results]>
        (<["success" := VBool true]> ∅))).

(** The predicate name under which a relationship is grouped. *)
Definition predicate_of (v : value) : option string :=
  match v with
  | VDict r =>
      match get r "predicate_local_name" (VStr "unknown") with
      | VStr p => Some p
      | _ => None
      end
  | _ => None
  end.

(** The relationships of a list that are grouped under [p]. *)
Definition with_predicate (p : string) (rels : list value) : list value :=
  List.filter (λ v, bool_decide (predicate_of v = Some p)) rels.

(** The groups hold the relationships [rels], each under its predicate. *)
Definition grouped (groups : list (string * list value)) (rels : list value)
    : Prop :=
  NoDup groups.*1
  ∧ (∀ p l, (p, l) ∈ groups → l = with_predicate p rels ∧ l ≠ [])
  ∧ (∀ p, p ∉ groups.*1 → with_predicate p rels = [])
  ∧ sum_list (length <$> groups.*2) = length rels.

End ImportSpec.

(** ** Facts about the generic classifier *)

Module ClassifierFacts.
Import Py LayerClassifier WellFormed Spec.

Lemma bind_Ok {A B} (f : A → result B) (m : result A) (b : B) :
  m ≫= f = Ok b ↔ ∃ a, m = Ok a ∧ f a = Ok b.
Proof.
  destruct m as [a|e]; simpl; split.
  - intros H. by exists a.
  - by intros (a' & [= ->] & H).
  - intros [=].
  - by intros (a' & [=] & _).
Qed.

Lemma is_strb_inv v : is_strb v = true → ∃ s, v = VStr s.
Proof. destruct v; try discriminate. eauto. Qed.

Lemma is_str_listb_inv v : is_str_listb v = true → ∃ l, v = str_list l.
Proof.
  destruct v as [| | | | |l|]; try discriminate. simpl. intros H.
  enough (∃ l', l = VStr <$> l') as [l' ->] by (by exists l').
  induction l as [|x l IH]; [by exists []|].
  simpl in H. apply andb_true_iff in H as [Hx Hl].
  destruct (is_strb_inv _ Hx) as [s ->], (IH Hl) as [l' ->].
  by exists (s :: l').
Qed.

Lemma wf_text e k :
  wf_entity e → k ∈ text_keys → ∃ s, get e k (VStr "") = VStr s.
Proof.
  intros Hwf Hk. apply andb_true_iff in Hwf as [Ht _].
  rewrite forallb_forall in Ht. apply list_elem_of_In, Ht in Hk.
  unfold field_ok, get in *. destruct (e !! k) as [v|]; simpl; [|eauto].
  by apply is_strb_inv.
Qed.

Lemma wf_list e k :
  wf_entity e → k ∈ list_keys → e !! k = None ∨ ∃ l, e !! k = Some (str_list l).
Proof.
  intros Hwf Hk. apply andb_true_iff in Hwf as [_ Hl].
  rewrite forallb_forall in Hl. apply list_elem_of_In, Hl in Hk.
  unfold field_ok in Hk. destruct (e !! k) as [v|]; [right|by left].
  destruct (is_str_listb_inv _ Hk) as [l ->]. eauto.
Qed.

Ltac in_keys := unfold text_keys, list_keys, categories; set_solver.

(** Runs the monad on results that are already known. *)
Ltac run :=
  cbn [mbind result_bind mret result_ret fmap result_fmap
       as_str as_dict len str_in iter add str_list].

Lemma lower_field_ok e k :
  wf_entity e → k ∈ text_keys → ∃ s, lower_field e k = Ok s.
Proof.
  intros Hwf Hk. unfold lower_field.
  destruct (wf_text e k Hwf Hk) as [s ->]. by exists (lower s).
Qed.

Lemma text_content_ok e : wf_entity e → ∃ t, text_content_of e = Ok t.
Proof.
  intros Hwf. unfold text_content_of.
  destruct (lower_field_ok e "local_name" Hwf) as [s1 ->]; [in_keys|].
  destruct (lower_field_ok e "prefixed_name" Hwf) as [s2 ->]; [in_keys|].
  destruct (lower_field_ok e "label" Hwf) as [s3 ->]; [in_keys|].
  destruct (lower_field_ok e "comment" Hwf) as [s4 ->]; [in_keys|].
  destruct (lower_field_ok e "description" Hwf) as [s5 ->]; [in_keys|].
  run. eauto.
Qed.

Lemma technical_ok e t : wf_entity e → ∃ b, _is_technical_entity e t = Ok b.
Proof.
  intros Hwf. unfold _is_technical_entity.
  case_match; [eauto|].
  destruct (wf_text e "local_name" Hwf) as [s1 ->]; [in_keys|]. run.
  case_match; [eauto|].
  destruct (wf_text e "type" Hwf) as [s2 ->]; [in_keys|]. run.
  case_match; [eauto|].
  destruct (wf_text e "prefixed_name" Hwf) as [s3 ->]; [in_keys|]. run.
  case_match; eauto.
Qed.

Lemma business_ok e t : wf_entity e → ∃ b, _is_business_entity e t = Ok b.
Proof.
  intros Hwf. unfold _is_business_entity.
  case_match; [eauto|].
  destruct (wf_text e "local_name" Hwf) as [s1 ->]; [in_keys|]. run.
  case_match; [eauto|].
  destruct (wf_text e "prefixed_name" Hwf) as [s3 ->]; [in_keys|]. run.
  case_match; eauto.
Qed.

Lemma add_len_ok e k c :
  wf_entity e → k ∈ list_keys → ∃ n, add_len e k c = Ok n.
Proof.
  intros Hwf Hk. unfold add_len.
  destruct (wf_list e k Hwf Hk) as [->|[l ->]]; run; eauto.
Qed.

Lemma relationships_count_ok e : wf_entity e → ∃ n, relationships_count e = Ok n.
Proof.
  intros Hwf. unfold relationships_count.
  destruct (add_len_ok e "subclass_of" 0 Hwf) as [c1 ->]; [in_keys|]. run.
  destruct (add_len_ok e "superclass_of" c1 Hwf) as [c2 ->]; [in_keys|]. run.
  destruct (add_len_ok e "domain" c2 Hwf) as [c3 ->]; [in_keys|]. run.
  apply add_len_ok; [done|in_keys].
Qed.

Lemma core_ok e t : wf_entity e → ∃ b, _is_core_entity e t = Ok b.
Proof.
  intros Hwf. unfold _is_core_entity.
  case_match; [eauto|].
  destruct (relationships_count_ok e Hwf) as [n ->]. run.
  destruct (3 <=? n); eauto.
Qed.

Lemma any_m_ok {A} (f : A → result bool) l :
  (∀ x, x ∈ l → ∃ b, f x = Ok b) → ∃ b, any_m f l = Ok b.
Proof.
  induction l as [|x l IH]; intros Hf; simpl; [eauto|].
  destruct (Hf x) as [b ->]; [set_solver|]. run.
  destruct b; [eauto|]. apply IH. intros y Hy. apply Hf. set_solver.
Qed.

Lemma get_list e k :
  wf_entity e → k ∈ list_keys → ∃ l, get e k (VList []) = str_list l.
Proof.
  intros Hwf Hk. unfold get.
  destruct (wf_list e k Hwf Hk) as [->|[l ->]]; simpl; [by exists []|eauto].
Qed.

Lemma classify_property_ok e :
  wf_entity e → ∃ s, _classify_property e = Ok s ∧ s ⊆ three.
Proof.
  intros Hwf. unfold _classify_property.
  destruct (get_list e "domain" Hwf) as [d ->]; [in_keys|].
  destruct (get_list e "range" Hwf) as [r ->]; [in_keys|].
  set (fn := truthy _ || truthy _).
  assert (∃ s, (if str_is "ObjectProperty" (get e "type" (VStr "")) then
     refs ← add (str_list d) (str_list r); refs ← iter refs;
     hit ← any_m (λ dr, any_m (λ bd, str_in bd dr)
                   ["Goal"; "Process"; "Domain"; "Control"; "Framework"]) refs;
     if (hit : bool) then Ok ((∅ : gset string) ∪ {["business"]}) else Ok ∅
   else if str_is "AnnotationProperty" (get e "type" (VStr "")) then
     Ok ((∅ : gset string) ∪ {["technical"]}) else Ok ∅) = Ok s ∧ s ⊆ three)
    as (s & -> & Hs).
  { destruct (str_is "ObjectProperty" _).
    - run. rewrite <- fmap_app.
      edestruct (any_m_ok (λ dr, any_m (λ bd, str_in bd dr)
                   ["Goal"; "Process"; "Domain"; "Control"; "Framework"])
                   (VStr <$> (d ++ r)%list)) as [b ->].
      + intros x [s [-> _]]%list_elem_of_fmap. cbn.
        repeat (destruct (contains _ s); [eauto|]). eauto.
      + destruct b; run; eexists; split; eauto; unfold three; set_solver.
    - destruct (str_is "AnnotationProperty" _); eexists; split; eauto;
        unfold three; set_solver. }
  run. destruct fn; eexists; split; eauto; unfold three; set_solver.
Qed.


Lemma classify_class_ok e :
  wf_entity e → ∃ s, _classify_class e = Ok s ∧ s ⊆ three.
Proof.
  intros Hwf. unfold _classify_class.
  destruct (get_list e "superclass_of" Hwf) as [l ->]; [in_keys|]. run.
  eexists; split; [done|]. unfold three.
  repeat case_match; set_solver.
Qed.

Lemma classify_individual_ok e :
  wf_entity e → ∃ s, _classify_individual e = Ok s ∧ s ⊆ three.
Proof.
  intros Hwf. unfold _classify_individual.
  destruct (wf_text e "type_local_name" Hwf) as [s ->]; [in_keys|]. run.
  unfold three. case_match; eexists; (split; [done|]); set_solver.
Qed.

Lemma by_entity_type_ok e ty :
  wf_entity e → ∃ s, by_entity_type e ty = Ok s ∧ s ⊆ three.
Proof.
  intros Hwf. unfold by_entity_type.
  repeat case_match;
    eauto using classify_property_ok, classify_class_ok, classify_individual_ok.
  exists ∅. split; [done|set_solver].
Qed.

(** The set of layers that [_determine_layers] builds from the outcome of
    the three tests and of the rule of the entity type. *)
Lemma determine_layers_inv e ty ls :
  _determine_layers e ty = Ok ls →
  ∃ txt t b c x,
    text_content_of e = Ok txt ∧
    _is_technical_entity e txt = Ok t ∧
    _is_business_entity e txt = Ok b ∧
    _is_core_entity e txt = Ok c ∧
    by_entity_type e ty = Ok x ∧
    ls = sorted_of_set (chosen_layers t b c x).
Proof.
  unfold _determine_layers. intros H.
  apply bind_Ok in H as (txt & Htxt & H).
  apply bind_Ok in H as (t & Ht & H).
  apply bind_Ok in H as (b & Hb & H).
  apply bind_Ok in H as (c & Hc & H).
  apply bind_Ok in H as (x & Hx & H).
  injection H as <-. by exists txt, t, b, c, x.
Qed.

Lemma determine_layers_ok e ty :
  wf_entity e → ∃ ls, _determine_layers e ty = Ok ls.
Proof.
  intros Hwf. unfold _determine_layers.
  destruct (text_content_ok e Hwf) as [txt ->]. run.
  destruct (technical_ok e txt Hwf) as [t ->]. run.
  destruct (business_ok e txt Hwf) as [b ->]. run.
  destruct (core_ok e txt Hwf) as [c ->]. run.
  destruct (by_entity_type_ok e ty Hwf) as (x & -> & _). run.
  eauto.
Qed.

Lemma elem_of_insert_sorted x y l : x ∈ insert_sorted y l ↔ x = y ∨ x ∈ l.
Proof.
  induction l as [|z l IH]; simpl; [set_solver|].
  case_match; set_solver.
Qed.

Lemma elem_of_sorted x l : x ∈ sorted l ↔ x ∈ l.
Proof.
  induction l as [|y l IH]; simpl; [done|].
  rewrite elem_of_insert_sorted. set_solver.
Qed.

Lemma elem_of_sorted_of_set x (s : gset string) : x ∈ sorted_of_set s ↔ x ∈ s.
Proof. unfold sorted_of_set. by rewrite elem_of_sorted, elem_of_elements. Qed.

Lemma elem_of_chosen_layers y t b c x :
  y ∈ chosen_layers t b c x ↔
    (y = "technical" ∧ (t = true ∨ (b = false ∧ c = false ∧ x = ∅)))
    ∨ (y = "business" ∧ b = true) ∨ (y = "core" ∧ c = true) ∨ y ∈ x.
Proof.
  unfold chosen_layers. destruct t, b, c; try case_bool_decide; set_solver.
Qed.


(** The priority law on a list of layer names. *)
Lemma get_primary_layer_law ls :
  (_get_primary_layer ls = "business" ↔ "business" ∈ ls)
  ∧ ("business" ∉ ls → (_get_primary_layer ls = "core" ↔ "core" ∈ ls))
  ∧ ("business" ∉ ls → "core" ∉ ls → _get_primary_layer ls = "technical").
Proof.
  unfold _get_primary_layer. destruct ls as [|l ls].
  - split_and!; [split; [done|]|split; [done|]|done]; by intros ?%elem_of_nil.
  - repeat case_bool_decide; split_and!; try split; try done.
Qed.

Lemma get_primary_layer_in ls :
  ls ≠ [] → (∀ y, y ∈ ls → y ∈ three) → _get_primary_layer ls ∈ ls.
Proof.
  intros Hne Hsub. unfold _get_primary_layer.
  destruct ls as [|l ls]; [done|].
  repeat case_bool_decide; try done.
  assert (l ∈ three) as Hl by (apply Hsub; set_solver).
  unfold three in Hl. set_solver.
Qed.

Lemma chosen_layers_nonempty t b c x : chosen_layers t b c x ≠ ∅.
Proof. unfold chosen_layers. case_bool_decide; set_solver. Qed.

Lemma chosen_layers_three t b c x : x ⊆ three → chosen_layers t b c x ⊆ three.
Proof.
  unfold chosen_layers, three. intros Hx.
  destruct t, b, c; try case_bool_decide; set_solver.
Qed.

Lemma sorted_of_set_nonempty (s : gset string) : s ≠ ∅ → sorted_of_set s ≠ [].
Proof.
  intros Hs Hnil. apply Hs. apply set_eq. intros x.
  rewrite <- elem_of_sorted_of_set, Hnil. set_solver.
Qed.


Lemma for_each_inv {A B} (f : A → result B) l l' :
  for_each f l = Ok l' → Forall2 (λ x y, f x = Ok y) l l'.
Proof.
  revert l'. induction l as [|x l IH]; intros l' H; simpl in H.
  - injection H as <-. constructor.
  - apply bind_Ok in H as (y & Hy & H).
    apply bind_Ok in H as (ys & Hys & H). injection H as <-.
    constructor; auto.
Qed.

Lemma for_each_intro {A B} (f : A → result B) l l' :
  Forall2 (λ x y, f x = Ok y) l l' → for_each f l = Ok l'.
Proof. induction 1 as [|x y l l' Hxy _ IH]; simpl; [done|]. by rewrite Hxy, IH. Qed.

Lemma for_each_ok {A B} (f : A → result B) l :
  (∀ x, x ∈ l → ∃ y, f x = Ok y) → ∃ l', for_each f l = Ok l'.
Proof.
  induction l as [|x l IH]; intros Hf; simpl; [eauto|].
  destruct (Hf x) as [y ->]; [set_solver|].
  destruct IH as [ys ->]; [intros z Hz; apply Hf; set_solver|].
  run. eauto.
Qed.

Lemma classify_entity_inv ty v v' :
  classify_entity ty v = Ok v' →
  ∃ e ls, v = VDict e ∧ _determine_layers e ty = Ok ls ∧
    v' = VDict (<["primary_layer" := VStr (_get_primary_layer ls)]>
                  (<["layers" := str_list ls]> e)).
Proof.
  unfold classify_entity. intros H.
  apply bind_Ok in H as (e & He & H). destruct v; try discriminate.
  injection He as ->.
  apply bind_Ok in H as (ls & Hls & H). injection H as <-. eauto.
Qed.

Lemma classify_entity_ok ty e :
  wf_entity e → ∃ v', classify_entity ty (VDict e) = Ok v'.
Proof.
  intros Hwf. unfold classify_entity. run.
  destruct (determine_layers_ok e ty Hwf) as [ls ->]. run. eauto.
Qed.

(** [_determine_layers] does not read the two fields that [classify] adds. *)
Lemma determine_layers_insert e ty k v :
  k = "layers" ∨ k = "primary_layer" →
  _determine_layers (<[k:=v]> e) ty = _determine_layers e ty.
Proof.
  intros Hk.
  unfold _determine_layers, text_content_of, lower_field, _is_technical_entity,
    _is_business_entity, _is_core_entity, relationships_count, add_len,
    by_entity_type, _classify_property, _classify_class, _classify_individual,
    get.
  destruct Hk as [-> | ->]; by rewrite !lookup_insert_ne by done.
Qed.

Lemma classify_entity_idem ty v v' :
  classify_entity ty v = Ok v' → classify_entity ty v' = Ok v'.
Proof.
  intros (e & ls & -> & Hls & ->)%classify_entity_inv.
  unfold classify_entity. run.
  rewrite !determine_layers_insert, Hls by auto. run.
  do 2 f_equal. apply map_eq. intros k.
  rewrite !lookup_insert. by repeat case_decide.
Qed.


Lemma classify_category_inv m cat ty cd cd' :
  classify_category m cat ty cd = Ok cd' →
  (∀ k, k ≠ cat → cd' !! k = cd !! k)
  ∧ (cd !! cat = m !! cat → classified_as m cat ty (cd' !! cat)).
Proof.
  unfold classify_category, classified_as.
  destruct (m !! cat) as [v|] eqn:Hm.
  - intros (es & Hes & [= <-])%bind_Ok. split.
    + intros k Hk. by rewrite lookup_insert_ne.
    + intros _. exists es. by rewrite lookup_insert_eq.
  - intros [= <-]. done.
Qed.

Lemma get_layer_statistics_ext a b :
  (∀ cat, cat ∈ categories → a !! cat = b !! cat) →
  _get_layer_statistics a = _get_layer_statistics b.
Proof.
  intros H. unfold _get_layer_statistics, count_category.
  by rewrite !H by in_keys.
Qed.

Lemma classify_error m : is_Some (m !! "error") → classify m = Ok m.
Proof. intros H. unfold classify. by rewrite bool_decide_eq_true_2. Qed.

Lemma classify_inv m out :
  m !! "error" = None → classify m = Ok out →
  classified_as m "classes" "class" (out !! "classes")
  ∧ classified_as m "properties" "property" (out !! "properties")
  ∧ classified_as m "individuals" "individual" (out !! "individuals")
  ∧ (∃ s, out !! "layer_statistics" = Some s ∧ _get_layer_statistics out = Ok s)
  ∧ (∀ k, k ∉ categories → k ≠ "layer_statistics" → out !! k = m !! k).
Proof.
  intros Herr. unfold classify.
  rewrite bool_decide_eq_false_2 by (rewrite Herr; by intros [? ?]).
  intros (c1 & [H1 H1c]%classify_category_inv & H)%bind_Ok.
  apply bind_Ok in H as (c2 & [H2 H2c]%classify_category_inv & H).
  apply bind_Ok in H as (c3 & [H3 H3c]%classify_category_inv & H).
  apply bind_Ok in H as (s & Hs & [= <-]).
  split_and!.
  - rewrite lookup_insert_ne, H3, H2 by done. by apply H1c.
  - rewrite lookup_insert_ne, H3 by done. apply H2c. by apply H1.
  - rewrite lookup_insert_ne by done. apply H3c.
    by rewrite H2, H1.
  - exists s. rewrite lookup_insert_eq. split; [done|]. rewrite <- Hs.
    apply get_layer_statistics_ext. intros cat Hcat.
    rewrite lookup_insert_ne; [done|]. intros <-. revert Hcat. in_keys.
  - intros k Hk Hls. rewrite lookup_insert_ne by done.
    rewrite H3, H2, H1; [done|..]; intros ->; apply Hk; in_keys.
Qed.

Lemma classify_entities_idem v ty es :
  _classify_entities v ty = Ok es → _classify_entities (VList es) ty = Ok es.
Proof.
  unfold _classify_entities. intros (l & _ & H)%bind_Ok. run.
  apply for_each_inv in H. apply for_each_intro.
  induction H; constructor; eauto using classify_entity_idem.
Qed.

Lemma classify_category_fix out cat ty :
  (∃ m, classified_as m cat ty (out !! cat)) →
  classify_category out cat ty out = Ok out.
Proof.
  intros [m H]. unfold classify_category, classified_as in *.
  destruct (m !! cat) as [v|].
  - destruct H as (es & Hes & Hout). rewrite Hout.
    rewrite (classify_entities_idem _ _ _ Hes). run.
    f_equal. by apply insert_id.
  - by rewrite H.
Qed.

Lemma classify_idem m out : classify m = Ok out → classify out = Ok out.
Proof.
  destruct (m !! "error") as [msg|] eqn:Herr.
  { rewrite classify_error by eauto. intros [= <-].
    apply classify_error. eauto. }
  intros H. destruct (classify_inv m out Herr H) as (Hc & Hp & Hi & (s & Hs & Hst) & Hk).
  unfold classify.
  rewrite bool_decide_eq_false_2; last first.
  { rewrite Hk, Herr; [by intros [? ?]| |done]. in_keys. }
  do 3 (rewrite classify_category_fix by eauto; run).
  rewrite Hst. run. f_equal. by apply insert_id.
Qed.


Lemma classify_entity_tagged ty v v' : classify_entity ty v = Ok v' → tagged v'.
Proof.
  intros (e & ls & -> & Hls & ->)%classify_entity_inv.
  eexists _, ls, _. split; [done|].
  by rewrite lookup_insert_ne, !lookup_insert_eq.
Qed.

Lemma classify_entities_tagged v ty es :
  _classify_entities v ty = Ok es → Forall tagged es.
Proof.
  unfold _classify_entities. intros (l & _ & H)%bind_Ok.
  apply for_each_inv in H.
  induction H; constructor; eauto using classify_entity_tagged.
Qed.

Lemma count_entity_ok cat stats v :
  tagged v → ∃ stats', count_entity cat stats v = Ok stats'.
Proof.
  intros (e & ls & p & -> & Hls & Hp). unfold count_entity, get. run.
  rewrite Hls, Hp. cbn [default from_option id in_str_set]. run.
  case_match; run; case_match; eauto.
Qed.

Lemma count_entities_ok cat stats es :
  Forall tagged es → ∃ stats', count_entities cat stats es = Ok stats'.
Proof.
  intros H. revert stats. induction H as [|v es Hv _ IH]; intros stats; simpl.
  - eauto.
  - destruct (count_entity_ok cat stats v Hv) as [s' ->]. run. apply IH.
Qed.

(** A category of a classified model: absent, or a list of tagged entities. *)
Lemma count_category_ok cd stats cat :
  (cd !! cat = None ∨ ∃ es, cd !! cat = Some (VList es) ∧ Forall tagged es) →
  ∃ stats', count_category cd stats cat = Ok stats'.
Proof.
  unfold count_category. intros [->|(es & -> & Hes)]; [eauto|]. run.
  by apply count_entities_ok.
Qed.

Lemma get_layer_statistics_ok cd :
  (∀ cat, cat ∈ categories →
     cd !! cat = None ∨ ∃ es, cd !! cat = Some (VList es) ∧ Forall tagged es) →
  ∃ s, _get_layer_statistics cd = Ok s.
Proof.
  intros H. unfold _get_layer_statistics.
  destruct (count_category_ok cd stats_init "classes") as [s1 ->];
    [apply H; in_keys|]. run.
  destruct (count_category_ok cd s1 "properties") as [s2 ->];
    [apply H; in_keys|]. run.
  destruct (count_category_ok cd s2 "individuals") as [s3 ->];
    [apply H; in_keys|]. run.
  eauto.
Qed.

Lemma wf_model_error m : wf_model m → m !! "error" = None.
Proof.
  intros [H _]%andb_true_iff. apply negb_true_iff, bool_decide_eq_false in H.
  destruct (m !! "error"); [|done]. destruct H. eauto.
Qed.

Lemma wf_model_category m cat :
  wf_model m → cat ∈ categories →
  m !! cat = None ∨
  ∃ es, m !! cat = Some (VList (VDict <$> es)) ∧ Forall wf_entity es.
Proof.
  intros [_ H]%andb_true_iff Hcat. rewrite forallb_forall in H.
  apply list_elem_of_In, H in Hcat. unfold field_ok in Hcat.
  destruct (m !! cat) as [v|]; [right|by left].
  destruct v as [| | | | |l|]; try discriminate. simpl in Hcat.
  enough (∃ es, l = VDict <$> es ∧ Forall wf_entity es) as (es & -> & ?) by eauto.
  induction l as [|x l IH]; [by exists []|].
  simpl in Hcat. apply andb_true_iff in Hcat as [Hx Hl].
  destruct x; try discriminate. destruct (IH Hl) as (es & -> & Hes).
  eexists (_ :: es). split; [done|]. by constructor.
Qed.

Lemma classify_entities_ok es ty :
  Forall wf_entity es →
  ∃ es', _classify_entities (VList (VDict <$> es)) ty = Ok es'.
Proof.
  intros H. unfold _classify_entities. run. apply for_each_ok.
  intros x (e & -> & He)%list_elem_of_fmap.
  apply classify_entity_ok. by eapply Forall_forall in H.
Qed.

Lemma classify_category_ok m cat ty cd :
  wf_model m → cat ∈ categories → ∃ cd', classify_category m cat ty cd = Ok cd'.
Proof.
  intros Hwf Hcat. unfold classify_category.
  destruct (wf_model_category m cat Hwf Hcat) as [->|(es & -> & Hes)]; [eauto|].
  destruct (classify_entities_ok es ty Hes) as [es' ->]. run. eauto.
Qed.

Lemma classified_as_tagged m cat ty o :
  classified_as m cat ty o →
  o = None ∨ ∃ es, o = Some (VList es) ∧ Forall tagged es.
Proof.
  unfold classified_as. destruct (m !! cat); [|by left].
  intros (es & Hes & ->). right. eauto using classify_entities_tagged.
Qed.

Lemma classify_ok m : wf_model m → ∃ out, classify m = Ok out.
Proof.
  intros Hwf. unfold classify.
  rewrite bool_decide_eq_false_2
    by (rewrite (wf_model_error m Hwf); by intros [? ?]).
  destruct (classify_category_ok m "classes" "class" m Hwf) as [c1 H1];
    [in_keys|]. rewrite H1. run.
  destruct (classify_category_ok m "properties" "property" c1 Hwf) as [c2 H2];
    [in_keys|]. rewrite H2. run.
  destruct (classify_category_ok m "individuals" "individual" c2 Hwf) as [c3 H3];
    [in_keys|]. rewrite H3. run.
  apply classify_category_inv in H1 as [H1 H1c], H2 as [H2 H2c], H3 as [H3 H3c].
  destruct (get_layer_statistics_ok c3) as [s ->]; [|run; eauto].
  intros cat Hcat. apply (classified_as_tagged m cat
    (if decide (cat = "classes") then "class"
     else if decide (cat = "properties") then "property" else "individual")).
  assert (cat = "classes" ∨ cat = "properties" ∨ cat = "individuals")
    as [->|[->| ->]] by (revert Hcat; in_keys); simpl.
  - rewrite H3, H2 by done. by apply H1c.
  - rewrite H3 by done. apply H2c. by apply H1.
  - apply H3c. by rewrite H2, H1.
Qed.


Lemma result_inj {A} (a b : A) (r : result A) : r = Ok a → r = Ok b → a = b.
Proof. congruence. Qed.

Lemma classify_entity_assigned ty e v' :
  wf_entity e → classify_entity ty (VDict e) = Ok v' → assigned ty (VDict e) v'.
Proof.
  intros Hwf (e0 & ls & [= <-] & Hls & ->)%classify_entity_inv.
  destruct (determine_layers_inv _ _ _ Hls) as (txt & t & b & c & x & Htxt & Ht & Hb & Hc & Hx & ->).
  destruct (by_entity_type_ok e ty Hwf) as (x' & Hx' & Hsub).
  assert (x' = x) as -> by eauto using result_inj.
  assert (∀ y, y ∈ sorted_of_set (chosen_layers t b c x) → y ∈ three) as Hthree.
  { intros y Hy%elem_of_sorted_of_set. by apply (chosen_layers_three t b c x). }
  eexists e, _, _, _. split_and!; try done.
  - by rewrite lookup_insert_ne, lookup_insert_eq.
  - by rewrite lookup_insert_eq.
  - apply sorted_of_set_nonempty, chosen_layers_nonempty.
  - apply get_primary_layer_in; [|done].
    apply sorted_of_set_nonempty, chosen_layers_nonempty.
  - intros (txt' & Htxt' & Ht' & Hb' & Hc' & Hx'').
    assert (txt' = txt) as -> by eauto using result_inj.
    assert (t = false) as -> by eauto using result_inj.
    assert (b = false) as -> by eauto using result_inj.
    assert (c = false) as -> by eauto using result_inj.
    assert (x = ∅) as -> by eauto using result_inj.
    by vm_compute.
Qed.

Lemma classify_entities_assigned ty es es' :
  Forall wf_entity es →
  for_each (classify_entity ty) (VDict <$> es) = Ok es' →
  Forall2 (assigned ty) (VDict <$> es) es'.
Proof.
  intros Hwf H%for_each_inv. revert es' H.
  induction Hwf as [|e es He _ IH]; intros es' H; inversion H; subst; simpl.
  - constructor.
  - constructor; [by apply classify_entity_assigned|by apply IH].
Qed.

Lemma classified_as_category m out c :
  m !! "error" = None → classify m = Ok out →
  classified_as m (key_of c) (entity_type_of c) (out !! key_of c).
Proof.
  intros Herr H. destruct (classify_inv m out Herr H) as (Hc & Hp & Hi & _).
  by destruct c.
Qed.

Lemma key_of_category c : key_of c ∈ categories.
Proof. destruct c; simpl; in_keys. Qed.

Lemma add_len_wf e k c :
  wf_entity e → k ∈ list_keys →
  add_len e k c = Ok (c + match e !! k with Some (VList l) => length l | _ => 0 end).
Proof.
  intros Hwf Hk. unfold add_len.
  destruct (wf_list e k Hwf Hk) as [->|[l ->]]; run; f_equal; lia.
Qed.

Lemma relationships_count_wf e :
  wf_entity e → relationships_count e = Ok (reference_count e).
Proof.
  intros Hwf. unfold relationships_count.
  rewrite add_len_wf by (done || in_keys). run.
  rewrite add_len_wf by (done || in_keys). run.
  rewrite add_len_wf by (done || in_keys). run.
  rewrite add_len_wf by (done || in_keys).
  f_equal. unfold reference_count, list_keys. simpl. lia.
Qed.

Lemma dense_is_core e txt :
  wf_entity e → 3 ≤ reference_count e → _is_core_entity e txt = Ok true.
Proof.
  intros Hwf Hn. unfold _is_core_entity. case_match; [done|].
  rewrite relationships_count_wf by done. run.
  by rewrite (proj2 (Nat.leb_le _ _) Hn).
Qed.


Lemma classify_entity_same_fields ty v v' :
  classify_entity ty v = Ok v' → same_fields v v'.
Proof.
  intros (e & ls & -> & _ & ->)%classify_entity_inv.
  eexists e, _. split_and!; [done..|].
  intros k Hl Hp. by rewrite !lookup_insert_ne.
Qed.

Lemma classify_entities_same_fields v ty es es' :
  v = VList es → _classify_entities v ty = Ok es' → Forall2 same_fields es es'.
Proof.
  intros ->. unfold _classify_entities. run. intros H%for_each_inv.
  induction H; constructor; eauto using classify_entity_same_fields.
Qed.


End ClassifierFacts.

(** ** Facts about the two enhancers *)

Module EnhancerFacts.
Import Py LayerClassifier WellFormed Spec ClassifierFacts.

Ltac inv_binds H :=
  repeat (let x := fresh "x" in let Hx := fresh "Hx" in
          apply bind_Ok in H as (x & Hx & H)).

Lemma omap_VStr (ls : list string) :
  omap (λ x, match x with VStr s => Some s | _ => None end) (VStr <$> ls) = ls.
Proof. induction ls as [|s ls IH]; [done|]. cbn. f_equal. exact IH. Qed.

Lemma str_set_str_list ls : str_set (str_list ls) = Ok (list_to_set ls).
Proof.
  unfold str_set, str_list. run.
  assert (forallb hashable (VStr <$> ls) = true) as ->
    by (induction ls; simpl; auto).
  assert (forallb is_strb (VStr <$> ls) = true) as ->
    by (induction ls; simpl; auto).
  cbn [negb]. do 2 f_equal. apply omap_VStr.
Qed.

(** The priority law for a primary layer computed from the set whose
    sorted list is stored. *)
Lemma primary_of_set_law (s : gset string) :
  let p := ISO17025._get_iso17025_primary_layer s in
  let ls := sorted_of_set s in
  (p = "business" ↔ "business" ∈ ls)
  ∧ ("business" ∉ ls → (p = "core" ↔ "core" ∈ ls))
  ∧ ("business" ∉ ls → "core" ∉ ls → p = "technical").
Proof.
  simpl. rewrite !elem_of_sorted_of_set.
  unfold ISO17025._get_iso17025_primary_layer.
  repeat case_bool_decide; split_and!; try split; try done.
Qed.

Lemma merged_priority_law e v' :
  merged ISO17025._get_iso17025_primary_layer e v' → priority_law v'.
Proof.
  intros (e' & existing & extra & -> & _ & Hl & Hp).
  eexists e', _, _. split_and!; [done..| | |];
    apply (primary_of_set_law (existing ∪ extra)).
Qed.

Lemma merged_layers_kept p e v' ls :
  e !! "layers" = Some (str_list ls) → merged p e v' →
  layers_kept (VDict e) v'.
Proof.
  intros He (e' & existing & extra & -> & Hex & Hl & _).
  unfold get in Hex. rewrite He in Hex. simpl in Hex.
  change (VList (VStr <$> ls)) with (str_list ls) in Hex.
  rewrite str_set_str_list in Hex. injection Hex as <-.
  eexists e, e', ls, _. split_and!; [done..|].
  intros y Hy. apply elem_of_sorted_of_set. set_solver.
Qed.

Ltac solve_merged H :=
  inv_binds H; injection H as <-;
  match goal with Hd : as_dict _ = Ok _ |- _ => injection Hd as <- end;
  eexists _, _, _; split_and!;
  [ reflexivity
  | match goal with Hs : str_set _ = Ok _ |- _ => exact Hs end
  | rewrite ?lookup_insert_ne by done; rewrite lookup_insert_eq; reflexivity
  | rewrite ?lookup_insert_ne by done; rewrite lookup_insert_eq; reflexivity ].

Lemma iso_class_merged e v' :
  ISO17025.enhance_class (VDict e) = Ok v' →
  merged ISO17025._get_iso17025_primary_layer e v'.
Proof. unfold ISO17025.enhance_class. intros H. solve_merged H. Qed.

Lemma iso_property_merged e v' :
  ISO17025.enhance_property (VDict e) = Ok v' →
  merged ISO17025._get_iso17025_primary_layer e v'.
Proof. unfold ISO17025.enhance_property. intros H. solve_merged H. Qed.

Lemma iso_individual_merged e v' :
  ISO17025.enhance_individual (VDict e) = Ok v' →
  merged ISO17025._get_iso17025_primary_layer e v'.
Proof. unfold ISO17025.enhance_individual. intros H. solve_merged H. Qed.

Lemma cobit_class_merged e v' :
  COBIT5.enhance_class (VDict e) = Ok v' →
  merged ISO17025._get_iso17025_primary_layer e v'.
Proof. unfold COBIT5.enhance_class. intros H. solve_merged H. Qed.

Lemma cobit_property_merged e v' :
  COBIT5.enhance_property (VDict e) = Ok v' →
  merged ISO17025._get_iso17025_primary_layer e v'.
Proof. unfold COBIT5.enhance_property. intros H. solve_merged H. Qed.

Lemma cobit_individual_merged e v' :
  COBIT5.enhance_individual (VDict e) = Ok v' →
  merged ISO17025._get_iso17025_primary_layer e v'.
Proof. unfold COBIT5.enhance_individual. intros H. solve_merged H. Qed.

Lemma enhance_entity_dict f c v v' :
  enhance_entity f c v = Ok v' → ∃ e, v = VDict e.
Proof.
  destruct f, c; simpl;
    unfold ISO17025.enhance_class, ISO17025.enhance_property,
      ISO17025.enhance_individual, COBIT5.enhance_class,
      COBIT5.enhance_property, COBIT5.enhance_individual;
    intros (e & He & _)%bind_Ok; destruct v; try discriminate; eauto.
Qed.

Lemma enhance_entity_merged f c e v' :
  enhance_entity f c (VDict e) = Ok v' →
  merged ISO17025._get_iso17025_primary_layer e v'.
Proof.
  destruct f, c; simpl;
    eauto using iso_class_merged, iso_property_merged, iso_individual_merged,
      cobit_class_merged, cobit_property_merged, cobit_individual_merged.
Qed.

Lemma refs_name_business_ok l :
  ∃ b, COBIT5.refs_name_business (VStr <$> l) = Ok b.
Proof.
  induction l as [|s l IH]; cbn; [eauto|]. case_match; eauto.
Qed.

Lemma has_business_domain_range_ok d r :
  ∃ b, COBIT5._has_business_domain_range (str_list d) (str_list r) = Ok b.
Proof.
  unfold COBIT5._has_business_domain_range, str_list. run.
  rewrite <- fmap_app. apply refs_name_business_ok.
Qed.

Lemma get_layers e ls :
  e !! "layers" = Some (str_list ls) → get e "layers" (VList []) = str_list ls.
Proof. intros H. unfold get. by rewrite H. Qed.

(** Runs an enhancer body whose field reads have been resolved. *)
Ltac finish :=
  repeat (cbn [mbind result_bind mret result_ret fmap result_fmap
               as_str as_dict in_str_set]; try case_match);
  eauto.

Lemma iso_class_ok e ls :
  wf_entity e → e !! "layers" = Some (str_list ls) →
  ∃ v', ISO17025.enhance_class (VDict e) = Ok v'.
Proof.
  intros Hwf Hl. unfold ISO17025.enhance_class. run.
  destruct (wf_text e "local_name" Hwf) as [s ->]; [in_keys|].
  rewrite (get_layers e ls Hl), str_set_str_list.
  unfold ISO17025._classify_iso17025_entity, ISO17025._get_iso17025_clause,
    ISO17025._get_laboratory_relevance.
  finish.
Qed.

Lemma iso_property_ok e ls :
  wf_entity e → e !! "layers" = Some (str_list ls) →
  ∃ v', ISO17025.enhance_property (VDict e) = Ok v'.
Proof.
  intros Hwf Hl.
  unfold ISO17025.enhance_property, ISO17025._is_measurement_property,
    ISO17025._assess_measurement_relevance. run.
  destruct (wf_text e "local_name" Hwf) as [s ->]; [in_keys|].
  rewrite (get_layers e ls Hl), str_set_str_list.
  unfold ISO17025._classify_iso17025_entity.
  finish.
Qed.

Lemma iso_individual_ok e ls :
  wf_entity e → e !! "layers" = Some (str_list ls) →
  ∃ v', ISO17025.enhance_individual (VDict e) = Ok v'.
Proof.
  intros Hwf Hl.
  unfold ISO17025.enhance_individual, ISO17025._get_laboratory_function. run.
  destruct (wf_text e "local_name" Hwf) as [s ->]; [in_keys|].
  destruct (wf_text e "type_local_name" Hwf) as [t ->]; [in_keys|].
  rewrite (get_layers e ls Hl), str_set_str_list.
  unfold ISO17025._classify_iso17025_entity.
  finish.
Qed.

Lemma cobit_class_ok e ls :
  wf_entity e → e !! "layers" = Some (str_list ls) →
  ∃ v', COBIT5.enhance_class (VDict e) = Ok v'.
Proof.
  intros Hwf Hl. unfold COBIT5.enhance_class. run.
  destruct (wf_text e "local_name" Hwf) as [s ->]; [in_keys|].
  rewrite (get_layers e ls Hl), str_set_str_list.
  unfold COBIT5._classify_cobit5_entity, COBIT5._get_cobit5_domain,
    COBIT5._get_business_relevance.
  finish.
Qed.

Lemma cobit_property_ok e ls :
  wf_entity e → e !! "layers" = Some (str_list ls) →
  ∃ v', COBIT5.enhance_property (VDict e) = Ok v'.
Proof.
  intros Hwf Hl.
  unfold COBIT5.enhance_property, COBIT5._assess_governance_relevance. run.
  destruct (wf_text e "local_name" Hwf) as [s ->]; [in_keys|].
  destruct (get_list e "domain" Hwf) as [d ->]; [in_keys|].
  destruct (get_list e "range" Hwf) as [r ->]; [in_keys|].
  destruct (has_business_domain_range_ok d r) as [b ->].
  rewrite (get_layers e ls Hl), str_set_str_list.
  unfold COBIT5._classify_cobit5_entity.
  finish.
Qed.

Lemma cobit_individual_ok e ls :
  wf_entity e → e !! "layers" = Some (str_list ls) →
  ∃ v', COBIT5.enhance_individual (VDict e) = Ok v'.
Proof.
  intros Hwf Hl.
  unfold COBIT5.enhance_individual, COBIT5._extract_process_code. run.
  destruct (wf_text e "local_name" Hwf) as [s ->]; [in_keys|].
  destruct (wf_text e "type_local_name" Hwf) as [t ->]; [in_keys|].
  rewrite (get_layers e ls Hl), str_set_str_list.
  unfold COBIT5._classify_cobit5_entity.
  finish.
Qed.

Lemma enhance_entity_ok f c e ls :
  wf_entity e → e !! "layers" = Some (str_list ls) →
  ∃ v', enhance_entity f c (VDict e) = Ok v'.
Proof.
  destruct f, c; simpl;
    eauto using iso_class_ok, iso_property_ok, iso_individual_ok,
      cobit_class_ok, cobit_property_ok, cobit_individual_ok.
Qed.

Lemma enhance_entities_unfold f c es :
  enhance_entities f c (VList es) = for_each (enhance_entity f c) es.
Proof. by destruct f, c. Qed.


End EnhancerFacts.
(** ** Facts about the parser helpers *)

Module ParserFacts.
Import Py LayerClassifier WellFormed Spec TTLParser ClassifierFacts.

Lemma split_cons c s : ∃ w ws, split c s = w :: ws.
Proof.
  destruct s as [|a s]; simpl; [eauto|].
  destruct (Ascii.eqb a c); [eauto|]. destruct (split c s); eauto.
Qed.

Lemma split_without c s : has_char c s = false → split c s = [s].
Proof.
  induction s as [|a s IH]; simpl; [done|].
  intros [Ha Hs]%orb_false_iff. rewrite Ha, (IH Hs). done.
Qed.

Lemma split_with c s :
  has_char c s = true → ∃ w w' ws, split c s = w :: w' :: ws.
Proof.
  induction s as [|a s IH]; simpl; [done|].
  destruct (Ascii.eqb a c) eqn:Ha; simpl.
  - intros _. destruct (split_cons c s) as (w & ws & ->). eauto.
  - intros (w & w' & ws & ->)%IH. eauto.
Qed.

(** The last field of a split, one character at a time. *)
Lemma last_split_cons c a s :
  List.last (split c (String a s)) "" =
    if has_char c s then List.last (split c s) ""
    else if Ascii.eqb a c then s else String a s.
Proof.
  cbn [split]. destruct (has_char c s) eqn:Hs.
  - destruct (split_with c s Hs) as (w & w' & ws & ->).
    by destruct (Ascii.eqb a c).
  - rewrite (split_without c s Hs). by destruct (Ascii.eqb a c).
Qed.

Lemma has_char_app c s1 s2 :
  has_char c (s1 +:+ s2) = has_char c s1 || has_char c s2.
Proof.
  induction s1 as [|a s1 IH]; simpl; [done|].
  by rewrite IH, orb_assoc.
Qed.

(** The last field of a split is the text after the last separator. *)
Lemma last_split_after c pre r :
  has_char c r = false → List.last (split c (pre +:+ String c r)) "" = r.
Proof.
  intros Hr. induction pre as [|a pre IH].
  - change ("" +:+ String c r) with (String c r).
    by rewrite last_split_cons, Hr, Ascii.eqb_refl.
  - change (String a pre +:+ String c r) with (String a (pre +:+ String c r)).
    rewrite last_split_cons, has_char_app. simpl.
    by rewrite Ascii.eqb_refl, orb_true_r.
Qed.

Lemma startswith_drop s p :
  startswith s p = true → s = p +:+ drop_str (String.length p) s.
Proof.
  unfold startswith. revert s. induction p as [|a p IH]; intros s; simpl.
  - by destruct s.
  - destruct s as [|b s]; [done|]. simpl.
    destruct (Ascii.ascii_dec a b) as [->|]; [|done].
    intros H. change (String b s = String b (p +:+ drop_str (String.length p) s)).
    f_equal. by apply IH.
Qed.

Lemma matching_namespace_first ns uri before prefix namespace_uri after :
  ns = (before ++ (prefix, namespace_uri) :: after)%list →
  Forall (λ item, startswith uri item.2 = false) before →
  startswith uri namespace_uri = true →
  matching_namespace ns uri =
    Some (if String.eqb prefix "" then drop_str (String.length namespace_uri) uri
          else prefix +:+ ":" +:+ drop_str (String.length namespace_uri) uri).
Proof.
  intros -> Hbefore Hhit.
  induction Hbefore as [|[p n] before Hn _ IH]; simpl.
  - by rewrite Hhit.
  - simpl in Hn. by rewrite Hn.
Qed.

Lemma matching_namespace_none ns uri :
  Forall (λ item, startswith uri item.2 = false) ns →
  matching_namespace ns uri = None.
Proof.
  induction 1 as [|[p n] ns Hn _ IH]; simpl; [done|].
  simpl in Hn. by rewrite Hn.
Qed.

(** Either an entry of the table was used, and its namespace followed by
    the local part is the URI, or no namespace is a prefix of the URI. *)
Lemma matching_namespace_cases ns uri :
  (∃ prefix namespace_uri local_part,
      (prefix, namespace_uri) ∈ ns
      ∧ uri = namespace_uri +:+ local_part
      ∧ matching_namespace ns uri =
          Some (if String.eqb prefix "" then local_part
                else prefix +:+ ":" +:+ local_part))
  ∨ (Forall (λ item, startswith uri item.2 = false) ns
     ∧ matching_namespace ns uri = None).
Proof.
  induction ns as [|[p n] ns IH]; simpl.
  - right. by split.
  - destruct (startswith uri n) eqn:Hn.
    + left. exists p, n, (drop_str (String.length n) uri).
      split_and!; [set_solver|by apply startswith_drop|done].
    + destruct IH as [(p' & n' & l & Hin & Huri & Hm)|[Hall Hm]].
      * left. exists p', n', l. split_and!; [set_solver|done..].
      * right. split; [by constructor|done].
Qed.

Lemma is_str_listb_str_list l : is_str_listb (str_list l) = true.
Proof. unfold str_list. simpl. induction l; simpl; auto. Qed.

Lemma field_ok_some p (d : gmap string value) k v :
  d !! k = Some v → p v = true → field_ok p d k = true.
Proof. unfold field_ok. by intros ->. Qed.

(** The records of the parser are well formed. *)
Lemma build_property_data_wf g ns prop_uri prop_type :
  wf_entity (_build_property_data g ns prop_uri prop_type).
Proof.
  unfold wf_entity, wf_entityb, text_keys, list_keys. cbn [forallb].
  repeat (apply andb_true_intro; split); try reflexivity;
    (eapply field_ok_some; [reflexivity|apply is_str_listb_str_list]).
Qed.

Lemma class_data_wf g ns s : wf_entity (class_data g ns s).
Proof.
  unfold wf_entity, wf_entityb, text_keys, list_keys. cbn [forallb].
  repeat (apply andb_true_intro; split); try reflexivity;
    (eapply field_ok_some; [reflexivity|apply is_str_listb_str_list]).
Qed.

Lemma elem_of_extract_properties g ns e :
  e ∈ _extract_properties g ns →
  ∃ prop_uri kind,
    kind ∈ ["ObjectProperty"; "DatatypeProperty"; "AnnotationProperty"]
    ∧ (prop_uri, rdf "type", owl kind) ∈ g
    ∧ e = _build_property_data g ns prop_uri kind.
Proof.
  unfold _extract_properties, properties_of_kind, triples.
  rewrite !elem_of_app, !list_elem_of_fmap.
  intros [H|[H|H]]; destruct H as ([[s p] o] & -> & Ht);
    apply list_elem_of_In, filter_In in Ht as [Hin Hfit];
    apply list_elem_of_In in Hin;
    simpl in Hfit; apply andb_true_iff in Hfit as [Hp Ho];
    apply bool_decide_eq_true in Hp, Ho; subst;
    eexists s, _; (split_and!; [|done..]); set_solver.
Qed.

(** The test on the declared kind: a kind that contains [Property]. *)
Lemma technical_by_kind e txt kind :
  wf_entity e → e !! "type" = Some (VStr kind) →
  contains "Property" kind = true →
  _is_technical_entity e txt = Ok true.
Proof.
  intros Hwf Hty Hk. unfold _is_technical_entity.
  case_match; [done|].
  destruct (wf_text e "local_name" Hwf) as [s ->]; [in_keys|]. run.
  case_match; [done|].
  assert (get e "type" (VStr "") = VStr kind) as -> by (unfold get; by rewrite Hty).
  run. by rewrite Hk.
Qed.

Lemma determine_layers_technical e ty txt :
  wf_entity e → text_content_of e = Ok txt →
  _is_technical_entity e txt = Ok true →
  ∃ ls, _determine_layers e ty = Ok ls ∧ "technical" ∈ ls.
Proof.
  intros Hwf Htxt Ht. destruct (determine_layers_ok e ty Hwf) as [ls Hls].
  exists ls. split; [done|].
  destruct (determine_layers_inv _ _ _ Hls)
    as (txt' & t & b & c & x & Htxt' & Ht' & _ & _ & _ & ->).
  assert (txt' = txt) as -> by eauto using result_inj.
  assert (t = true) as -> by eauto using result_inj.
  apply elem_of_sorted_of_set, elem_of_chosen_layers. auto.
Qed.

(** The rule for root classes. *)
Lemma root_class_core e :
  wf_entity e → truthy (get e "subclass_of" (VList [])) = false →
  ∃ x, _classify_class e = Ok x ∧ "core" ∈ x.
Proof.
  intros Hwf Hroot. unfold _classify_class.
  destruct (get_list e "superclass_of" Hwf) as [l ->]; [in_keys|]. run.
  rewrite Hroot. simpl. eexists. split; [done|].
  case_match; set_solver.
Qed.

Lemma elem_of_triples g s p o t :
  t ∈ triples g s p o ↔
    t ∈ g ∧ fits s t.1.1 = true ∧ fits p t.1.2 = true ∧ fits o t.2 = true.
Proof.
  unfold triples. rewrite list_elem_of_In, filter_In, <- list_elem_of_In.
  rewrite !andb_true_iff. tauto.
Qed.

Lemma triples_nil g s p o :
  (∀ t, t ∈ g → fits s t.1.1 && fits p t.1.2 && fits o t.2 = false) →
  triples g s p o = [].
Proof.
  intros H. unfold triples. induction g as [|t g IH]; simpl; [done|].
  rewrite (H t) by set_solver. apply IH. intros t' Ht'. apply H. set_solver.
Qed.

Lemma fits_Some u t : fits (Some u) t = true ↔ t = u.
Proof. simpl. apply bool_decide_eq_true. Qed.

Lemma literal_value_absent g s p d :
  (∀ o, (s, p, o) ∉ g) → _get_literal_value g s p d = d.
Proof.
  intros H. unfold _get_literal_value. rewrite triples_nil; [done|].
  intros [[s' p'] o'] Ht. simpl.
  destruct (bool_decide (s' = s)) eqn:Hs; [|done].
  destruct (bool_decide (p' = p)) eqn:Hp; [|done].
  apply bool_decide_eq_true in Hs, Hp. subst. by destruct (H o').
Qed.

Lemma literal_value_present g s p d o :
  (s, p, o) ∈ g →
  ∃ o', (s, p, o') ∈ g ∧ _get_literal_value g s p d = str o'.
Proof.
  intros Hin. unfold _get_literal_value.
  destruct (triples g (Some s) (Some p) None) as [|[[s' p'] o'] ts] eqn:Hts.
  - assert ((s, p, o) ∈ triples g (Some s) (Some p) None) as Ht.
    { apply elem_of_triples. split_and!; [done|by apply fits_Some..|done]. }
    rewrite Hts in Ht. by apply elem_of_nil in Ht.
  - assert ((s', p', o') ∈ triples g (Some s) (Some p) None) as Ht
      by (rewrite Hts; set_solver).
    apply elem_of_triples in Ht as (Hg & Hs%fits_Some & Hp%fits_Some & _).
    simpl in *. subst. eauto.
Qed.

Lemma objects_nil g s p :
  (∀ o, (s, p, o) ∉ g) → objects (triples g (Some s) (Some p) None) = VList [].
Proof.
  intros H. rewrite triples_nil; [done|].
  intros [[s' p'] o'] Ht. simpl.
  destruct (bool_decide (s' = s)) eqn:Hs; [|done].
  destruct (bool_decide (p' = p)) eqn:Hp; [|done].
  apply bool_decide_eq_true in Hs, Hp. subst. by destruct (H o').
Qed.

Lemma elem_of_extract_classes g ns s :
  (s, rdf "type", owl "Class") ∈ g → class_data g ns s ∈ _extract_classes g ns.
Proof.
  intros Hin. unfold _extract_classes. apply list_elem_of_fmap.
  exists (s, rdf "type", owl "Class"). split; [done|].
  apply elem_of_triples. split_and!; [done|done|by apply fits_Some..].
Qed.

Lemma determine_layers_extra e ty x y :
  wf_entity e → by_entity_type e ty = Ok x → y ∈ x →
  ∃ ls, _determine_layers e ty = Ok ls ∧ y ∈ ls.
Proof.
  intros Hwf Hx Hy. destruct (determine_layers_ok e ty Hwf) as [ls Hls].
  exists ls. split; [done|].
  destruct (determine_layers_inv _ _ _ Hls)
    as (txt & t & b & c & x' & _ & _ & _ & _ & Hx' & ->).
  assert (x' = x) as -> by eauto using result_inj.
  apply elem_of_sorted_of_set, elem_of_chosen_layers. auto.
Qed.

Lemma extract_properties_intro g ns s kind :
  kind ∈ ["ObjectProperty"; "DatatypeProperty"; "AnnotationProperty"] →
  (s, rdf "type", owl kind) ∈ g →
  _build_property_data g ns s kind ∈ _extract_properties g ns.
Proof.
  intros Hkind Hin.
  assert (_build_property_data g ns s kind ∈ properties_of_kind g ns kind) as H.
  { unfold properties_of_kind. apply list_elem_of_fmap.
    exists (s, rdf "type", owl kind). split; [done|].
    apply elem_of_triples. split_and!; [done|done|by apply fits_Some..]. }
  unfold _extract_properties. rewrite !elem_of_app.
  set_unfold in Hkind. destruct Hkind as [->|[->|[->|[]]]]; auto.
Qed.

End ParserFacts.

(** ** Facts about the layer statistics *)

Module StatisticsFacts.
Import Py LayerClassifier WellFormed Spec ClassifierFacts.

Lemma cell_bump stats r c row col :
  cell (bump r c stats) row col =
    if decide (r = row ∧ c = col) then Z.succ <$> cell stats row col
    else cell stats row col.
Proof.
  unfold cell, bump. rewrite lookup_alter.
  destruct (decide (r = row)) as [->|Hr].
  - destruct (stats !! row) as [m|]; simpl; [|by case_decide].
    rewrite lookup_alter. repeat case_decide; naive_solver.
  - case_decide; naive_solver.
Qed.

Lemma count_cons p v es :
  count p (v :: es) = ((if p v then 1 else 0) + count p es)%Z.
Proof. unfold count. simpl. destruct (p v); simpl; lia. Qed.

Lemma fmap_cell_id (o : option Z) (f : Z → Z) :
  (∀ z, f z = z) → o = f <$> o.
Proof. intros Hf. destruct o; simpl; [by rewrite Hf|done]. Qed.

(** The step of [count_entity] that counts by primary layer. *)
Lemma primary_step cat stats primary known stats1 row col :
  in_str_set primary rows = Ok known →
  (if (known : bool) then
     match primary with
     | VStr p => Ok (bump p cat stats)
     | _ => Ok stats
     end
   else Ok stats) = Ok stats1 →
  cell stats1 row col =
    (λ z, if decide (col = cat)
          then z + (if str_is row primary && bool_decide (row ∈ rows)
                    then 1 else 0)
          else z)%Z <$> cell stats row col.
Proof.
  intros Hknown Hstats1.
  destruct primary as [| | | |p| |]; cbn [in_str_set] in Hknown; simplify_eq;
    try (cbn [str_is andb]; apply fmap_cell_id; intros ?; case_decide; lia).
  cbn [str_is]. destruct (decide (p ∈ rows)) as [Hp|Hp].
  - rewrite bool_decide_eq_true_2 in Hstats1 by done. simplify_eq.
    rewrite cell_bump. destruct (String.eqb_spec p row) as [->|Hne].
    + rewrite bool_decide_eq_true_2 by done. cbn [andb].
      destruct (cell stats row col); cbn; [|by repeat case_decide].
      repeat case_decide; cbn; f_equal; naive_solver lia.
    + cbn [andb]. destruct (cell stats row col); cbn; [|by repeat case_decide].
      repeat case_decide; cbn; f_equal; naive_solver lia.
  - rewrite bool_decide_eq_false_2 in Hstats1 by done. simplify_eq.
    destruct (String.eqb_spec p row) as [->|Hne]; cbn [andb].
    + rewrite bool_decide_eq_false_2 by done.
      apply fmap_cell_id. intros z. case_decide; lia.
    + apply fmap_cell_id. intros z. case_decide; lia.
Qed.

Lemma count_entity_inv cat stats v stats' :
  count_entity cat stats v = Ok stats' →
  ∀ row col,
    cell stats' row col =
      (λ z, if decide (col = cat) then z + tally row v else z)%Z
        <$> cell stats row col.
Proof.
  unfold count_entity. intros (e & He & H)%bind_Ok.
  destruct v; try discriminate. injection He as ->.
  apply bind_Ok in H as (known & Hknown & H).
  apply bind_Ok in H as (stats1 & Hstats1 & H).
  apply bind_Ok in H as (n & Hn & H).
  intros row col. unfold tally, has_primary, multi_layered. rewrite Hn.
  pose proof (primary_step _ _ _ _ _ row col Hknown Hstats1) as H1.
  destruct (1 <? n); injection H as <-.
  - rewrite cell_bump, H1. rewrite andb_true_r.
    destruct (String.eqb_spec row "multi_layer") as [->|Hne];
      destruct (cell stats _ col); simpl; try done;
      repeat case_decide; simpl; f_equal; naive_solver lia.
  - rewrite H1, andb_false_r. destruct (cell stats row col); simpl; [|done].
    f_equal. case_decide; lia.
Qed.

Lemma count_entities_inv cat stats es stats' :
  count_entities cat stats es = Ok stats' →
  ∀ row col,
    cell stats' row col =
      (λ z, if decide (col = cat) then z + tallies row es else z)%Z
        <$> cell stats row col.
Proof.
  revert stats. induction es as [|v es IH]; intros stats H row col; simpl in H.
  - injection H as <-. apply fmap_cell_id. intros z. simpl. case_decide; lia.
  - apply bind_Ok in H as (stats1 & H1 & H).
    rewrite (IH _ H), (count_entity_inv _ _ _ _ H1).
    destruct (cell stats row col); simpl; [|done].
    f_equal. case_decide; lia.
Qed.

Lemma tallies_layer row es :
  row ∈ rows → row ≠ "multi_layer" →
  tallies row es = count (has_primary row) es.
Proof.
  intros Hrow Hne. induction es as [|v es IH]; [done|].
  rewrite count_cons. simpl. rewrite IH. unfold tally.
  rewrite bool_decide_eq_true_2 by done.
  destruct (String.eqb_spec row "multi_layer"); [done|].
  rewrite andb_true_r. simpl. lia.
Qed.

Lemma tallies_multi es :
  Forall (λ v, has_primary "multi_layer" v = false) es →
  tallies "multi_layer" es = count multi_layered es.
Proof.
  induction 1 as [|v es Hv _ IH]; [done|].
  rewrite count_cons. simpl. rewrite IH. unfold tally. rewrite Hv. simpl. lia.
Qed.

Lemma count_category_inv cd stats c stats' :
  listed cd →
  count_category cd stats (key_of c) = Ok stats' →
  ∀ row col,
    cell stats' row col =
      (λ z, if decide (col = key_of c) then z + tallies row (entities_of cd c)
            else z)%Z <$> cell stats row col.
Proof.
  intros Hcd. unfold count_category, entities_of.
  destruct (Hcd (key_of c) (key_of_category c)) as [->|[es ->]].
  - intros [= <-] row col. apply fmap_cell_id. intros z. simpl.
    case_decide; lia.
  - run. apply count_entities_inv.
Qed.

Lemma cell_init row col :
  row ∈ rows →
  cell stats_init row col = if decide (col ∈ categories) then Some 0%Z else None.
Proof.
  intros Hrow. unfold cell.
  assert (stats_init !! row
          = Some (<["individuals" := 0%Z]> (<["properties" := 0%Z]>
                    (<["classes" := 0%Z]> ∅)))) as ->.
  { unfold rows in Hrow. set_unfold in Hrow.
    by destruct Hrow as [->|[->|[->|[->|[]]]]]. }
  simpl. rewrite !lookup_insert, lookup_empty.
  unfold categories. repeat case_decide; set_solver.
Qed.

Lemma cell_Some stats row col z :
  cell stats row col = Some z → ∃ r, stats !! row = Some r ∧ r !! col = Some z.
Proof. unfold cell. destruct (stats !! row) as [r|]; [eauto|done]. Qed.

Lemma statistic_in_cell stats row col z :
  col ≠ "total" → cell stats row col = Some z →
  statistic_in (VDict ((λ r, VDict (VInt <$> with_total r)) <$> stats)) row col
    = Some z.
Proof.
  intros Hcol (r & Hr & Hz)%cell_Some. unfold statistic_in, with_total.
  rewrite lookup_fmap, Hr. simpl.
  by rewrite lookup_fmap, lookup_insert_ne, Hz.
Qed.

Lemma total_of_row (r : gmap string Z) a b c :
  r !! "classes" = Some a → r !! "properties" = Some b →
  r !! "individuals" = Some c →
  (∀ col, col ∉ categories → r !! col = None) →
  with_total r !! "total" = Some (a + b + c)%Z.
Proof.
  intros Ha Hb Hc Hrest. unfold with_total. rewrite lookup_insert_eq. f_equal.
  assert (r = <["classes" := a]> (<["properties" := b]>
                (<["individuals" := c]> ∅))) as ->.
  { apply map_eq. intros col. rewrite !lookup_insert, lookup_empty.
    repeat case_decide; subst; try done.
    apply Hrest. unfold categories. set_solver. }
  rewrite !map_fold_insert_L, map_fold_empty; try done; intros; lia.
Qed.

Lemma get_layer_statistics_inv cd s row :
  listed cd → _get_layer_statistics cd = Ok s → row ∈ rows →
  (∀ c, statistic_in s row (key_of c) = Some (tallies row (entities_of cd c)))
  ∧ statistic_in s row "total"
    = Some (tallies row (entities_of cd Classes)
            + tallies row (entities_of cd Properties)
            + tallies row (entities_of cd Individuals))%Z.
Proof.
  intros Hcd H Hrow. unfold _get_layer_statistics in H.
  apply bind_Ok in H as (s1 & H1 & H).
  apply bind_Ok in H as (s2 & H2 & H).
  apply bind_Ok in H as (s3 & H3 & H). injection H as <-.
  pose proof (count_category_inv cd _ Classes _ Hcd H1) as C1.
  pose proof (count_category_inv cd _ Properties _ Hcd H2) as C2.
  pose proof (count_category_inv cd _ Individuals _ Hcd H3) as C3.
  assert (∀ col, cell s3 row col =
            if decide (col ∈ categories) then
              Some (if decide (col = "classes") then tallies row (entities_of cd Classes)
                    else if decide (col = "properties")
                         then tallies row (entities_of cd Properties)
                    else tallies row (entities_of cd Individuals))
            else None) as Hcell.
  { intros col. rewrite C3, C2, C1, cell_init by done. simpl.
    unfold categories. repeat case_decide; simpl; try done; try set_solver;
      subst; try done; f_equal; lia. }
  split.
  - intros c. apply statistic_in_cell; [by destruct c|].
    rewrite Hcell. rewrite decide_True by apply key_of_category.
    by destruct c.
  - pose proof (Hcell "classes") as Ha. pose proof (Hcell "properties") as Hb.
    pose proof (Hcell "individuals") as Hc.
    rewrite decide_True in Ha by in_keys. rewrite decide_True in Hb by in_keys.
    rewrite decide_True in Hc by in_keys. simpl in Ha, Hb, Hc.
    apply cell_Some in Ha as (r & Hr & Ha).
    apply cell_Some in Hb as (r' & Hr' & Hb).
    apply cell_Some in Hc as (r'' & Hr'' & Hc). simplify_eq.
    unfold statistic_in. rewrite lookup_fmap, Hr. simpl. rewrite lookup_fmap.
    erewrite total_of_row; [done..|].
    intros col Hcol. specialize (Hcell col). rewrite decide_False in Hcell by done.
    unfold cell in Hcell. by rewrite Hr in Hcell.
Qed.

Lemma classify_entity_layered ty v v' : classify_entity ty v = Ok v' → layered v'.
Proof.
  intros (e & ls & -> & _ & ->)%classify_entity_inv.
  eexists _, _. split; [done|]. rewrite lookup_insert_eq. split; [done|].
  unfold _get_primary_layer. destruct ls; [set_solver|].
  repeat case_bool_decide; set_solver.
Qed.

Lemma classified_as_layered m cat ty o :
  classified_as m cat ty o →
  o = None ∨ ∃ es, o = Some (VList es) ∧ Forall layered es.
Proof.
  unfold classified_as. destruct (m !! cat); [|by left].
  intros (es & Hes & ->). right. exists es. split; [done|].
  unfold _classify_entities in Hes. apply bind_Ok in Hes as (l & _ & H).
  apply for_each_inv in H.
  induction H; constructor; eauto using classify_entity_layered.
Qed.

Lemma classify_entities_of m out c :
  m !! "error" = None → classify m = Ok out →
  (out !! key_of c = None ∨ ∃ es, out !! key_of c = Some (VList es))
  ∧ Forall layered (entities_of out c).
Proof.
  intros Herr H.
  pose proof (classified_as_layered _ _ _ _ (classified_as_category m out c Herr H))
    as [Hnone|(es & Hes & Hall)]; unfold entities_of.
  - rewrite Hnone. split; [by left|constructor].
  - rewrite Hes. split; [right; eauto|done].
Qed.

Lemma classify_listed m out :
  m !! "error" = None → classify m = Ok out → listed out.
Proof.
  intros Herr H cat Hcat.
  assert (∃ c, cat = key_of c) as [c ->].
  { unfold categories in Hcat. set_unfold in Hcat.
    destruct Hcat as [->|[->|[->|[]]]];
      [by exists Classes|by exists Properties|by exists Individuals]. }
  by destruct (classify_entities_of m out c Herr H).
Qed.

Lemma layered_not_multi es :
  Forall layered es → Forall (λ v, has_primary "multi_layer" v = false) es.
Proof.
  intros H. eapply Forall_impl; [exact H|].
  intros v (e & p & -> & Hp & Hin). unfold has_primary, get.
  rewrite Hp. simpl. set_unfold in Hin. by destruct Hin as [->|[->|[->|[]]]].
Qed.

Lemma layered_partition es :
  Forall layered es →
  (count (has_primary "business") es + count (has_primary "technical") es
   + count (has_primary "core") es = Z.of_nat (length es))%Z.
Proof.
  induction 1 as [|v es (e & p & -> & Hp & Hin) _ IH]; [done|].
  rewrite !count_cons. unfold has_primary at 1 3 5. unfold get. rewrite Hp.
  cbn [default from_option id str_is length].
  set_unfold in Hin. destruct Hin as [->|[->|[->|[]]]]; simpl String.eqb; lia.
Qed.

End StatisticsFacts.

(** ** Facts about the order of the layers and about ill-typed fields *)

Module OrderFacts.
Import Py LayerClassifier WellFormed Spec ClassifierFacts.

Lemma sorted_three (s : gset string) :
  s ⊆ three → s ≠ ∅ →
  sorted_of_set s = filter (λ x, x ∈ sorted_of_set s) layer_order
  ∧ head (sorted_of_set s) = Some (_get_primary_layer (sorted_of_set s)).
Proof.
  unfold three. intros Hsub Hne.
  destruct (decide ("business" ∈ s)), (decide ("core" ∈ s)),
    (decide ("technical" ∈ s)).
  - assert (s = {["business"; "core"; "technical"]}) as -> by set_solver.
    by vm_compute.
  - assert (s = {["business"; "core"]}) as -> by set_solver. by vm_compute.
  - assert (s = {["business"; "technical"]}) as -> by set_solver. by vm_compute.
  - assert (s = {["business"]}) as -> by set_solver. by vm_compute.
  - assert (s = {["core"; "technical"]}) as -> by set_solver. by vm_compute.
  - assert (s = {["core"]}) as -> by set_solver. by vm_compute.
  - assert (s = {["technical"]}) as -> by set_solver. by vm_compute.
  - destruct Hne. set_solver.
Qed.

Lemma classify_property_three e x : _classify_property e = Ok x → x ⊆ three.
Proof.
  unfold _classify_property, three. intros (l & Hl & H)%bind_Ok.
  assert (l ⊆ {["business"; "technical"; "core"]}) as Hsub.
  { destruct (str_is "ObjectProperty" _).
    - apply bind_Ok in Hl as (r1 & _ & Hl). apply bind_Ok in Hl as (r2 & _ & Hl).
      apply bind_Ok in Hl as (hit & _ & Hl).
      destruct hit; injection Hl as <-; set_solver.
    - destruct (str_is "AnnotationProperty" _); injection Hl as <-; set_solver. }
  destruct (_ || _); injection H as <-; set_solver.
Qed.

Lemma classify_class_three e x : _classify_class e = Ok x → x ⊆ three.
Proof.
  unfold _classify_class, three. intros (n & _ & H)%bind_Ok.
  injection H as <-. repeat case_match; set_solver.
Qed.

Lemma classify_individual_three e x : _classify_individual e = Ok x → x ⊆ three.
Proof.
  unfold _classify_individual, three. intros (t & _ & H)%bind_Ok.
  case_match; injection H as <-; set_solver.
Qed.

Lemma by_entity_type_three e ty x : by_entity_type e ty = Ok x → x ⊆ three.
Proof.
  unfold by_entity_type. repeat case_match;
    eauto using classify_property_three, classify_class_three,
      classify_individual_three.
  intros [= <-]. set_solver.
Qed.

Lemma lower_field_cases e k :
  (∃ s, lower_field e k = Ok s ∧ is_strb (get e k (VStr "")) = true)
  ∨ (lower_field e k = Raise AttributeError).
Proof.
  unfold lower_field. destruct (get e k (VStr "")); simpl; eauto.
Qed.

Lemma text_content_raises e k v :
  k ∈ content_keys → e !! k = Some v → is_strb v = false →
  text_content_of e = Raise AttributeError.
Proof.
  intros Hk Hv Hstr.
  assert (is_strb (get e k (VStr "")) = false) as Hbad
    by (unfold get; by rewrite Hv).
  unfold text_content_of.
  destruct (lower_field_cases e "local_name") as [(s1 & -> & H1)| ->]; [|done].
  destruct (lower_field_cases e "prefixed_name") as [(s2 & -> & H2)| ->]; [|done].
  destruct (lower_field_cases e "label") as [(s3 & -> & H3)| ->]; [|done].
  destruct (lower_field_cases e "comment") as [(s4 & -> & H4)| ->]; [|done].
  destruct (lower_field_cases e "description") as [(s5 & -> & H5)| ->]; [|done].
  unfold content_keys in Hk. set_unfold in Hk.
  destruct Hk as [->|[->|[->|[->|[->|[]]]]]]; congruence.
Qed.

Lemma primary_of_sorted (s : gset string) :
  s ⊆ three →
  ISO17025._get_iso17025_primary_layer s = _get_primary_layer (sorted_of_set s).
Proof.
  unfold three. intros Hsub.
  destruct (decide ("business" ∈ s)), (decide ("core" ∈ s)),
    (decide ("technical" ∈ s)).
  - assert (s = {["business"; "core"; "technical"]}) as -> by set_solver.
    by vm_compute.
  - assert (s = {["business"; "core"]}) as -> by set_solver. by vm_compute.
  - assert (s = {["business"; "technical"]}) as -> by set_solver. by vm_compute.
  - assert (s = {["business"]}) as -> by set_solver. by vm_compute.
  - assert (s = {["core"; "technical"]}) as -> by set_solver. by vm_compute.
  - assert (s = {["core"]}) as -> by set_solver. by vm_compute.
  - assert (s = {["technical"]}) as -> by set_solver. by vm_compute.
  - assert (s = ∅) as -> by set_solver. by vm_compute.
Qed.

End OrderFacts.

(** ** Facts about the shape of an enhancement *)

Module ShapeFacts.
Import Py LayerClassifier WellFormed Spec ClassifierFacts EnhancerFacts.

Lemma bind_Ok_l {A B} (f : A → result B) (m : result A) (a : A) :
  m = Ok a → m ≫= f = f a.
Proof. by intros ->. Qed.

Lemma iso_entity_three v ty x :
  ISO17025._classify_iso17025_entity v ty = Ok x → x ⊆ three.
Proof.
  unfold ISO17025._classify_iso17025_entity, three.
  intros (s & _ & H)%bind_Ok. injection H as <-. repeat case_match; set_solver.
Qed.

Lemma cobit_entity_three v ty x :
  COBIT5._classify_cobit5_entity v ty = Ok x → x ⊆ three.
Proof.
  unfold COBIT5._classify_cobit5_entity, three.
  intros (s & _ & H)%bind_Ok. injection H as <-. repeat case_match; set_solver.
Qed.

Lemma get_agree (e e2 : gmap string value) k d :
  (∀ k, k ∈ read_keys → e2 !! k = e !! k) → k ∈ read_keys →
  get e2 k d = get e k d.
Proof. intros H Hk. unfold get. by rewrite H. Qed.

Ltac read_same Hread :=
  repeat match goal with
  | |- context [get ?e2 ?k ?d] =>
      rewrite (get_agree _ e2 k d Hread) by (unfold read_keys; set_solver)
  end.

Ltac step H := rewrite (bind_Ok_l _ _ _ H); cbn beta.

Lemma iso_class_shape e v' :
  ISO17025.enhance_class (VDict e) = Ok v' →
  ∃ existing extra anns,
    str_set (get e "layers" (VList [])) = Ok existing
    ∧ shape Iso17025 Classes e extra anns.
Proof.
  unfold ISO17025.enhance_class. cbn [mbind result_bind as_dict]. intros H.
  apply bind_Ok in H as (extra & Hextra & H).
  apply bind_Ok in H as (existing & Hex & H).
  apply bind_Ok in H as (clause & Hclause & H).
  apply bind_Ok in H as (rel & Hrel & _).
  exists existing, extra,
    [("laboratory_relevance", VStr rel); ("iso17025_clause", clause)].
  split; [done|]. split; [by eapply iso_entity_three|]. split; [done|].
  intros e2 existing2 Hread Hex2. simpl.
  unfold ISO17025.enhance_class. cbn [mbind result_bind as_dict].
  rewrite (get_agree e e2 "local_name") by (done || unfold read_keys; set_solver).
  step Hextra. step Hex2. step Hclause. step Hrel. done.
Qed.

Lemma iso_measurement_agree e e2 :
  (∀ k, k ∈ read_keys → e2 !! k = e !! k) →
  ISO17025._is_measurement_property e2 = ISO17025._is_measurement_property e
  ∧ ISO17025._assess_measurement_relevance e2
    = ISO17025._assess_measurement_relevance e
  ∧ ISO17025._get_laboratory_function e2 = ISO17025._get_laboratory_function e
  ∧ COBIT5._assess_governance_relevance e2
    = COBIT5._assess_governance_relevance e.
Proof.
  intros Hread.
  unfold ISO17025._is_measurement_property, ISO17025._assess_measurement_relevance,
    ISO17025._get_laboratory_function, COBIT5._assess_governance_relevance.
  by rewrite !(get_agree e e2) by (done || unfold read_keys; set_solver).
Qed.

Lemma iso_property_shape e v' :
  ISO17025.enhance_property (VDict e) = Ok v' →
  ∃ existing extra anns,
    str_set (get e "layers" (VList [])) = Ok existing
    ∧ shape Iso17025 Properties e extra anns.
Proof.
  unfold ISO17025.enhance_property. cbn [mbind result_bind as_dict]. intros H.
  apply bind_Ok in H as (extra & Hextra & H).
  apply bind_Ok in H as (measurement & Hm & H).
  apply bind_Ok in H as (existing & Hex & H).
  apply bind_Ok in H as (rel & Hrel & _).
  exists existing, (if measurement then extra ∪ {["business"]} else extra),
    [("measurement_relevance", VStr rel)].
  split; [done|]. split.
  { apply iso_entity_three in Hextra. unfold three in *.
    destruct measurement; set_solver. }
  split; [done|].
  intros e2 existing2 Hread Hex2. simpl.
  destruct (iso_measurement_agree e e2 Hread) as (Hm2 & Hrel2 & _).
  unfold ISO17025.enhance_property. cbn [mbind result_bind as_dict].
  rewrite (get_agree e e2 "local_name") by (done || unfold read_keys; set_solver).
  rewrite Hm2, Hrel2.
  step Hextra. step Hm. step Hex2. step Hrel. done.
Qed.

Lemma iso_individual_shape e v' :
  ISO17025.enhance_individual (VDict e) = Ok v' →
  ∃ existing extra anns,
    str_set (get e "layers" (VList [])) = Ok existing
    ∧ shape Iso17025 Individuals e extra anns.
Proof.
  unfold ISO17025.enhance_individual. cbn [mbind result_bind as_dict]. intros H.
  apply bind_Ok in H as (extra0 & Hextra0 & H).
  apply bind_Ok in H as (bt & Hbt & H).
  apply bind_Ok in H as (extra & Hextra & H).
  apply bind_Ok in H as (existing & Hex & H).
  apply bind_Ok in H as (fn & Hfn & _).
  exists existing, extra, [("laboratory_function", VStr fn)].
  split; [done|]. split.
  { apply iso_entity_three in Hextra0. unfold three in *.
    destruct bt; [injection Hextra as <-; set_solver|].
    apply bind_Ok in Hextra as (ct & _ & Hextra).
    destruct ct; injection Hextra as <-; set_solver. }
  split; [done|].
  intros e2 existing2 Hread Hex2. simpl.
  destruct (iso_measurement_agree e e2 Hread) as (_ & _ & Hfn2 & _).
  unfold ISO17025.enhance_individual. cbn [mbind result_bind as_dict].
  rewrite (get_agree e e2 "local_name") by (done || unfold read_keys; set_solver).
  rewrite (get_agree e e2 "type_local_name")
    by (done || unfold read_keys; set_solver).
  rewrite Hfn2.
  step Hextra0. step Hbt. step Hextra. step Hex2. step Hfn. done.
Qed.

Lemma cobit_class_shape e v' :
  COBIT5.enhance_class (VDict e) = Ok v' →
  ∃ existing extra anns,
    str_set (get e "layers" (VList [])) = Ok existing
    ∧ shape Cobit5 Classes e extra anns.
Proof.
  unfold COBIT5.enhance_class. cbn [mbind result_bind as_dict]. intros H.
  apply bind_Ok in H as (extra & Hextra & H).
  apply bind_Ok in H as (existing & Hex & H).
  apply bind_Ok in H as (domain & Hdomain & H).
  apply bind_Ok in H as (rel & Hrel & _).
  exists existing, extra,
    [("business_relevance", VStr rel); ("cobit5_domain", domain)].
  split; [done|]. split; [by eapply cobit_entity_three|]. split; [done|].
  intros e2 existing2 Hread Hex2. simpl.
  unfold COBIT5.enhance_class. cbn [mbind result_bind as_dict].
  rewrite (get_agree e e2 "local_name") by (done || unfold read_keys; set_solver).
  step Hextra. step Hex2. step Hdomain. step Hrel. done.
Qed.

Lemma cobit_property_shape e v' :
  COBIT5.enhance_property (VDict e) = Ok v' →
  ∃ existing extra anns,
    str_set (get e "layers" (VList [])) = Ok existing
    ∧ shape Cobit5 Properties e extra anns.
Proof.
  unfold COBIT5.enhance_property. cbn [mbind result_bind as_dict]. intros H.
  apply bind_Ok in H as (extra & Hextra & H).
  apply bind_Ok in H as (business & Hb & H).
  apply bind_Ok in H as (existing & Hex & H).
  apply bind_Ok in H as (rel & Hrel & _).
  exists existing, (if business then extra ∪ {["business"]} else extra),
    [("governance_relevance", VStr rel)].
  split; [done|]. split.
  { apply cobit_entity_three in Hextra. unfold three in *.
    destruct business; set_solver. }
  split; [done|].
  intros e2 existing2 Hread Hex2. simpl.
  destruct (iso_measurement_agree e e2 Hread) as (_ & _ & _ & Hrel2).
  unfold COBIT5.enhance_property. cbn [mbind result_bind as_dict].
  rewrite (get_agree e e2 "local_name") by (done || unfold read_keys; set_solver).
  rewrite (get_agree e e2 "domain") by (done || unfold read_keys; set_solver).
  rewrite (get_agree e e2 "range") by (done || unfold read_keys; set_solver).
  rewrite Hrel2.
  step Hextra. step Hb. step Hex2. step Hrel. done.
Qed.

Lemma cobit_individual_shape e v' :
  COBIT5.enhance_individual (VDict e) = Ok v' →
  ∃ existing extra anns,
    str_set (get e "layers" (VList [])) = Ok existing
    ∧ shape Cobit5 Individuals e extra anns.
Proof.
  unfold COBIT5.enhance_individual. cbn [mbind result_bind as_dict]. intros H.
  apply bind_Ok in H as (extra0 & Hextra0 & H).
  apply bind_Ok in H as (bt & Hbt & H).
  apply bind_Ok in H as (extra & Hextra & H).
  apply bind_Ok in H as (existing & Hex & H).
  apply bind_Ok in H as (code & Hcode & _).
  exists existing, extra, [("cobit5_process_code", code)].
  split; [done|]. split.
  { apply cobit_entity_three in Hextra0. unfold three in *.
    destruct bt; [injection Hextra as <-; set_solver|].
    apply bind_Ok in Hextra as (ct & _ & Hextra).
    destruct ct; injection Hextra as <-; set_solver. }
  split; [done|].
  intros e2 existing2 Hread Hex2. simpl.
  unfold COBIT5.enhance_individual. cbn [mbind result_bind as_dict].
  rewrite (get_agree e e2 "local_name") by (done || unfold read_keys; set_solver).
  rewrite (get_agree e e2 "type_local_name")
    by (done || unfold read_keys; set_solver).
  step Hextra0. step Hbt. step Hextra. step Hex2. step Hcode. done.
Qed.

Lemma enhance_entity_shape f c e v' :
  enhance_entity f c (VDict e) = Ok v' →
  ∃ existing extra anns,
    str_set (get e "layers" (VList [])) = Ok existing
    ∧ shape f c e extra anns.
Proof.
  destruct f, c; simpl;
    eauto using iso_class_shape, iso_property_shape, iso_individual_shape,
      cobit_class_shape, cobit_property_shape, cobit_individual_shape.
Qed.

Lemma lookup_annotate_ne anns (m : gmap string value) k :
  k ∉ anns.*1 → annotate anns m !! k = m !! k.
Proof.
  induction anns as [|[k' v] anns IH]; simpl; [done|].
  intros Hk. rewrite lookup_insert_ne by set_solver. apply IH. set_solver.
Qed.

Lemma lookup_annotate_in anns (m : gmap string value) k :
  k ∈ anns.*1 → is_Some (annotate anns m !! k).
Proof.
  induction anns as [|[k' v] anns IH]; simpl; [by intros ?%elem_of_nil|].
  intros Hk. destruct (decide (k' = k)) as [->|Hne].
  - rewrite lookup_insert_eq. eauto.
  - rewrite lookup_insert_ne by done. apply IH. set_solver.
Qed.

Lemma annotation_keys_fresh f c k :
  k ∈ annotation_keys f c →
  k ≠ "layers" ∧ k ≠ "primary_layer" ∧ k ∉ read_keys.
Proof.
  unfold read_keys.
  destruct f, c; simpl; intros Hk; set_unfold in Hk;
    repeat (destruct Hk as [->|Hk]; [split_and!; [done..|set_solver]|]);
    done.
Qed.

Lemma annotation_keys_apart c k :
  k ∈ annotation_keys Iso17025 c → k ∉ annotation_keys Cobit5 c.
Proof.
  destruct c; simpl; intros Hk; set_unfold in Hk;
    repeat (destruct Hk as [->|Hk]; [set_solver|]); done.
Qed.

Lemma lookup_with_layers_ne s (e : gmap string value) k :
  k ≠ "layers" → k ≠ "primary_layer" → with_layers s e !! k = e !! k.
Proof. intros. unfold with_layers. by rewrite !lookup_insert_ne. Qed.

Lemma lookup_with_layers s (e : gmap string value) :
  with_layers s e !! "layers" = Some (str_list (sorted_of_set s))
  ∧ with_layers s e !! "primary_layer"
    = Some (VStr (ISO17025._get_iso17025_primary_layer s)).
Proof.
  unfold with_layers. by rewrite lookup_insert_eq, lookup_insert_ne, lookup_insert_eq.
Qed.

(** The lookups in an enhanced record. *)
Lemma lookup_enhanced f c anns s (e : gmap string value) :
  anns.*1 = annotation_keys f c →
  let e' := annotate anns (with_layers s e) in
  e' !! "layers" = Some (str_list (sorted_of_set s))
  ∧ e' !! "primary_layer" = Some (VStr (ISO17025._get_iso17025_primary_layer s))
  ∧ (∀ k, k ≠ "layers" → k ≠ "primary_layer" → k ∉ annotation_keys f c →
       e' !! k = e !! k)
  ∧ (∀ k, k ∈ read_keys → e' !! k = e !! k).
Proof.
  intros Hkeys e'. unfold e'.
  assert (¬ "layers" ∈ anns.*1 ∧ ¬ "primary_layer" ∈ anns.*1) as [Hl Hp].
  { rewrite Hkeys. split; intros H%annotation_keys_fresh; naive_solver. }
  split_and!.
  - rewrite lookup_annotate_ne by done. apply lookup_with_layers.
  - rewrite lookup_annotate_ne by done. apply lookup_with_layers.
  - intros k ? ? Hk. rewrite lookup_annotate_ne by (by rewrite Hkeys).
    by apply lookup_with_layers_ne.
  - intros k Hk.
    assert (k ∉ annotation_keys f c) as Hfresh
      by (intros H%annotation_keys_fresh; naive_solver).
    rewrite lookup_annotate_ne by (by rewrite Hkeys).
    apply lookup_with_layers_ne; intros ->; unfold read_keys in Hk; set_solver.
Qed.

(** Reading back the stored layers. *)
Lemma str_set_sorted (s : gset string) :
  str_set (str_list (sorted_of_set s)) = Ok s.
Proof.
  rewrite str_set_str_list. f_equal. apply set_eq. intros x.
  by rewrite elem_of_list_to_set, elem_of_sorted_of_set.
Qed.

Lemma enhanced_layers_read f c anns s (e : gmap string value) :
  anns.*1 = annotation_keys f c →
  str_set (get (annotate anns (with_layers s e)) "layers" (VList [])) = Ok s.
Proof.
  intros Hkeys. destruct (lookup_enhanced f c anns s e Hkeys) as (Hl & _).
  unfold get. rewrite Hl. apply str_set_sorted.
Qed.

(** The result of an enhancer, from its shape. *)
Lemma enhance_entity_result f c e v' :
  enhance_entity f c (VDict e) = Ok v' →
  ∃ existing extra anns,
    str_set (get e "layers" (VList [])) = Ok existing
    ∧ shape f c e extra anns
    ∧ v' = VDict (annotate anns (with_layers (existing ∪ extra) e)).
Proof.
  intros H.
  destruct (enhance_entity_shape f c e v' H)
    as (existing & extra & anns & Hex & Hshape).
  exists existing, extra, anns. split; [done|]. split; [done|].
  destruct Hshape as (_ & _ & Hrun).
  specialize (Hrun e existing (λ _ _, eq_refl) Hex). congruence.
Qed.

Lemma annotate_lookup_indep anns (m1 m2 : gmap string value) k :
  k ∈ anns.*1 → annotate anns m1 !! k = annotate anns m2 !! k.
Proof.
  induction anns as [|[k' v] anns IH]; simpl; [by intros ?%elem_of_nil|].
  intros Hk. destruct (decide (k' = k)) as [->|Hne].
  - by rewrite !lookup_insert_eq.
  - rewrite !lookup_insert_ne by done. apply IH. set_solver.
Qed.

Lemma with_layers_lookup_indep s (m1 m2 : gmap string value) k :
  k = "layers" ∨ k = "primary_layer" →
  with_layers s m1 !! k = with_layers s m2 !! k.
Proof.
  intros [-> | ->].
  - by rewrite !(proj1 (lookup_with_layers _ _)).
  - by rewrite !(proj2 (lookup_with_layers _ _)).
Qed.

(** Storing the same layers and annotations twice changes nothing. *)
Lemma enhanced_again anns s (e : gmap string value) :
  "layers" ∉ anns.*1 → "primary_layer" ∉ anns.*1 →
  annotate anns (with_layers s (annotate anns (with_layers s e)))
  = annotate anns (with_layers s e).
Proof.
  intros Hl Hp. apply map_eq. intros k.
  destruct (decide (k ∈ anns.*1)) as [Hin|Hout].
  { by apply annotate_lookup_indep. }
  rewrite lookup_annotate_ne by done.
  destruct (decide (k = "layers" ∨ k = "primary_layer")) as [Hk|Hk].
  - rewrite (lookup_annotate_ne anns (with_layers s e)) by done.
    by apply with_layers_lookup_indep.
  - rewrite lookup_with_layers_ne by naive_solver. done.
Qed.

Lemma annotation_keys_layers f c (anns : list (string * value)) :
  anns.*1 = annotation_keys f c →
  ¬ "layers" ∈ anns.*1 ∧ ¬ "primary_layer" ∈ anns.*1.
Proof.
  intros ->. split; intros H%annotation_keys_fresh; naive_solver.
Qed.

Lemma enhance_entity_idem f c v v' :
  enhance_entity f c v = Ok v' → enhance_entity f c v' = Ok v'.
Proof.
  intros H. destruct (enhance_entity_dict f c v v' H) as [e ->].
  destruct (enhance_entity_result f c e v' H)
    as (existing & extra & anns & Hex & (Hthree & Hkeys & Hrun) & ->).
  destruct (lookup_enhanced f c anns (existing ∪ extra) e Hkeys)
    as (Hl & Hp & Hframe & Hread).
  rewrite (Hrun _ (existing ∪ extra) Hread (enhanced_layers_read f c _ _ _ Hkeys)).
  assert ((existing ∪ extra) ∪ extra = existing ∪ extra) as -> by set_solver.
  destruct (annotation_keys_layers f c anns Hkeys).
  by rewrite enhanced_again.
Qed.

(** Two sets of annotations with different keys can be stored in either
    order. *)
Lemma enhanced_swap a1 a2 s s1 s2 (e : gmap string value) :
  ¬ "layers" ∈ a1.*1 → ¬ "primary_layer" ∈ a1.*1 →
  ¬ "layers" ∈ a2.*1 → ¬ "primary_layer" ∈ a2.*1 →
  (∀ k, k ∈ a1.*1 → k ∉ a2.*1) →
  annotate a2 (with_layers s (annotate a1 (with_layers s1 e)))
  = annotate a1 (with_layers s (annotate a2 (with_layers s2 e))).
Proof.
  intros Hl1 Hp1 Hl2 Hp2 Hapart. apply map_eq. intros k.
  destruct (decide (k ∈ a2.*1)) as [Hin2|Hout2].
  { assert (k ∉ a1.*1) as Hout1 by (intros ?; by eapply Hapart).
    rewrite (lookup_annotate_ne a1) by done.
    rewrite lookup_with_layers_ne by (intros ->; done).
    by apply annotate_lookup_indep. }
  rewrite (lookup_annotate_ne a2) by done.
  destruct (decide (k ∈ a1.*1)) as [Hin1|Hout1].
  { rewrite lookup_with_layers_ne by (intros ->; done).
    by apply annotate_lookup_indep. }
  rewrite (lookup_annotate_ne a1) by done.
  destruct (decide (k = "layers" ∨ k = "primary_layer")) as [Hk|Hk].
  - by apply with_layers_lookup_indep.
  - rewrite !lookup_with_layers_ne by naive_solver.
    rewrite !lookup_annotate_ne by done.
    by rewrite !lookup_with_layers_ne by naive_solver.
Qed.

Lemma enhance_entity_commute c e v1 v2 :
  enhance_entity Iso17025 c (VDict e) = Ok v1 →
  enhance_entity Cobit5 c (VDict e) = Ok v2 →
  ∃ v, enhance_entity Cobit5 c v1 = Ok v ∧ enhance_entity Iso17025 c v2 = Ok v.
Proof.
  intros H1 H2.
  destruct (enhance_entity_result _ c e v1 H1)
    as (ex & x1 & a1 & Hex & (_ & Hk1 & Hrun1) & ->).
  destruct (enhance_entity_result _ c e v2 H2)
    as (ex' & x2 & a2 & Hex' & (_ & Hk2 & Hrun2) & ->).
  assert (ex' = ex) as -> by congruence.
  destruct (lookup_enhanced _ c a1 (ex ∪ x1) e Hk1) as (_ & _ & _ & Hread1).
  destruct (lookup_enhanced _ c a2 (ex ∪ x2) e Hk2) as (_ & _ & _ & Hread2).
  rewrite (Hrun2 _ (ex ∪ x1) Hread1 (enhanced_layers_read _ c _ _ _ Hk1)).
  rewrite (Hrun1 _ (ex ∪ x2) Hread2 (enhanced_layers_read _ c _ _ _ Hk2)).
  eexists. split; [done|]. do 2 f_equal.
  assert ((ex ∪ x2) ∪ x1 = (ex ∪ x1) ∪ x2) as -> by set_solver.
  destruct (annotation_keys_layers _ c a1 Hk1), (annotation_keys_layers _ c a2 Hk2).
  symmetry. apply enhanced_swap; try done.
  rewrite Hk1, Hk2. apply annotation_keys_apart.
Qed.

Lemma enhance_entities_idem f c v es :
  enhance_entities f c v = Ok es → enhance_entities f c (VList es) = Ok es.
Proof.
  intros H. rewrite enhance_entities_unfold.
  assert (∃ l, for_each (enhance_entity f c) l = Ok es) as [l Hl].
  { destruct f, c; simpl in H; apply bind_Ok in H as (l & _ & H); eauto. }
  apply for_each_inv in Hl. apply for_each_intro. clear H.
  induction Hl as [|x y l es Hxy _ IH]; [constructor|].
  constructor; [by eapply enhance_entity_idem|done].
Qed.

(** *** The enhancers on models *)

Lemma enhance_category_inv g cat d d' :
  ISO17025.enhance_category g cat d = Ok d' →
  (∀ k, k ≠ cat → d' !! k = d !! k)
  ∧ match d !! cat with
    | Some v => ∃ es, g v = Ok es ∧ d' !! cat = Some (VList es)
    | None => d' !! cat = None
    end.
Proof.
  unfold ISO17025.enhance_category. destruct (d !! cat) as [v|] eqn:Hd.
  - intros (es & Hes & [= <-])%bind_Ok. split.
    + intros k Hk. by rewrite lookup_insert_ne.
    + exists es. by rewrite lookup_insert_eq.
  - by intros [= <-].
Qed.

Lemma enhance_category_fix g cat d :
  (d !! cat = None ∨ ∃ es, d !! cat = Some (VList es) ∧ g (VList es) = Ok es) →
  ISO17025.enhance_category g cat d = Ok d.
Proof.
  unfold ISO17025.enhance_category. intros [->|(es & Hd & Hes)]; [done|].
  rewrite Hd, Hes. simpl. f_equal. by apply insert_id.
Qed.

(** An enhancer on a model, as three category steps and an analysis. *)
Lemma enhance_model_unfold f m :
  enhance_model f m =
    d1 ← ISO17025.enhance_category (enhance_entities f Classes) "classes" m;
    d2 ← ISO17025.enhance_category (enhance_entities f Properties) "properties" d1;
    d3 ← ISO17025.enhance_category (enhance_entities f Individuals) "individuals" d2;
    a ← analysis f d3;
    Ok (<[analysis_key f := a]> d3).
Proof. by destruct f. Qed.

Lemma analysis_ext f (a b : gmap string value) :
  (∀ k, k ∈ "layer_statistics" :: categories → a !! k = b !! k) →
  analysis f a = analysis f b.
Proof.
  intros H. destruct f; simpl.
  - unfold ISO17025._generate_iso17025_analysis, ISO17025.cover_category.
    by rewrite !H by (unfold categories; set_solver).
  - unfold COBIT5._generate_cobit5_analysis, COBIT5.find_category, get.
    by rewrite !H by (unfold categories; set_solver).
Qed.

Lemma analysis_key_fresh f : analysis_key f ∉ "layer_statistics" :: categories.
Proof. unfold categories. destruct f; simpl; set_solver. Qed.

Lemma enhance_model_inv f m out :
  enhance_model f m = Ok out →
  (∀ c, match m !! key_of c with
        | Some v => ∃ es, enhance_entities f c v = Ok es
                          ∧ out !! key_of c = Some (VList es)
        | None => out !! key_of c = None
        end)
  ∧ (∃ a, out !! analysis_key f = Some a ∧ analysis f out = Ok a)
  ∧ (∀ k, k ∉ categories → k ≠ analysis_key f → out !! k = m !! k).
Proof.
  rewrite enhance_model_unfold.
  intros (d1 & [H1 H1c]%enhance_category_inv & H)%bind_Ok.
  apply bind_Ok in H as (d2 & [H2 H2c]%enhance_category_inv & H).
  apply bind_Ok in H as (d3 & [H3 H3c]%enhance_category_inv & H).
  apply bind_Ok in H as (a & Ha & [= <-]).
  pose proof (analysis_key_fresh f) as Hfresh. unfold categories in Hfresh.
  split_and!.
  - intros c. rewrite lookup_insert_ne by (destruct c; set_solver).
    destruct c; simpl.
    + rewrite H3, H2 by done. done.
    + rewrite H3 by done. rewrite H1 in H2c by done. done.
    + rewrite H2, H1 in H3c by done. done.
  - exists a. rewrite lookup_insert_eq. split; [done|]. rewrite <- Ha.
    apply analysis_ext. intros k Hk. rewrite lookup_insert_ne; [done|].
    intros <-. by apply (analysis_key_fresh f).
  - intros k Hk Hne. rewrite lookup_insert_ne by done.
    unfold categories in Hk. rewrite H3, H2, H1; [done|..]; set_solver.
Qed.

Lemma enhance_model_idem f m out :
  enhance_model f m = Ok out → enhance_model f out = Ok out.
Proof.
  intros (Hcat & (a & Ha & Han) & _)%enhance_model_inv.
  assert (∀ c, ISO17025.enhance_category (enhance_entities f c) (key_of c) out
               = Ok out) as Hfix.
  { intros c. apply enhance_category_fix. specialize (Hcat c).
    destruct (m !! key_of c); [right|by left].
    destruct Hcat as (es & Hes & Hout). exists es. split; [done|].
    by eapply enhance_entities_idem. }
  pose proof (Hfix Classes) as Hc. pose proof (Hfix Properties) as Hp.
  pose proof (Hfix Individuals) as Hi. cbn [key_of] in Hc, Hp, Hi.
  rewrite enhance_model_unfold.
  rewrite Hc. cbn [mbind result_bind]. rewrite Hp. cbn [mbind result_bind].
  rewrite Hi. cbn [mbind result_bind]. rewrite Han. cbn [mbind result_bind].
  f_equal. by apply insert_id.
Qed.

Lemma lookup_replaced o d c :
  replaced o d !! key_of c =
    match o c with Some es => Some (VList es) | None => d !! key_of c end.
Proof.
  unfold replaced.
  destruct c, (o Classes), (o Properties), (o Individuals); simpl;
    by rewrite ?lookup_insert_eq, ?lookup_insert_ne, ?lookup_insert_eq,
         ?lookup_insert_ne, ?lookup_insert_eq by done.
Qed.

Lemma lookup_replaced_ne o d k :
  k ∉ categories → replaced o d !! k = d !! k.
Proof.
  unfold replaced, categories. intros Hk.
  destruct (o Classes), (o Properties), (o Individuals); simpl;
    rewrite ?lookup_insert_ne; try done; set_solver.
Qed.

Lemma category_cases k :
  k ∈ categories → ∃ c, k = key_of c.
Proof.
  unfold categories. intros Hk. set_unfold in Hk.
  destruct Hk as [->|[->|[->|[]]]];
    [by exists Classes|by exists Properties|by exists Individuals].
Qed.

(** Running an enhancer on a model whose categories it can enhance. *)
Lemma enhance_model_intro f d o a :
  (∀ c, match d !! key_of c with
        | Some v => ∃ es, enhance_entities f c v = Ok es ∧ o c = Some es
        | None => o c = None
        end) →
  analysis f (replaced o d) = Ok a →
  enhance_model f d = Ok (<[analysis_key f := a]> (replaced o d)).
Proof.
  intros Ho Ha. rewrite enhance_model_unfold.
  assert (∀ c d', d' !! key_of c = d !! key_of c →
            ISO17025.enhance_category (enhance_entities f c) (key_of c) d'
            = Ok (match o c with
                  | Some es => <[key_of c := VList es]> d'
                  | None => d'
                  end)) as Hstep.
  { intros c d' Hd'. unfold ISO17025.enhance_category. rewrite Hd'.
    specialize (Ho c). destruct (d !! key_of c).
    - destruct Ho as (es & -> & ->). done.
    - by rewrite Ho. }
  pose proof (Hstep Classes d eq_refl) as H1. cbn [key_of] in H1.
  rewrite H1. cbn [mbind result_bind].
  pose proof (Hstep Properties) as H2. cbn [key_of] in H2.
  rewrite H2; last first.
  { destruct (o Classes); [by rewrite lookup_insert_ne|done]. }
  cbn [mbind result_bind].
  pose proof (Hstep Individuals) as H3. cbn [key_of] in H3.
  rewrite H3; last first.
  { destruct (o Classes), (o Properties); by rewrite ?lookup_insert_ne. }
  cbn [mbind result_bind]. unfold replaced in Ha. cbn [key_of] in Ha.
  by rewrite Ha.
Qed.

Lemma cover_clauses_cong acc es es' :
  Forall2 (same_at "iso17025_clause") es es' →
  ISO17025.cover_clauses acc es' = ISO17025.cover_clauses acc es.
Proof.
  intros H. revert acc.
  induction H as [|v v' es es' (e & e' & -> & -> & He) _ IH]; intros acc;
    simpl; [done|].
  unfold ISO17025.cover_clause, get. cbn [mbind result_bind as_dict].
  rewrite He. destruct (truthy _); cbn [mbind result_bind]; [|by rewrite IH].
  destruct (default VNone (e !! "iso17025_clause")); cbn [mbind result_bind];
    try done; by rewrite IH.
Qed.

Lemma find_domains_cong acc es es' :
  Forall2 (same_at "cobit5_domain") es es' →
  COBIT5.find_domains acc es' = COBIT5.find_domains acc es.
Proof.
  intros H. revert acc.
  induction H as [|v v' es es' (e & e' & -> & -> & He) _ IH]; intros acc;
    simpl; [done|].
  unfold COBIT5.find_domain, get. cbn [mbind result_bind as_dict].
  rewrite He. destruct (truthy _); cbn [mbind result_bind]; [|by rewrite IH].
  destruct (default VNone (e !! "cobit5_domain")); cbn [mbind result_bind];
    try done.
  case_bool_decide; cbn [mbind result_bind]; by rewrite IH.
Qed.

(** The analysis of an enhancer reads the layer statistics and one field
    of every entity. *)
Lemma analysis_cong f (d d' : gmap string value) :
  d' !! "layer_statistics" = d !! "layer_statistics" →
  (∀ c, (d !! key_of c = None ∧ d' !! key_of c = None)
        ∨ ∃ es es', d !! key_of c = Some (VList es)
                    ∧ d' !! key_of c = Some (VList es')
                    ∧ Forall2 (same_at (watched f)) es es') →
  analysis f d' = analysis f d.
Proof.
  intros Hst Hcat. destruct f; simpl in *.
  - assert (∀ c acc, ISO17025.cover_category d' acc (key_of c)
                     = ISO17025.cover_category d acc (key_of c)) as Hc.
    { intros c acc. unfold ISO17025.cover_category.
      destruct (Hcat c) as [[-> ->]|(es & es' & -> & -> & Hes)]; [done|].
      simpl. by apply cover_clauses_cong. }
    unfold ISO17025._generate_iso17025_analysis.
    pose proof (Hc Classes) as H1. pose proof (Hc Properties) as H2.
    pose proof (Hc Individuals) as H3. cbn [key_of] in H1, H2, H3.
    rewrite H1. destruct (ISO17025.cover_category d ∅ "classes"); [|done].
    cbn [mbind result_bind]. rewrite H2.
    destruct (ISO17025.cover_category d _ "properties"); [|done].
    cbn [mbind result_bind]. by rewrite H3.
  - assert (∀ c acc, COBIT5.find_category d' acc (key_of c)
                     = COBIT5.find_category d acc (key_of c)) as Hc.
    { intros c acc. unfold COBIT5.find_category.
      destruct (Hcat c) as [[-> ->]|(es & es' & -> & -> & Hes)]; [done|].
      simpl. by apply find_domains_cong. }
    unfold COBIT5._generate_cobit5_analysis, get.
    pose proof (Hc Classes) as H1. pose proof (Hc Properties) as H2.
    pose proof (Hc Individuals) as H3. cbn [key_of] in H1, H2, H3.
    rewrite H1. destruct (COBIT5.find_category d [] "classes"); [|done].
    cbn [mbind result_bind]. rewrite H2.
    destruct (COBIT5.find_category d _ "properties"); [|done].
    cbn [mbind result_bind]. by rewrite H3, Hst.
Qed.

Lemma enhance_entity_same_at f c v v' key :
  enhance_entity f c v = Ok v' →
  key ≠ "layers" → key ≠ "primary_layer" → key ∉ annotation_keys f c →
  same_at key v v'.
Proof.
  intros H Hl Hp Hk. destruct (enhance_entity_dict f c v v' H) as [e ->].
  destruct (enhance_entity_result f c e v' H)
    as (existing & extra & anns & _ & (_ & Hkeys & _) & ->).
  destruct (lookup_enhanced f c anns (existing ∪ extra) e Hkeys)
    as (_ & _ & Hframe & _).
  eexists e, _. split; [done|]. split; [done|]. by apply Hframe.
Qed.

Lemma enhance_entities_iter f c v es :
  enhance_entities f c v = Ok es →
  ∃ l, iter v = Ok l ∧ for_each (enhance_entity f c) l = Ok es.
Proof. destruct f, c; simpl; intros (l & Hl & H)%bind_Ok; eauto. Qed.

Lemma enhance_entities_commute c v es1 es2 :
  enhance_entities Iso17025 c v = Ok es1 →
  enhance_entities Cobit5 c v = Ok es2 →
  ∃ es, enhance_entities Cobit5 c (VList es1) = Ok es
        ∧ enhance_entities Iso17025 c (VList es2) = Ok es
        ∧ Forall2 (same_at "iso17025_clause") es1 es
        ∧ Forall2 (same_at "cobit5_domain") es2 es.
Proof.
  intros (l & Hl & H1)%enhance_entities_iter (l' & Hl' & H2)%enhance_entities_iter.
  assert (l' = l) as -> by congruence. clear Hl Hl'.
  rewrite !enhance_entities_unfold.
  apply for_each_inv in H1, H2. revert es2 H2.
  induction H1 as [|x y1 l es1 Hy1 _ IH]; intros es2 H2; inversion H2; subst.
  { exists []. by repeat split; constructor. }
  destruct (IH _ ltac:(eassumption)) as (es & Hc & Hi & Hs1 & Hs2).
  destruct (enhance_entity_dict _ _ _ _ Hy1) as [e ->].
  match goal with H : enhance_entity Cobit5 c (VDict e) = Ok ?y |- _ =>
    destruct (enhance_entity_commute c e y1 y Hy1 H) as (w & Hw1 & Hw2)
  end.
  exists (w :: es). cbn [for_each]. rewrite Hw1, Hw2, Hc, Hi.
  split_and!; [done..| |]; constructor; try done.
  - eapply enhance_entity_same_at; [done..|]. destruct c; simpl; set_solver.
  - eapply enhance_entity_same_at; [done..|]. destruct c; simpl; set_solver.
Qed.

Lemma enhance_model_commute m a b :
  enhance_model Iso17025 m = Ok a → enhance_model Cobit5 m = Ok b →
  ∃ r, enhance_model Cobit5 a = Ok r ∧ enhance_model Iso17025 b = Ok r.
Proof.
  intros (Hcat_a & (A & HaA & HanA) & Hfr_a)%enhance_model_inv
         (Hcat_b & (B & HbB & HanB) & Hfr_b)%enhance_model_inv.
  assert (∀ c, ∃ oc : option (list value),
            match m !! key_of c with
            | Some v =>
                ∃ es1 es2 es,
                  a !! key_of c = Some (VList es1)
                  ∧ b !! key_of c = Some (VList es2)
                  ∧ enhance_entities Cobit5 c (VList es1) = Ok es
                  ∧ enhance_entities Iso17025 c (VList es2) = Ok es
                  ∧ Forall2 (same_at "iso17025_clause") es1 es
                  ∧ Forall2 (same_at "cobit5_domain") es2 es
                  ∧ oc = Some es
            | None => a !! key_of c = None ∧ b !! key_of c = None ∧ oc = None
            end) as Hex.
  { intros c. specialize (Hcat_a c). specialize (Hcat_b c).
    destruct (m !! key_of c) as [v|]; [|by exists None].
    destruct Hcat_a as (es1 & H1 & Ha1), Hcat_b as (es2 & H2 & Hb2).
    destruct (enhance_entities_commute c v es1 es2 H1 H2)
      as (es & ? & ? & ? & ?).
    exists (Some es), es1, es2, es. by split_and!. }
  destruct (Hex Classes) as [oC HC], (Hex Properties) as [oP HP],
    (Hex Individuals) as [oI HI].
  set (o := λ c, match c with
                 | Classes => oC | Properties => oP | Individuals => oI
                 end).
  assert (∀ c, match m !! key_of c with
               | Some v =>
                   ∃ es1 es2 es,
                     a !! key_of c = Some (VList es1)
                     ∧ b !! key_of c = Some (VList es2)
                     ∧ enhance_entities Cobit5 c (VList es1) = Ok es
                     ∧ enhance_entities Iso17025 c (VList es2) = Ok es
                     ∧ Forall2 (same_at "iso17025_clause") es1 es
                     ∧ Forall2 (same_at "cobit5_domain") es2 es
                     ∧ o c = Some es
               | None => a !! key_of c = None ∧ b !! key_of c = None ∧ o c = None
               end) as Ho by (by intros []).
  clear Hex HC HP HI.
  assert ("layer_statistics" ∉ categories) as Hls by (unfold categories; set_solver).
  exists (<["cobit5_analysis" := B]> (replaced o a)). split.
  - apply (enhance_model_intro Cobit5 a o B).
    + intros c. specialize (Ho c). destruct (m !! key_of c).
      * destruct Ho as (es1 & es2 & es & -> & _ & ? & _ & _ & _ & ?). eauto.
      * by destruct Ho as (-> & _ & ?).
    + rewrite <- HanB. apply (analysis_cong Cobit5).
      * rewrite lookup_replaced_ne, Hfr_a, Hfr_b by done. done.
      * intros c. specialize (Ho c). rewrite lookup_replaced.
        destruct (m !! key_of c).
        -- destruct Ho as (es1 & es2 & es & _ & -> & _ & _ & _ & ? & ->).
           right. by exists es2, es.
        -- destruct Ho as (-> & -> & ->). by left.
  - replace (<["cobit5_analysis" := B]> (replaced o a))
      with (<["iso17025_analysis" := A]> (replaced o b)).
    { apply (enhance_model_intro Iso17025 b o A).
      + intros c. specialize (Ho c). destruct (m !! key_of c).
        * destruct Ho as (es1 & es2 & es & _ & -> & _ & ? & _ & _ & ?). eauto.
        * by destruct Ho as (_ & -> & ?).
      + rewrite <- HanA. apply (analysis_cong Iso17025).
        * rewrite lookup_replaced_ne, Hfr_a, Hfr_b by done. done.
        * intros c. specialize (Ho c). rewrite lookup_replaced.
          destruct (m !! key_of c).
          -- destruct Ho as (es1 & es2 & es & -> & _ & _ & _ & ? & _ & ->).
             right. by exists es1, es.
          -- destruct Ho as (-> & -> & ->). by left. }
    apply map_eq. intros k.
    pose proof (analysis_key_fresh Iso17025) as Hia.
    pose proof (analysis_key_fresh Cobit5) as Hca. simpl in Hia, Hca.
    destruct (decide (k = "iso17025_analysis")) as [->|Hi].
    { rewrite lookup_insert_eq, lookup_insert_ne, lookup_replaced_ne by set_solver.
      done. }
    rewrite (lookup_insert_ne _ "iso17025_analysis") by done.
    destruct (decide (k = "cobit5_analysis")) as [->|Hc].
    { rewrite lookup_insert_eq, lookup_replaced_ne by set_solver. done. }
    rewrite lookup_insert_ne by done.
    destruct (decide (k ∈ categories)) as [[c ->]%category_cases|Hk].
    + rewrite !lookup_replaced. specialize (Ho c).
      destruct (o c); [done|]. destruct (m !! key_of c).
      * by destruct Ho as (? & ? & ? & _ & _ & _ & _ & _ & _ & ?).
      * destruct Ho as (-> & -> & _). done.
    + rewrite !lookup_replaced_ne by done. by rewrite Hfr_a, Hfr_b.
Qed.

End ShapeFacts.

(** ** The enhancers on the sample model *)

Module SampleFacts.
Import Py LayerClassifier WellFormed Spec Samples.

Lemma certificate_model_by_iso17025 :
  enhance_model Iso17025 certificate_model = Ok certificate_model_iso17025.
Proof. vm_compute. reflexivity. Qed.

Lemma certificate_model_by_cobit5 :
  enhance_model Cobit5 certificate_model = Ok certificate_model_cobit5.
Proof. vm_compute. reflexivity. Qed.

Lemma certificate_by_iso17025 :
  enhance_entity Iso17025 Classes (VDict calibration_certificate)
  = Ok (VDict certificate_iso17025).
Proof. vm_compute. reflexivity. Qed.

End SampleFacts.

(** ** Facts about the calls of the importer *)

Module ImporterFacts.
Import Py LayerClassifier WellFormed Spec ImportSpec OntologyImporter ClassifierFacts.

Lemma app_eq_split {A} (l1 l2 before after : list A) x :
  (l1 ++ l2 = before ++ x :: after)%list →
  (∃ after1, l1 = before ++ x :: after1 ∧ after = after1 ++ l2)%list
  ∨ (∃ before2, before = l1 ++ before2 ∧ l2 = before2 ++ x :: after)%list.
Proof.
  revert before. induction l1 as [|y l1 IH]; intros before H; simpl in H.
  - right. by exists before.
  - destruct before as [|b before]; simpl in H.
    + injection H as -> <-. left. by exists l1.
    + injection H as -> H. destruct (IH _ H) as [(a1 & -> & ->)|(b2 & -> & ->)].
      * left. by exists a1.
      * right. by exists b2.
Qed.

Lemma disciplined_ret {A} snk gid (a : A) : disciplined snk gid (mret a).
Proof.
  intros calls0 res calls [= <- <-]. exists []. rewrite app_nil_r.
  split; [done|]. split; [constructor|].
  intros before sub after msg H. by destruct before.
Qed.

Lemma disciplined_lift {A} snk gid (r : result A) : disciplined snk gid (lift r).
Proof.
  intros calls0 res calls H. exists []. rewrite app_nil_r. unfold lift in H.
  split; [by destruct r; injection H as <- <-|]. split; [constructor|].
  intros before sub after msg Hn. by destruct before.
Qed.

Lemma disciplined_add_memory snk gid sub :
  group_id sub = gid → source sub = "json" →
  disciplined snk gid (add_memory snk sub).
Proof.
  intros Hg Hs calls0 res calls H. exists [sub]. unfold add_memory in H.
  split; [by destruct (snk calls0 sub); injection H as <- <-|].
  split; [by repeat constructor|].
  intros before sub' after msg Hn Hraise.
  destruct before as [|b before]; simpl in Hn.
  - injection Hn as <- <-. rewrite app_nil_r in Hraise. rewrite Hraise in H.
    by injection H as <- <-.
  - injection Hn as _ Hn. by destruct before.
Qed.

Lemma disciplined_bind {A B} snk gid (m : io A) (f : A → io B) :
  disciplined snk gid m → (∀ a, disciplined snk gid (f a)) →
  disciplined snk gid (m ≫= f).
Proof.
  intros Hm Hf calls0 res calls H. unfold mbind, io_bind in H.
  destruct (m calls0) as [r1 c1] eqn:Hm1.
  destruct (Hm _ _ _ Hm1) as (new1 & -> & Hall1 & Hraise1).
  destruct r1 as [a|e].
  - destruct (Hf a _ _ _ H) as (new2 & -> & Hall2 & Hraise2).
    exists (new1 ++ new2)%list. split; [by rewrite <- app_assoc|].
    split; [by apply Forall_app|].
    intros before sub after msg Hn Hsnk.
    destruct (app_eq_split _ _ _ _ _ Hn) as [(a1 & -> & ->)|(b2 & -> & ->)].
    + by destruct (Hraise1 _ _ _ _ eq_refl Hsnk) as [_ [=]].
    + rewrite app_assoc in Hsnk. by apply (Hraise2 _ _ _ _ eq_refl Hsnk).
  - injection H as <- <-. exists new1. split; [done|]. split; [done|].
    intros before sub after msg Hn Hsnk.
    by destruct (Hraise1 _ _ _ _ Hn Hsnk) as [-> [= ->]].
Qed.

Lemma disciplined_fmap {A B} snk gid (m : io A) (g : A → B) :
  disciplined snk gid m → disciplined snk gid (g <$> m).
Proof.
  intros Hm calls0 res calls H. unfold fmap, io_fmap in H.
  destruct (m calls0) as [r1 c1] eqn:Hm1.
  destruct (Hm _ _ _ Hm1) as (new1 & -> & Hall1 & Hraise1).
  exists new1. split; [by destruct r1; injection H as <- <-|].
  split; [done|]. intros before sub after msg Hn Hsnk.
  destruct (Hraise1 _ _ _ _ Hn Hsnk) as [-> ->]. by injection H as <- <-.
Qed.

Lemma disciplined_import_layer snk kind Kind gid fw layer es results :
  disciplined snk gid (import_layer snk kind Kind gid fw layer es results).
Proof.
  unfold import_layer. destruct es; [apply disciplined_ret|].
  apply disciplined_bind; [by apply disciplined_add_memory|].
  intros a. apply disciplined_ret.
Qed.

Lemma disciplined_import_by_layer kind Kind snk v gid fw :
  disciplined snk gid (import_by_layer kind Kind snk v gid fw).
Proof.
  unfold import_by_layer.
  repeat (apply disciplined_bind; [|intros ?]);
    auto using disciplined_lift, disciplined_import_layer.
Qed.

Lemma disciplined_import_groups snk gid fw groups results :
  disciplined snk gid (import_groups snk gid fw groups results).
Proof.
  revert results. induction groups as [|[rel_type rel_list] groups IH];
    intros results; simpl; [apply disciplined_ret|].
  apply disciplined_bind; [|intros ?; apply IH].
  destruct (0 <? length rel_list); [|apply disciplined_ret].
  apply disciplined_bind; [by apply disciplined_add_memory|].
  intros a. apply disciplined_ret.
Qed.

Lemma disciplined_import_relationships snk v gid fw :
  disciplined snk gid (_import_relationships snk v gid fw).
Proof.
  unfold _import_relationships.
  repeat (apply disciplined_bind; [|intros ?]);
    auto using disciplined_lift, disciplined_import_groups.
Qed.

Lemma disciplined_import_part snk gid cd key f results :
  (∀ part, disciplined snk gid (f part)) →
  disciplined snk gid (import_part cd key f results).
Proof.
  intros Hf. unfold import_part. destruct (cd !! key); [|apply disciplined_ret].
  apply disciplined_bind; [apply Hf|]. intros a. apply disciplined_ret.
Qed.

Lemma disciplined_import_all snk now cd gid fw :
  disciplined snk gid (import_all snk now cd gid fw).
Proof.
  unfold import_all.
  apply disciplined_bind; [|intros r1].
  { apply disciplined_import_part. intros part. unfold _import_metadata.
    by apply disciplined_add_memory. }
  apply disciplined_bind; [|intros r2].
  { apply disciplined_import_part. intros part. apply disciplined_fmap.
    apply disciplined_import_by_layer. }
  apply disciplined_bind; [|intros r3].
  { apply disciplined_import_part. intros part. apply disciplined_fmap.
    apply disciplined_import_by_layer. }
  apply disciplined_bind; [|intros r4].
  { apply disciplined_import_part. intros part. apply disciplined_fmap.
    apply disciplined_import_by_layer. }
  apply disciplined_bind; [|intros r5].
  { apply disciplined_import_part. intros part. apply disciplined_fmap.
    apply disciplined_import_relationships. }
  apply disciplined_bind; [apply disciplined_lift|intros summary].
  apply disciplined_ret.
Qed.

Lemma put_inv layers v layers' :
  put layers v = Ok layers' →
  business layers' = (business layers ++ bucket_of "business" [v])%list
  ∧ technical layers' = (technical layers ++ bucket_of "technical" [v])%list
  ∧ core layers' = (core layers ++ bucket_of "core" [v])%list.
Proof.
  unfold put, bucket_of. intros (e & He & H)%bind_Ok.
  destruct v; try discriminate. injection He as ->.
  apply bind_Ok in H as (known & Hknown & H).
  unfold has_primary. cbn [List.filter].
  destruct (get e "primary_layer" (VStr "technical")) as [| | | |p| |];
    cbn [in_str_set] in Hknown; simplify_eq; cbn [str_is];
    try (by rewrite !app_nil_r).
  destruct (decide (p ∈ ["business"; "technical"; "core"])) as [Hp|Hp].
  - rewrite bool_decide_eq_true_2 in H by done. set_unfold in Hp.
    destruct Hp as [->|[->|[->|[]]]]; injection H as <-; simpl;
      by rewrite ?app_nil_r.
  - rewrite bool_decide_eq_false_2 in H by done. injection H as <-.
    assert (p ≠ "business" ∧ p ≠ "technical" ∧ p ≠ "core") as (?&?&?)
      by set_solver.
    rewrite !(proj2 (String.eqb_neq _ _)) by done. by rewrite !app_nil_r.
Qed.

Lemma bucket_of_cons layer v es :
  bucket_of layer (v :: es) = (bucket_of layer [v] ++ bucket_of layer es)%list.
Proof. unfold bucket_of. simpl. by destruct (has_primary layer v). Qed.

Lemma put_all_inv layers es layers' :
  put_all layers es = Ok layers' →
  business layers' = (business layers ++ bucket_of "business" es)%list
  ∧ technical layers' = (technical layers ++ bucket_of "technical" es)%list
  ∧ core layers' = (core layers ++ bucket_of "core" es)%list.
Proof.
  revert layers. induction es as [|v es IH]; intros layers H; simpl in H.
  - injection H as <-. unfold bucket_of. simpl. by rewrite !app_nil_r.
  - apply bind_Ok in H as (l1 & (Hb & Ht & Hc)%put_inv & H).
    destruct (IH _ H) as (-> & -> & ->). rewrite Hb, Ht, Hc.
    by rewrite !(bucket_of_cons _ v es), !app_assoc.
Qed.

Lemma import_layer_calls snk kind Kind gid fw layer es results calls0 res calls :
  import_layer snk kind Kind gid fw layer (bucket_of layer es) results calls0
  = (res, calls) →
  calls = (calls0 ++ layer_call kind Kind gid fw es layer)%list.
Proof.
  unfold import_layer, layer_call, add_memory, mbind, io_bind, mret, io_ret.
  destruct (bucket_of layer es) as [|v bucket].
  - intros [= <- <-]. by rewrite app_nil_r.
  - destruct (snk _ _); by intros [= <- <-].
Qed.

Lemma import_by_layer_calls kind Kind snk es gid fw calls0 res calls :
  import_by_layer kind Kind snk (VList es) gid fw calls0 = (res, calls) →
  ∃ new, calls = (calls0 ++ new)%list
    ∧ new `prefix_of` expected_layer_calls kind Kind gid fw es
    ∧ (∀ r, res = inl r → new = expected_layer_calls kind Kind gid fw es).
Proof.
  unfold import_by_layer, expected_layer_calls.
  unfold mbind at 1 2, io_bind at 1 2, lift. cbn [iter].
  destruct (put_all _ es) as [layers|e] eqn:Hput; last first.
  { intros [= <- <-]. exists []. rewrite app_nil_r.
    split; [done|]. split; [apply prefix_nil|done]. }
  destruct (put_all_inv _ _ _ Hput) as (Hb & Ht & Hc). simpl in Hb, Ht, Hc.
  rewrite Hb, Ht, Hc. clear Hput Hb Ht Hc layers.
  unfold mbind, io_bind.
  destruct (import_layer _ _ _ _ _ "business" _ _ _) as [r1 c1] eqn:H1.
  apply import_layer_calls in H1 as ->.
  destruct r1 as [r1|e1]; last first.
  { intros [= <- <-]. eexists. split; [done|]. split; [|done].
    by apply prefix_app_r. }
  destruct (import_layer _ _ _ _ _ "technical" _ _ _) as [r2 c2] eqn:H2.
  apply import_layer_calls in H2 as ->.
  destruct r2 as [r2|e2]; last first.
  { intros [= <- <-]. eexists. split; [by rewrite <- app_assoc|].
    split; [|done]. apply prefix_app, prefix_app_r. done. }
  intros H3. pose proof H3 as H3'. apply import_layer_calls in H3' as ->.
  eexists. split; [by rewrite <- !app_assoc|]. by split.
Qed.

End ImporterFacts.

(** ** Facts about the plan of an import *)

Module TraceFacts.
Import Py LayerClassifier WellFormed Spec ImportSpec OntologyImporter.
Import ClassifierFacts ImporterFacts.

Lemma follows_ret {A} (a : A) : follows [] (mret a).
Proof.
  intros calls0 res calls [= <- <-]. exists []. by rewrite app_nil_r.
Qed.

Lemma follows_lift {A} (r : result A) : follows [] (lift r).
Proof.
  intros calls0 res calls H. exists []. rewrite app_nil_r. unfold lift in H.
  by destruct r; injection H as <- <-.
Qed.

Lemma follows_add_memory snk sub : follows [sub] (add_memory snk sub).
Proof.
  intros calls0 res calls H. exists [sub]. unfold add_memory in H.
  by destruct (snk calls0 sub); injection H as <- <-.
Qed.

Lemma follows_bind {A B} e1 e2 (m : io A) (f : A → io B) :
  follows e1 m → (∀ a, follows e2 (f a)) → follows (e1 ++ e2) (m ≫= f).
Proof.
  intros Hm Hf calls0 res calls H. unfold mbind, io_bind in H.
  destruct (m calls0) as [r1 c1] eqn:Hm1.
  destruct (Hm _ _ _ Hm1) as (new1 & -> & Hpre1 & Hall1).
  destruct r1 as [a|e].
  - destruct (Hf a _ _ _ H) as (new2 & -> & Hpre2 & Hall2).
    rewrite (Hall1 a eq_refl). exists (e1 ++ new2)%list.
    split; [by rewrite <- app_assoc|]. split; [by apply prefix_app|].
    intros r ->. by rewrite (Hall2 r eq_refl).
  - injection H as <- <-. exists new1. split; [done|].
    split; [by apply prefix_app_r|done].
Qed.

Lemma follows_fmap {A B} e (m : io A) (g : A → B) :
  follows e m → follows e (g <$> m).
Proof.
  intros Hm calls0 res calls H. unfold fmap, io_fmap in H.
  destruct (m calls0) as [r1 c1] eqn:Hm1.
  destruct (Hm _ _ _ Hm1) as (new1 & -> & Hpre1 & Hall1).
  exists new1. destruct r1; injection H as <- <-; split_and!; try done.
  intros r _. by eapply Hall1.
Qed.

Lemma follows_eq {A} e e' (m : io A) : follows e m → e = e' → follows e' m.
Proof. by intros H <-. Qed.

Lemma follows_import_layer snk kind Kind gid fw layer es results :
  follows (layer_call kind Kind gid fw es layer)
    (import_layer snk kind Kind gid fw layer (bucket_of layer es) results).
Proof.
  unfold import_layer, layer_call. destruct (bucket_of layer es) as [|v bucket].
  - apply follows_ret.
  - eapply follows_eq.
    + eapply follows_bind; [apply follows_add_memory|].
      intros a. apply follows_ret.
    + done.
Qed.

Lemma follows_import_by_layer kind Kind snk v gid fw :
  follows (by_layer_calls kind Kind gid fw (Some v))
    (import_by_layer kind Kind snk v gid fw).
Proof.
  unfold import_by_layer, by_layer_calls.
  destruct (iter v) as [es|e] eqn:Hiter; last first.
  { intros calls0 res calls H. unfold mbind, io_bind, lift in H. simpl in H.
    simplify_eq. exists []. rewrite app_nil_r.
    split_and!; [done|apply prefix_nil|done]. }
  intros calls0 res calls H. unfold mbind at 1, io_bind at 1, lift at 1 in H.
  unfold mbind at 1, io_bind at 1, lift at 1 in H.
  destruct (put_all _ es) as [layers|e] eqn:Hput; last first.
  { injection H as <- <-. exists []. rewrite app_nil_r.
    split; [done|]. split; [apply prefix_nil|done]. }
  destruct (put_all_inv _ _ _ Hput) as (Hb & Ht & Hc). simpl in Hb, Ht, Hc.
  rewrite Hb, Ht, Hc in H. clear Hput Hb Ht Hc layers. revert calls0 res calls H.
  change (follows (expected_layer_calls kind Kind gid fw es)
            (layer_results ← import_layer snk kind Kind gid fw "business"
                                (bucket_of "business" es) ∅;
             layer_results ← import_layer snk kind Kind gid fw "technical"
                                (bucket_of "technical" es) layer_results;
             import_layer snk kind Kind gid fw "core" (bucket_of "core" es)
               layer_results)).
  unfold expected_layer_calls.
  apply follows_bind; [apply follows_import_layer|intros r1].
  apply follows_bind; [apply follows_import_layer|intros r2].
  apply follows_import_layer.
Qed.

Lemma follows_import_groups snk gid fw groups results :
  follows (flat_map (group_call gid fw) groups)
    (import_groups snk gid fw groups results).
Proof.
  revert results. induction groups as [|[rel_type rel_list] groups IH];
    intros results; simpl; [apply follows_ret|].
  apply follows_bind; [|intros r; apply IH].
  unfold group_call. simpl. destruct (0 <? length rel_list).
  - eapply follows_eq.
    + eapply follows_bind; [apply follows_add_memory|].
      intros a. apply follows_ret.
    + done.
  - apply follows_ret.
Qed.

Lemma follows_import_relationships snk v gid fw :
  follows (relationship_calls gid fw (Some v))
    (_import_relationships snk v gid fw).
Proof.
  unfold _import_relationships, relationship_calls.
  intros calls0 res calls H. unfold mbind at 1 2, io_bind at 1 2, lift in H.
  destruct (iter v) as [rels|e] eqn:Hiter; last first.
  { simplify_eq. exists []. rewrite app_nil_r.
    split_and!; [done|apply prefix_nil|done]. }
  cbn [mbind result_bind].
  destruct (group_relationships [] rels) as [groups|e] eqn:Hgroups; last first.
  { simplify_eq. exists []. rewrite app_nil_r.
    split_and!; [done|apply prefix_nil|done]. }
  by apply (follows_import_groups snk gid fw groups ∅).
Qed.

Lemma follows_import_part {E : value → list submission} cd key f results :
  (∀ part, follows (E part) (f part)) →
  follows (match cd !! key with Some part => E part | None => [] end)
    (import_part cd key f results).
Proof.
  intros Hf. unfold import_part. destruct (cd !! key); [|apply follows_ret].
  eapply follows_eq.
  - eapply follows_bind; [apply Hf|]. intros a. apply follows_ret.
  - by rewrite app_nil_r.
Qed.

Lemma follows_import_all snk now cd gid fw :
  cd !! "error" = None →
  follows (expected_calls cd gid fw) (import_all snk now cd gid fw).
Proof.
  intros Herr. unfold expected_calls, import_all. rewrite Herr.
  apply follows_bind; [|intros r1].
  { apply (follows_import_part (E := λ part, [metadata_call gid fw part])).
    intros part. apply follows_add_memory. }
  apply follows_bind; [|intros r2].
  { apply (follows_import_part
             (E := λ part, by_layer_calls "classes" "Classes" gid fw (Some part))).
    intros part. apply follows_fmap, follows_import_by_layer. }
  apply follows_bind; [|intros r3].
  { apply (follows_import_part
             (E := λ part,
                by_layer_calls "properties" "Properties" gid fw (Some part))).
    intros part. apply follows_fmap, follows_import_by_layer. }
  apply follows_bind; [|intros r4].
  { apply (follows_import_part
             (E := λ part,
                by_layer_calls "individuals" "Individuals" gid fw (Some part))).
    intros part. apply follows_fmap, follows_import_by_layer. }
  eapply follows_eq.
  - apply follows_bind; [|intros r5].
    { apply (follows_import_part
               (E := λ part, relationship_calls gid fw (Some part))).
      intros part. apply follows_fmap, follows_import_relationships. }
    apply follows_bind; [apply follows_lift|intros summary]. apply follows_ret.
  - rewrite !app_nil_r. by destruct (cd !! "relationships").
Qed.

(** *** Imports that are not cut short *)

Lemma returns_ret {A} (P : A → Prop) (a : A) : P a → returns P (mret a).
Proof. intros Ha calls0. by exists a, calls0. Qed.

Lemma returns_lift {A} (P : A → Prop) (r : result A) a :
  r = Ok a → P a → returns P (lift r).
Proof. intros -> Ha calls0. by exists a, calls0. Qed.

Lemma returns_bind {A B} (P : A → Prop) (Q : B → Prop) (m : io A) (f : A → io B) :
  returns P m → (∀ a, P a → returns Q (f a)) → returns Q (m ≫= f).
Proof.
  intros Hm Hf calls0. destruct (Hm calls0) as (a & c1 & Hm1 & Ha).
  destruct (Hf a Ha c1) as (b & c2 & Hf1 & Hb). exists b, c2.
  unfold mbind, io_bind. by rewrite Hm1.
Qed.

Lemma returns_fmap {A B} (P : A → Prop) (m : io A) (g : A → B) :
  returns P m → returns (λ _, True) (g <$> m).
Proof.
  intros Hm calls0. destruct (Hm calls0) as (a & c1 & Hm1 & _).
  exists (g a), c1. unfold fmap, io_fmap. by rewrite Hm1.
Qed.

Lemma returns_add_memory snk sub :
  (∀ calls sub, ∃ v, snk calls sub = Returns v) →
  returns (λ _, True) (add_memory snk sub).
Proof.
  intros Hsnk calls0. destruct (Hsnk calls0 sub) as [v Hv].
  exists v, (calls0 ++ [sub])%list. unfold add_memory. by rewrite Hv.
Qed.

Lemma put_ok layers v :
  is_recordb "primary_layer" v = true → ∃ layers', put layers v = Ok layers'.
Proof.
  destruct v as [| | | | | |e]; try discriminate. unfold is_recordb, field_ok, put, get.
  cbn [mbind result_bind as_dict].
  destruct (e !! "primary_layer") as [p|]; simpl.
  - intros [s ->]%is_strb_inv. simpl. case_bool_decide as Hs; [|eauto].
    set_unfold in Hs. destruct Hs as [->|[->|[->|[]]]]; eauto.
  - eauto.
Qed.

Lemma put_all_ok layers es :
  forallb (is_recordb "primary_layer") es = true →
  ∃ layers', put_all layers es = Ok layers'.
Proof.
  revert layers. induction es as [|v es IH]; intros layers; simpl; [eauto|].
  intros [Hv Hes]%andb_true_iff. destruct (put_ok layers v Hv) as [l1 ->].
  simpl. by apply IH.
Qed.

Lemma group_relationships_ok groups rels :
  forallb (is_recordb "predicate_local_name") rels = true →
  ∃ groups', group_relationships groups rels = Ok groups'.
Proof.
  revert groups. induction rels as [|v rels IH]; intros groups; simpl; [eauto|].
  intros [Hv Hrels]%andb_true_iff.
  destruct v as [| | | | | |e]; try discriminate.
  unfold group_relationship, get. cbn [mbind result_bind as_dict].
  unfold is_recordb, field_ok in Hv.
  destruct (e !! "predicate_local_name") as [p|]; simpl.
  - apply is_strb_inv in Hv as [s ->]. simpl. by apply IH.
  - by apply IH.
Qed.

Lemma generate_import_summary_ok now results cd :
  field_ok is_statisticsb cd "statistics" = true →
  ∃ summary, _generate_import_summary now results cd = Ok summary.
Proof.
  unfold field_ok, _generate_import_summary, get. intros H.
  assert (∃ stats, default (VDict ∅) (cd !! "statistics") = VDict stats
                   ∧ field_ok is_intb stats "object_properties" = true
                   ∧ field_ok is_intb stats "datatype_properties" = true)
    as (stats & -> & Ho & Hd).
  { destruct (cd !! "statistics") as [v|]; simpl; [|by exists ∅].
    destruct v; try discriminate. apply andb_true_iff in H. eauto. }
  cbn [mbind result_bind as_dict]. unfold field_ok in Ho, Hd.
  destruct (stats !! "object_properties") as [[]|];
    destruct (stats !! "datatype_properties") as [[]|]; try discriminate;
    simpl; eauto.
Qed.

Section returning.
Context (snk : sink) (Hsnk : ∀ calls sub, ∃ v, snk calls sub = Returns v).

Lemma returns_import_layer kind Kind gid fw layer es results :
  returns (λ _, True) (import_layer snk kind Kind gid fw layer es results).
Proof.
  unfold import_layer. destruct es; [by apply returns_ret|].
  eapply returns_bind; [by apply returns_add_memory|].
  intros a _. by apply returns_ret.
Qed.

Lemma returns_import_by_layer kind Kind v gid fw :
  is_record_listb "primary_layer" v = true →
  returns (λ _, True) (import_by_layer kind Kind snk v gid fw).
Proof.
  intros Hv. destruct v as [| | | | |es|]; try discriminate. simpl in Hv.
  unfold import_by_layer.
  destruct (put_all_ok {| business := []; technical := []; core := [] |} es Hv)
    as [layers Hlayers].
  eapply returns_bind; [by apply (returns_lift (λ l, l = es) _ es)|].
  intros ? ->.
  eapply returns_bind; [by apply (returns_lift (λ _, True) _ layers)|].
  intros ? _.
  eapply returns_bind; [apply returns_import_layer|intros ? _].
  eapply returns_bind; [apply returns_import_layer|intros ? _].
  apply returns_import_layer.
Qed.

Lemma returns_import_groups gid fw groups results :
  returns (λ _, True) (import_groups snk gid fw groups results).
Proof.
  revert results. induction groups as [|[rel_type rel_list] groups IH];
    intros results; simpl; [by apply returns_ret|].
  eapply returns_bind; [|intros ? _; apply IH].
  destruct (0 <? length rel_list); [|by apply (returns_ret (λ _, True))].
  eapply returns_bind; [by apply returns_add_memory|].
  intros a _. by apply (returns_ret (λ _, True)).
Qed.

Lemma returns_import_relationships v gid fw :
  is_record_listb "predicate_local_name" v = true →
  returns (λ _, True) (_import_relationships snk v gid fw).
Proof.
  intros Hv. destruct v as [| | | | |rels|]; try discriminate. simpl in Hv.
  unfold _import_relationships.
  destruct (group_relationships_ok [] rels Hv) as [groups Hgroups].
  eapply returns_bind; [by apply (returns_lift (λ l, l = rels) _ rels)|].
  intros ? ->.
  eapply returns_bind; [by apply (returns_lift (λ _, True) _ groups)|].
  intros ? _. apply returns_import_groups.
Qed.

Lemma returns_import_part (p : value → bool) cd key f results
    (D : string → Prop) :
  field_ok p cd key = true →
  (∀ part, p part = true → returns (λ _, True) (f part)) →
  (∀ k, is_Some (results !! k) ↔ D k) →
  returns (λ r, ∀ k, is_Some (r !! k) ↔ D k ∨ (k = key ∧ is_Some (cd !! key)))
    (import_part cd key f results).
Proof.
  unfold field_ok, import_part. intros Hp Hf HD.
  destruct (cd !! key) as [part|].
  - eapply returns_bind; [by apply Hf|]. intros a _. apply returns_ret.
    intros k. destruct (decide (key = k)) as [->|Hne].
    + rewrite lookup_insert_eq. split; [intros _; right|]; eauto.
    + rewrite lookup_insert_ne, HD by done. naive_solver.
  - apply returns_ret. intros k. rewrite HD. split; [auto|].
    by intros [?|[_ [? [=]]]].
Qed.

Lemma returns_import_all now cd gid fw :
  importableb cd = true →
  returns (λ v, ∃ results summary,
             v = imported results summary
             ∧ ∀ k, is_Some (results !! k)
                    ↔ k ∈ import_keys ∧ is_Some (cd !! k))
    (import_all snk now cd gid fw).
Proof.
  unfold importableb, categories. cbn [forallb]. intros H.
  apply andb_true_iff in H as [H Hs]. apply andb_true_iff in H as [H Hr].
  apply andb_true_iff in H as [Hc H]. apply andb_true_iff in H as [Hp H].
  apply andb_true_iff in H as [Hi _].
  unfold import_all.
  eapply returns_bind; [|intros r1 H1].
  { apply (returns_import_part (λ _, true) _ _ _ _ (λ _, False));
      [by unfold field_ok; case_match| |].
    - intros part _. unfold _import_metadata. by apply returns_add_memory.
    - intros k. rewrite lookup_empty. split; [by intros [? [=]]|done]. }
  eapply returns_bind; [|intros r2 H2].
  { cbv beta in H1.
    eapply (returns_import_part _ _ _ _ _ _ Hc); [|exact H1]. intros part Hpart.
    eapply returns_fmap. by apply returns_import_by_layer. }
  eapply returns_bind; [|intros r3 H3].
  { cbv beta in H2.
    eapply (returns_import_part _ _ _ _ _ _ Hp); [|exact H2]. intros part Hpart.
    eapply returns_fmap. by apply returns_import_by_layer. }
  eapply returns_bind; [|intros r4 H4].
  { cbv beta in H3.
    eapply (returns_import_part _ _ _ _ _ _ Hi); [|exact H3]. intros part Hpart.
    eapply returns_fmap. by apply returns_import_by_layer. }
  eapply returns_bind; [|intros r5 H5].
  { cbv beta in H4.
    eapply (returns_import_part _ _ _ _ _ _ Hr); [|exact H4]. intros part Hpart.
    eapply returns_fmap. by apply returns_import_relationships. }
  destruct (generate_import_summary_ok now r5 cd Hs) as [summary Hsummary].
  eapply returns_bind; [by apply (returns_lift (λ _, True) _ summary)|].
  intros s _. apply returns_ret. exists r5, s. split; [done|].
  cbv beta in H5. intros k. rewrite H5. unfold import_keys. set_unfold.
  naive_solver.
Qed.

End returning.

Lemma import_completes snk now cd gid fw :
  (∀ calls sub, ∃ v, snk calls sub = Returns v) →
  cd !! "error" = None → importableb cd = true →
  ∃ results summary,
    import_with_layers snk now cd gid fw
    = (imported results summary, expected_calls cd gid fw)
    ∧ ∀ k, is_Some (results !! k) ↔ k ∈ import_keys ∧ is_Some (cd !! k).
Proof.
  intros Hsnk Herr Hcd. unfold import_with_layers. rewrite Herr.
  destruct (returns_import_all snk Hsnk now cd gid fw Hcd [])
    as (v & calls & Hall & results & summary & -> & Hkeys).
  rewrite Hall. exists results, summary. split; [|done]. f_equal.
  destruct (follows_import_all snk now cd gid fw Herr _ _ _ Hall)
    as (new & -> & _ & Hnew).
  by rewrite (Hnew _ eq_refl).
Qed.

Lemma import_follows_plan snk now cd gid fw :
  (import_with_layers snk now cd gid fw).2 `prefix_of` expected_calls cd gid fw.
Proof.
  unfold import_with_layers. destruct (cd !! "error") as [err|] eqn:Herr.
  { apply prefix_nil. }
  destruct (import_all snk now cd gid fw []) as [res calls] eqn:Hall.
  destruct (follows_import_all snk now cd gid fw Herr _ _ _ Hall)
    as (new & -> & Hpre & _).
  by destruct res.
Qed.

End TraceFacts.

(** ** Facts about the grouping of relationships *)

Module GroupFacts.
Import Py LayerClassifier WellFormed Spec OntologyImporter ImportSpec.
Import ClassifierFacts.

Lemma with_predicate_app p rels rel :
  with_predicate p (rels ++ [rel])
  = (with_predicate p rels
     ++ if bool_decide (predicate_of rel = Some p) then [rel] else [])%list.
Proof. unfold with_predicate. by rewrite List.filter_app. Qed.

Lemma append_to_group_keys groups p rel :
  (append_to_group groups p rel).*1
  = (groups.*1 ++ if bool_decide (p ∈ groups.*1) then [] else [p])%list.
Proof.
  induction groups as [|[q l] groups IH]; [done|].
  cbn [append_to_group]. destruct (String.eqb_spec q p) as [->|Hne];
    rewrite !fmap_cons; cbn [fst].
  - rewrite bool_decide_eq_true_2 by set_solver. by rewrite app_nil_r.
  - rewrite IH. cbn [app]. f_equal. f_equal.
    do 2 case_bool_decide; set_solver.
Qed.

Lemma elem_of_append_to_group groups p rel q l :
  NoDup groups.*1 →
  (q, l) ∈ append_to_group groups p rel →
  (q ≠ p ∧ (q, l) ∈ groups)
  ∨ (q = p ∧ ∃ l0, l = (l0 ++ [rel])%list
                   ∧ ((p, l0) ∈ groups ∨ (¬ p ∈ groups.*1 ∧ l0 = []))).
Proof.
  induction groups as [|[q' l'] groups IH]; simpl; intros Hnodup.
  - intros [= -> ->]%list_elem_of_singleton. right. split; [done|].
    exists []. split; [done|]. right. split; [set_solver|done].
  - apply NoDup_cons in Hnodup as [Hq' Hnodup].
    destruct (String.eqb_spec q' p) as [->|Hne].
    + intros [[= -> ->]|Hin]%elem_of_cons.
      * right. split; [done|]. exists l'. split; [done|]. left. set_solver.
      * left. split; [|set_solver]. intros ->. apply Hq'.
        apply list_elem_of_fmap. by exists (p, l).
    + intros [[= -> ->]|Hin]%elem_of_cons.
      * left. split; [done|set_solver].
      * destruct (IH Hnodup Hin) as [[Hq Hl]|(-> & l0 & -> & Hl0)].
        -- left. split; [done|set_solver].
        -- right. split; [done|]. exists l0. split; [done|].
           destruct Hl0 as [?|[? ->]]; [left; set_solver|right].
           split; [set_solver|done].
Qed.

Lemma sum_append_to_group groups p rel :
  sum_list (length <$> (append_to_group groups p rel).*2)
  = S (sum_list (length <$> groups.*2)).
Proof.
  induction groups as [|[q l] groups IH]; [done|].
  cbn [append_to_group]. destruct (String.eqb_spec q p) as [->|Hne];
    rewrite !fmap_cons; cbn [snd sum_list sum_list_with].
  - rewrite length_app. simpl. lia.
  - rewrite IH. lia.
Qed.

Lemma append_to_group_grouped groups rels p rel :
  predicate_of rel = Some p →
  grouped groups rels → grouped (append_to_group groups p rel) (rels ++ [rel]).
Proof.
  intros Hp (Hnodup & Hall & Hrest & Hsum).
  assert (∀ q, with_predicate q (rels ++ [rel])
               = (with_predicate q rels ++ if decide (q = p) then [rel] else [])%list)
    as Hwp.
  { intros q. rewrite with_predicate_app, Hp.
    destruct (decide (q = p)) as [->|Hne].
    - by rewrite bool_decide_eq_true_2.
    - rewrite bool_decide_eq_false_2; [done|]. by intros [= ->]. }
  split_and!.
  - rewrite append_to_group_keys. case_bool_decide; [by rewrite app_nil_r|].
    apply NoDup_app. split_and!; [done|set_solver|apply NoDup_singleton].
  - intros q l Hin. rewrite Hwp.
    destruct (elem_of_append_to_group _ _ _ _ _ Hnodup Hin)
      as [[Hq Hl]|(-> & l0 & -> & Hl0)].
    + rewrite decide_False, app_nil_r by done. by apply Hall.
    + rewrite decide_True by done. split; [|by destruct l0].
      f_equal. destruct Hl0 as [Hl0|[Hl0 ->]].
      * by apply Hall.
      * by rewrite Hrest.
  - intros q Hq. rewrite append_to_group_keys in Hq. rewrite Hwp.
    assert (q ∉ groups.*1) as Hq' by set_solver.
    rewrite (Hrest q Hq'). rewrite decide_False; [done|].
    intros ->. case_bool_decide; set_solver.
  - rewrite sum_append_to_group, Hsum, length_app. simpl. lia.
Qed.

Lemma group_relationship_grouped groups rels rel groups' :
  group_relationship groups rel = Ok groups' →
  grouped groups rels → grouped groups' (rels ++ [rel]).
Proof.
  unfold group_relationship. intros (r & Hr & H)%bind_Ok.
  destruct rel; try discriminate. injection Hr as ->.
  destruct (get r "predicate_local_name" (VStr "unknown")) as [| | | |p| |] eqn:Hp;
    try discriminate.
  injection H as <-. apply append_to_group_grouped.
  unfold predicate_of. by rewrite Hp.
Qed.

Lemma group_relationships_grouped groups done rels groups' :
  group_relationships groups rels = Ok groups' →
  grouped groups done → grouped groups' (done ++ rels).
Proof.
  revert groups done. induction rels as [|rel rels IH]; intros groups done H Hg;
    simpl in H.
  - injection H as <-. by rewrite app_nil_r.
  - apply bind_Ok in H as (g1 & H1 & H).
    rewrite (cons_middle rel), app_assoc. apply (IH g1); [done|].
    by eapply group_relationship_grouped.
Qed.

End GroupFacts.

(** ** Facts about the analysed text *)

Module TextFacts.
Import Py LayerClassifier WellFormed Spec ClassifierFacts.


Lemma prefix_weaken sub s t :
  String.prefix sub s = true → String.prefix sub (s +:+ t) = true.
Proof.
  revert sub. induction s as [|a s IH]; intros [|b sub]; simpl; try done.
  - by destruct t.
  - destruct (Ascii.ascii_dec b a); [apply IH|done].
Qed.

Lemma contains_prefix sub s : String.prefix sub s = true → contains sub s = true.
Proof.
  intros H. destruct s; cbn [contains]; apply orb_true_iff; by left.
Qed.

Lemma contains_app_r sub s t :
  contains sub t = true → contains sub (s +:+ t) = true.
Proof.
  intros H. induction s as [|a s IH]; [done|].
  change (String a s +:+ t) with (String a (s +:+ t)). cbn [contains].
  by rewrite IH, orb_true_r.
Qed.

Lemma contains_app_l sub s t :
  contains sub s = true → contains sub (s +:+ t) = true.
Proof.
  induction s as [|a s IH].
  - cbn [contains]. rewrite orb_false_r. intros H.
    apply contains_prefix, (prefix_weaken _ "" t H).
  - change (String a s +:+ t) with (String a (s +:+ t)). cbn [contains].
    intros [H|H]%orb_true_iff.
    + apply orb_true_iff. left. apply (prefix_weaken _ (String a s) t H).
    + by rewrite (IH H), orb_true_r.
Qed.

Lemma contains_app_m sub a s b :
  contains sub s = true → contains sub (a +:+ s +:+ b) = true.
Proof. intros H. by apply contains_app_r, contains_app_l. Qed.

Lemma append_assoc (a b c : string) : (a +:+ b) +:+ c = a +:+ b +:+ c.
Proof.
  induction a as [|x a IH]; [done|].
  change (String x ((a +:+ b) +:+ c) = String x (a +:+ b +:+ c)).
  by rewrite IH.
Qed.

Lemma append_nil_r (a : string) : a +:+ "" = a.
Proof.
  induction a as [|x a IH]; [done|].
  change (String x (a +:+ "") = String x a). by rewrite IH.
Qed.

(** Each of the five text fields is a part of the analysed text. *)
Lemma text_content_part e k s txt :
  text_content_of e = Ok txt → k ∈ content_keys → e !! k = Some (VStr s) →
  ∃ a b, txt = a +:+ lower s +:+ b.
Proof.
  unfold text_content_of. intros H Hk Hs.
  apply bind_Ok in H as (s1 & H1 & H).
  apply bind_Ok in H as (s2 & H2 & H).
  apply bind_Ok in H as (s3 & H3 & H).
  apply bind_Ok in H as (s4 & H4 & H).
  apply bind_Ok in H as (s5 & H5 & H).
  injection H as <-.
  assert (lower_field e k = Ok (lower s)) as Hf
    by (unfold lower_field, get; by rewrite Hs).
  unfold content_keys in Hk.
  repeat (apply elem_of_cons in Hk as [->|Hk]); [..|by apply elem_of_nil in Hk];
    rewrite Hf in *; simplify_eq.
  - by exists "", (" " +:+ s2 +:+ " " +:+ s3 +:+ " " +:+ s4 +:+ " " +:+ s5).
  - exists (s1 +:+ " "), (" " +:+ s3 +:+ " " +:+ s4 +:+ " " +:+ s5).
    by rewrite !append_assoc.
  - exists (s1 +:+ " " +:+ s2 +:+ " "), (" " +:+ s4 +:+ " " +:+ s5).
    by rewrite !append_assoc.
  - exists (s1 +:+ " " +:+ s2 +:+ " " +:+ s3 +:+ " "), (" " +:+ s5).
    by rewrite !append_assoc.
  - exists (s1 +:+ " " +:+ s2 +:+ " " +:+ s3 +:+ " " +:+ s4 +:+ " "), "".
    by rewrite append_nil_r, !append_assoc.
Qed.

Lemma keyword_found keywords keyword txt :
  keyword ∈ keywords → contains keyword txt = true →
  existsb (λ keyword, contains keyword txt) keywords = true.
Proof.
  intros Hin Hc. apply existsb_exists. exists keyword.
  split; [by apply list_elem_of_In|done].
Qed.

Lemma primary_business ls : "business" ∈ ls → _get_primary_layer ls = "business".
Proof.
  intros H. unfold _get_primary_layer. destruct ls; [by apply elem_of_nil in H|].
  by rewrite bool_decide_eq_true_2.
Qed.

End TextFacts.

(** ** Facts about the COBIT5 codes *)

Module CodeFacts.
Import Py LayerClassifier WellFormed Spec COBIT5 ClassifierFacts ParserFacts TextFacts.







End CodeFacts.


(** * Main results *)

Import Py LayerClassifier WellFormed Spec Samples.
Import ClassifierFacts EnhancerFacts.

(** C1.  On every well-formed entity model [classify] returns a model (it
    does not raise), in which every class, property and individual carries
    a non-empty [layers] list of layer names, equal to [technical] alone
    when no rule of steps 2 to 5 matches, and a [primary_layer] that
    occurs in that list. *)
Theorem classify_total (m : gmap string value) :
  wf_model m →
  ∃ out, classify m = Ok out ∧
    ∀ c es, m !! key_of c = Some (VList es) →
      ∃ es', out !! key_of c = Some (VList es')
             ∧ Forall2 (assigned (entity_type_of c)) es es'.
Proof.
  intros Hwf. destruct (classify_ok m Hwf) as [out Hout].
  exists out. split; [done|]. intros c es Hm.
  pose proof (classified_as_category m out c (wf_model_error m Hwf) Hout) as H.
  unfold classified_as in H. rewrite Hm in H. destruct H as (es' & Hes' & Ho).
  exists es'. split; [done|].
  destruct (wf_model_category m (key_of c) Hwf (key_of_category c))
    as [Hnone|(es0 & Hsome & Hes0)]; [congruence|].
  assert (es = VDict <$> es0) as -> by congruence.
  by apply classify_entities_assigned.
Qed.

Lemma classify_total_witness :
  wf_model sample_model ∧ ∃ out, classify sample_model = Ok out.
Proof.
  assert (wf_model sample_model) as Hwf by (by vm_compute).
  split; [exact Hwf|].
  destruct (classify_total sample_model Hwf) as (out & Hout & _).
  exists out. exact Hout.
Defined.

(** C8.  An entity whose combined relationship-reference count is at least
    3 gets [core] among its layers, whatever its category. *)
Theorem dense_entity_is_core (e : gmap string value) (ty : string) :
  wf_entity e → 3 ≤ reference_count e →
  ∃ ls, _determine_layers e ty = Ok ls ∧ "core" ∈ ls.
Proof.
  intros Hwf Hn. destruct (determine_layers_ok e ty Hwf) as [ls Hls].
  exists ls. split; [done|].
  destruct (determine_layers_inv _ _ _ Hls)
    as (txt & t & b & c & x & _ & _ & _ & Hc & _ & ->).
  rewrite (dense_is_core e txt Hwf Hn) in Hc. injection Hc as <-.
  apply elem_of_sorted_of_set, elem_of_chosen_layers. auto.
Qed.

Lemma dense_entity_is_core_witness :
  wf_entity dense_class ∧ 3 ≤ reference_count dense_class
  ∧ ∃ ls, _determine_layers dense_class "class" = Ok ls ∧ "core" ∈ ls.
Proof.
  assert (wf_entity dense_class) as Hwf by (by vm_compute).
  assert (3 ≤ reference_count dense_class) as Hn by (vm_compute; lia).
  split; [exact Hwf|]. split; [exact Hn|].
  exact (dense_entity_is_core dense_class "class" Hwf Hn).
Defined.

(** C9.  [classify] is idempotent: on a well-formed entity model it
    returns a model, and classifying that model again returns it
    unchanged. *)
Theorem classify_idempotent (m : gmap string value) :
  wf_model m → ∃ out, classify m = Ok out ∧ classify out = Ok out.
Proof.
  intros Hwf. destruct (classify_ok m Hwf) as [out Hout].
  exists out. eauto using classify_idem.
Qed.

Lemma classify_idempotent_witness :
  wf_model sample_model
  ∧ ∃ out, classify sample_model = Ok out ∧ classify out = Ok out.
Proof.
  assert (wf_model sample_model) as Hwf by (by vm_compute).
  split; [exact Hwf|]. exact (classify_idempotent sample_model Hwf).
Defined.

(** C10.  [classify] only adds: every key of the model other than the
    three categories and [layer_statistics] keeps its value, a category
    that is absent stays absent, and a category that is present keeps its
    entities, in order, each with all its fields unchanged except for
    [layers] and [primary_layer]. *)
Theorem classify_frame (m : gmap string value) :
  wf_model m →
  ∃ out, classify m = Ok out
    ∧ (∀ k, k ∉ categories → k ≠ "layer_statistics" → out !! k = m !! k)
    ∧ (∀ c, m !! key_of c = None → out !! key_of c = None)
    ∧ (∀ c es, m !! key_of c = Some (VList es) →
         ∃ es', out !! key_of c = Some (VList es') ∧ Forall2 same_fields es es').
Proof.
  intros Hwf. destruct (classify_ok m Hwf) as [out Hout].
  pose proof (wf_model_error m Hwf) as Herr.
  exists out. split_and!; [done|..].
  - by destruct (classify_inv m out Herr Hout) as (_ & _ & _ & _ & Hk).
  - intros c Hm.
    pose proof (classified_as_category m out c Herr Hout) as H.
    unfold classified_as in H. by rewrite Hm in H.
  - intros c es Hm.
    pose proof (classified_as_category m out c Herr Hout) as H.
    unfold classified_as in H. rewrite Hm in H. destruct H as (es' & Hes' & Ho).
    exists es'. eauto using classify_entities_same_fields.
Qed.

Lemma classify_frame_witness :
  wf_model sample_model
  ∧ ∃ out, classify sample_model = Ok out
           ∧ out !! "metadata" = sample_model !! "metadata".
Proof.
  assert (wf_model sample_model) as Hwf by (by vm_compute).
  assert ("metadata" ∉ categories) as Hcat by in_keys.
  assert ("metadata" ≠ "layer_statistics") as Hne by discriminate.
  split; [exact Hwf|].
  destruct (classify_frame sample_model Hwf) as (out & Hout & Hk & _).
  exists out. split; [exact Hout|]. exact (Hk _ Hcat Hne).
Defined.

(** C2.  After the generic classifier and after either enhancer, the
    record of an entity obeys the priority business > core > technical:
    its primary layer is business exactly when business is among its
    layers; otherwise it is core exactly when core is among them;
    otherwise it is technical. *)
Theorem primary_layer_priority (p : pass) (c : category) (v v' : value) :
  pass_entity p c v = Ok v' → priority_law v'.
Proof.
  destruct p as [|f]; simpl; intros H.
  - apply classify_entity_inv in H as (e & ls & -> & _ & ->).
    eexists _, ls, _. split_and!; [done| | |..].
    + by rewrite lookup_insert_ne, lookup_insert_eq.
    + by rewrite lookup_insert_eq.
    + apply get_primary_layer_law.
    + apply get_primary_layer_law.
    + apply get_primary_layer_law.
  - destruct (enhance_entity_dict f c v v' H) as [e ->].
    eauto using merged_priority_law, enhance_entity_merged.
Qed.

Lemma primary_layer_priority_witness :
  ∃ v', pass_entity (Enhance Iso17025) Classes (VDict calibration_certificate) = Ok v'
        ∧ priority_law v'.
Proof.
  eexists. split; [vm_compute; reflexivity|].
  apply (primary_layer_priority (Enhance Iso17025) Classes
           (VDict calibration_certificate)).
  vm_compute. reflexivity.
Defined.

(** C3.  On the entities of a classified model each enhancer returns, for
    every category, a list in which every entity has all the layers it
    had before. *)
Theorem enhancement_keeps_layers (f : enhancer) (c : category) (es : list value) :
  Forall classified es →
  ∃ es', enhance_entities f c (VList es) = Ok es' ∧ Forall2 layers_kept es es'.
Proof.
  rewrite enhance_entities_unfold.
  induction 1 as [|v es (e & ls & -> & Hwf & Hl) _ (es' & Hes' & IH)]; simpl.
  - exists []. by split; [|constructor].
  - destruct (enhance_entity_ok f c e ls Hwf Hl) as [v' Hv'].
    rewrite Hv', Hes'. run. eexists. split; [done|].
    constructor; [|done].
    eauto using merged_layers_kept, enhance_entity_merged.
Qed.

Lemma enhancement_keeps_layers_witness :
  Forall classified [VDict calibration_certificate]
  ∧ ∃ es', enhance_entities Cobit5 Classes (VList [VDict calibration_certificate])
           = Ok es'
           ∧ Forall2 layers_kept [VDict calibration_certificate] es'.
Proof.
  assert (Forall classified [VDict calibration_certificate]) as H.
  { constructor; [|constructor].
    exists calibration_certificate, ["technical"].
    split; [reflexivity|]. split; vm_compute; reflexivity. }
  split; [exact H|].
  exact (enhancement_keeps_layers Cobit5 Classes _ H).
Defined.

(** C4.  The generic classifier returns a model with the error marker
    unchanged, but neither enhancer does: each returns the model with an
    analysis of zero entities stored under a key of its own. *)
Theorem error_model_through_stages :
  classify error_model = Ok error_model
  ∧ ISO17025.enhance_classification error_model
    = Ok (<["iso17025_analysis" := empty_iso17025_analysis]> error_model)
  ∧ COBIT5.enhance_classification error_model
    = Ok (<["cobit5_analysis" := empty_cobit5_analysis]> error_model)
  ∧ <["iso17025_analysis" := empty_iso17025_analysis]> error_model ≠ error_model
  ∧ <["cobit5_analysis" := empty_cobit5_analysis]> error_model ≠ error_model.
Proof.
  assert (error_model !! "iso17025_analysis" = None) as Hiso by reflexivity.
  assert (error_model !! "cobit5_analysis" = None) as Hcobit by reflexivity.
  split_and!.
  - apply classify_error. by exists (VStr "Parsing failed").
  - vm_compute. reflexivity.
  - vm_compute. reflexivity.
  - intros Heq. apply (f_equal (.!! "iso17025_analysis")) in Heq.
    rewrite lookup_insert_eq, Hiso in Heq. discriminate.
  - intros Heq. apply (f_equal (.!! "cobit5_analysis")) in Heq.
    rewrite lookup_insert_eq, Hcobit in Heq. discriminate.
Qed.

(** * Further properties of the code *)

Import TTLParser ParserFacts.

(** X1.  The local name of a URI is the text after its last [#]; when the
    URI has no [#], the text after its last [/]; when it has neither, the
    whole URI. *)
Theorem local_name_after_last_separator (uri : term) (pre r : string) :
  has_char "#" r = false →
  (str uri = pre +:+ "#" +:+ r → _get_local_name uri = r)
  ∧ (has_char "#" pre = false → has_char "/" r = false →
     str uri = pre +:+ "/" +:+ r → _get_local_name uri = r)
  ∧ (has_char "/" r = false → str uri = r → _get_local_name uri = r).
Proof.
  intros Hr. unfold _get_local_name. split_and!.
  - intros ->. rewrite has_char_app. simpl. rewrite orb_true_r.
    by apply (last_split_after "#" pre r).
  - intros Hpre Hs ->. rewrite !has_char_app. simpl.
    rewrite Hpre, Hr, orb_true_r. simpl.
    by apply (last_split_after "/" pre r).
  - intros Hs ->. by rewrite Hr, Hs.
Qed.

Lemma local_name_after_last_separator_witness :
  has_char "#" "Sample/1" = false
  ∧ _get_local_name (URIRef "http://example.org/lab#Sample/1") = "Sample/1".
Proof.
  split; [reflexivity|].
  exact (proj1 (local_name_after_last_separator
                  (URIRef "http://example.org/lab#Sample/1")
                  "http://example.org/lab" "Sample/1" eq_refl) eq_refl).
Defined.

(** X2.  The prefixed name is built from the first entry of the namespace
    table, in the order of the table, whose namespace is a prefix of the
    URI; later entries are not considered, and an empty prefix gives the
    local part without a colon. *)
Theorem prefixed_name_first_match (ns : namespace_map) (uri : term)
    (before after : namespace_map) (prefix namespace_uri : string) :
  ns = (before ++ (prefix, namespace_uri) :: after)%list →
  Forall (λ item, startswith (str uri) item.2 = false) before →
  startswith (str uri) namespace_uri = true →
  _get_prefixed_name ns uri =
    let local_part := drop_str (String.length namespace_uri) (str uri) in
    if String.eqb prefix "" then local_part else prefix +:+ ":" +:+ local_part.
Proof.
  intros Hns Hbefore Hhit. unfold _get_prefixed_name.
  by rewrite (matching_namespace_first _ _ _ _ _ _ Hns Hbefore Hhit).
Qed.

Lemma prefixed_name_first_match_witness :
  sample_namespaces
    = ([] ++ ("ex", "http://example.org/") :: [("lab", "http://example.org/lab#")])%list
  ∧ Forall (λ item : string * string,
              startswith "http://example.org/lab#Sample" item.2 = false) []
  ∧ startswith "http://example.org/lab#Sample" "http://example.org/" = true
  ∧ _get_prefixed_name sample_namespaces (URIRef "http://example.org/lab#Sample")
    = "ex:lab#Sample".
Proof.
  split; [reflexivity|]. split; [constructor|]. split; [reflexivity|].
  exact (prefixed_name_first_match sample_namespaces
           (URIRef "http://example.org/lab#Sample") []
           [("lab", "http://example.org/lab#")] "ex" "http://example.org/"
           eq_refl (List.Forall_nil _) eq_refl).
Defined.

(** X3.  A prefixed name either comes from an entry of the namespace
    table whose namespace, followed by the local part of the name, is the
    URI again; or no namespace of the table is a prefix of the URI and the
    prefixed name is the local name. *)
Theorem prefixed_name_expands (ns : namespace_map) (uri : term) :
  (∃ prefix namespace_uri local_part,
      (prefix, namespace_uri) ∈ ns
      ∧ str uri = namespace_uri +:+ local_part
      ∧ _get_prefixed_name ns uri =
          if String.eqb prefix "" then local_part
          else prefix +:+ ":" +:+ local_part)
  ∨ (Forall (λ item, startswith (str uri) item.2 = false) ns
     ∧ _get_prefixed_name ns uri = _get_local_name uri).
Proof.
  unfold _get_prefixed_name.
  destruct (matching_namespace_cases ns (str uri))
    as [(p & n & l & Hin & Huri & ->)|[Hall ->]]; [left|right].
  - by exists p, n, l.
  - done.
Qed.

(** X4.  A literal value is the default exactly when the graph has no
    triple with the subject and predicate; otherwise it is the text of
    the object of such a triple. *)
Theorem literal_value_or_default (g : graph) (s p : term) (d : string) :
  ((∀ o, (s, p, o) ∉ g) → _get_literal_value g s p d = d)
  ∧ (∀ o, (s, p, o) ∈ g →
       ∃ o', (s, p, o') ∈ g ∧ _get_literal_value g s p d = str o').
Proof.
  split; [apply literal_value_absent|apply literal_value_present].
Qed.

Lemma literal_value_or_default_witness :
  _get_literal_value sample_graph (URIRef "http://example.org/lab#takenBy")
    (rdfs "label") "" = "".
Proof.
  apply (proj1 (literal_value_or_default sample_graph
                  (URIRef "http://example.org/lab#takenBy") (rdfs "label") "")).
  intros o Hin. vm_compute in Hin. set_solver.
Defined.

(** X5.  Every record that the parser extracts for a property is well
    formed, carries one of the three property kinds as its type, and is
    classified with [technical] among its layers. *)
Theorem extracted_property_is_technical (g : graph) (ns : namespace_map)
    (e : gmap string value) :
  e ∈ _extract_properties g ns →
  wf_entity e
  ∧ (∃ kind, kind ∈ ["ObjectProperty"; "DatatypeProperty"; "AnnotationProperty"]
             ∧ e !! "type" = Some (VStr kind))
  ∧ ∃ ls, _determine_layers e "property" = Ok ls ∧ "technical" ∈ ls.
Proof.
  intros (s & kind & Hkind & _ & ->)%elem_of_extract_properties.
  pose proof (build_property_data_wf g ns s kind) as Hwf.
  split; [done|]. split; [by exists kind|].
  destruct (text_content_ok _ Hwf) as [txt Htxt].
  apply (determine_layers_technical _ _ txt); [done..|].
  apply (technical_by_kind _ _ kind); [done..|].
  set_unfold in Hkind. by destruct Hkind as [->|[->|[->|[]]]].
Qed.

Lemma extracted_property_is_technical_witness :
  ∃ e, e ∈ _extract_properties sample_graph sample_namespaces
       ∧ ∃ ls, _determine_layers e "property" = Ok ls ∧ "technical" ∈ ls.
Proof.
  exists (_build_property_data sample_graph sample_namespaces
            (URIRef "http://example.org/lab#takenBy") "ObjectProperty").
  assert (_build_property_data sample_graph sample_namespaces
            (URIRef "http://example.org/lab#takenBy") "ObjectProperty"
          ∈ _extract_properties sample_graph sample_namespaces) as Hin.
  { apply extract_properties_intro; [set_solver|].
    unfold sample_graph. set_solver. }
  split; [exact Hin|].
  exact (proj2 (proj2 (extracted_property_is_technical _ _ _ Hin))).
Defined.

(** X6.  A declared class without any [rdfs:subClassOf] triple is
    extracted as a well-formed record and classified with [core] among
    its layers. *)
Theorem extracted_root_class_is_core (g : graph) (ns : namespace_map) (s : term) :
  (s, rdf "type", owl "Class") ∈ g →
  (∀ o, (s, rdfs "subClassOf", o) ∉ g) →
  class_data g ns s ∈ _extract_classes g ns
  ∧ wf_entity (class_data g ns s)
  ∧ ∃ ls, _determine_layers (class_data g ns s) "class" = Ok ls ∧ "core" ∈ ls.
Proof.
  intros Hin Hroot. pose proof (class_data_wf g ns s) as Hwf.
  split; [by apply elem_of_extract_classes|]. split; [done|].
  destruct (root_class_core (class_data g ns s) Hwf) as (x & Hx & Hcore).
  { assert (get (class_data g ns s) "subclass_of" (VList [])
            = objects (triples g (Some s) (Some (rdfs "subClassOf")) None)) as ->
      by reflexivity.
    by rewrite objects_nil. }
  by apply (determine_layers_extra _ _ x).
Qed.

Lemma extracted_root_class_is_core_witness :
  ∃ ls, _determine_layers
          (class_data sample_graph sample_namespaces
             (URIRef "http://example.org/lab#Sample")) "class" = Ok ls
        ∧ "core" ∈ ls.
Proof.
  apply (extracted_root_class_is_core sample_graph sample_namespaces
           (URIRef "http://example.org/lab#Sample")).
  - vm_compute. apply list_elem_of_here.
  - intros o Hin. vm_compute in Hin. set_solver.
Defined.

Import StatisticsFacts.

(** X7.  In the model that [classify] returns, the layer statistics hold,
    for each category, the number of its entities with each primary
    layer and the number of its entities with more than one layer; the
    three layer counts add up to the number of entities of the
    category. *)
Theorem layer_statistics_count_entities (m out : gmap string value)
    (c : category) :
  m !! "error" = None → classify m = Ok out →
  let es := entities_of out c in
  statistic out "business" (key_of c) = Some (count (has_primary "business") es)
  ∧ statistic out "technical" (key_of c)
    = Some (count (has_primary "technical") es)
  ∧ statistic out "core" (key_of c) = Some (count (has_primary "core") es)
  ∧ statistic out "multi_layer" (key_of c) = Some (count multi_layered es)
  ∧ (count (has_primary "business") es + count (has_primary "technical") es
     + count (has_primary "core") es = Z.of_nat (length es))%Z.
Proof.
  intros Herr H es.
  destruct (classify_inv m out Herr H) as (_ & _ & _ & (s & Hs & Hst) & _).
  pose proof (classify_listed m out Herr H) as Hlisted.
  destruct (classify_entities_of m out c Herr H) as [_ Hes].
  unfold statistic. rewrite Hs.
  assert (∀ row, row ∈ rows →
            statistic_in s row (key_of c) = Some (tallies row es)) as Hrow.
  { intros row Hrow.
    by destruct (get_layer_statistics_inv out s row Hlisted Hst Hrow) as [-> _]. }
  split_and!.
  - rewrite Hrow, tallies_layer; [done|..]; unfold rows; set_solver.
  - rewrite Hrow, tallies_layer; [done|..]; unfold rows; set_solver.
  - rewrite Hrow, tallies_layer; [done|..]; unfold rows; set_solver.
  - rewrite Hrow, tallies_multi; [done|by apply layered_not_multi|].
    unfold rows; set_solver.
  - by apply layered_partition.
Qed.

Lemma layer_statistics_count_entities_witness :
  sample_model !! "error" = None
  ∧ ∃ out, classify sample_model = Ok out
           ∧ statistic out "business" "classes"
             = Some (count (has_primary "business") (entities_of out Classes)).
Proof.
  assert (sample_model !! "error" = None) as Herr by reflexivity.
  assert (wf_model sample_model) as Hwf by (by vm_compute).
  split; [exact Herr|].
  destruct (classify_ok sample_model Hwf) as [out H].
  exists out. split; [exact H|].
  exact (proj1 (layer_statistics_count_entities sample_model out Classes Herr H)).
Defined.

(** X8.  In the model that [classify] returns, every row of the layer
    statistics holds a count for each of the three categories, and its
    [total] is the sum of the three. *)
Theorem layer_statistics_totals (m out : gmap string value) (row : string) :
  m !! "error" = None → classify m = Ok out → row ∈ rows →
  ∃ classes properties individuals,
    statistic out row "classes" = Some classes
    ∧ statistic out row "properties" = Some properties
    ∧ statistic out row "individuals" = Some individuals
    ∧ statistic out row "total" = Some (classes + properties + individuals)%Z.
Proof.
  intros Herr H Hrow.
  destruct (classify_inv m out Herr H) as (_ & _ & _ & (s & Hs & Hst) & _).
  pose proof (classify_listed m out Herr H) as Hlisted.
  destruct (get_layer_statistics_inv out s row Hlisted Hst Hrow) as [Hc Ht].
  unfold statistic. rewrite Hs. eexists _, _, _. split_and!.
  - apply (Hc Classes).
  - apply (Hc Properties).
  - apply (Hc Individuals).
  - apply Ht.
Qed.

Lemma layer_statistics_totals_witness :
  sample_model !! "error" = None ∧ "core" ∈ rows
  ∧ ∃ out, classify sample_model = Ok out
           ∧ ∃ n, statistic out "core" "total" = Some n.
Proof.
  assert (sample_model !! "error" = None) as Herr by reflexivity.
  assert ("core" ∈ rows) as Hrow by (unfold rows; set_solver).
  assert (wf_model sample_model) as Hwf by (by vm_compute).
  split; [exact Herr|]. split; [exact Hrow|].
  destruct (classify_ok sample_model Hwf) as [out H].
  exists out. split; [exact H|].
  destruct (layer_statistics_totals sample_model out "core" Herr H Hrow)
    as (a & b & c & _ & _ & _ & Ht).
  exists (a + b + c)%Z. exact Ht.
Defined.

Import OrderFacts.

(** X9.  The layers of an entity are listed in the order business, core,
    technical, without repetition, and the primary layer is the first
    of them. *)
Theorem layers_in_priority_order (e : gmap string value) (ty : string)
    (ls : list string) :
  _determine_layers e ty = Ok ls →
  ls = filter (λ x, x ∈ ls) layer_order
  ∧ head ls = Some (_get_primary_layer ls).
Proof.
  intros H.
  destruct (determine_layers_inv _ _ _ H)
    as (txt & t & b & c & x & _ & _ & _ & _ & Hx & ->).
  apply sorted_three; [|apply chosen_layers_nonempty].
  apply chosen_layers_three. by eapply by_entity_type_three.
Qed.

Lemma layers_in_priority_order_witness :
  _determine_layers governance_control "class" = Ok ["business"; "core"]
  ∧ head ["business"; "core"] = Some (_get_primary_layer ["business"; "core"]).
Proof.
  assert (_determine_layers governance_control "class" = Ok ["business"; "core"])
    as H by (vm_compute; reflexivity).
  split; [exact H|].
  exact (proj2 (layers_in_priority_order governance_control "class" _ H)).
Defined.

(** X10.  An entity one of whose five text fields holds a value that is
    not a string makes the layer computation raise [AttributeError], and
    [classify] raises on every model without error marker that lists such
    an entity in one of its categories. *)
Theorem classify_rejects_non_text (m : gmap string value) (c : category)
    (es : list value) (e : gmap string value) (k : string) (v : value) :
  m !! "error" = None → m !! key_of c = Some (VList es) → VDict e ∈ es →
  k ∈ content_keys → e !! k = Some v → is_strb v = false →
  _determine_layers e (entity_type_of c) = Raise AttributeError
  ∧ ∃ ex, classify m = Raise ex.
Proof.
  intros Herr Hm Hin Hk Hv Hstr.
  pose proof (text_content_raises e k v Hk Hv Hstr) as Htxt.
  assert (_determine_layers e (entity_type_of c) = Raise AttributeError) as Hraise
    by (unfold _determine_layers; by rewrite Htxt).
  split; [done|].
  destruct (classify m) as [out|ex] eqn:H; [exfalso|by exists ex].
  pose proof (classified_as_category m out c Herr H) as Hc.
  unfold classified_as in Hc. rewrite Hm in Hc. destruct Hc as (es' & Hes' & _).
  unfold _classify_entities in Hes'. simpl in Hes'.
  apply for_each_inv in Hes'.
  apply list_elem_of_lookup in Hin as [i Hi].
  destruct (Forall2_lookup_l _ _ _ _ _ Hes' Hi) as (v' & _ & Hv').
  apply classify_entity_inv in Hv' as (e' & ls & [= <-] & Hls & _).
  congruence.
Qed.

Lemma classify_rejects_non_text_witness :
  ∃ ex, classify (<["classes" := VList [VDict (<["label" := VNone]> ∅)]]> ∅)
        = Raise ex.
Proof.
  apply (classify_rejects_non_text
           (<["classes" := VList [VDict (<["label" := VNone]> ∅)]]> ∅) Classes
           [VDict (<["label" := VNone]> ∅)] (<["label" := VNone]> ∅) "label" VNone).
  - reflexivity.
  - reflexivity.
  - apply list_elem_of_here.
  - unfold content_keys. set_solver.
  - reflexivity.
  - reflexivity.
Defined.

Import ShapeFacts SampleFacts.

(** X11.  An enhancer returns the entity with every field unchanged
    except [layers], [primary_layer] and the annotation fields of the
    enhancer for the category, which it always sets. *)
Theorem enhancement_frame (f : enhancer) (c : category) (v v' : value) :
  enhance_entity f c v = Ok v' →
  ∃ e e', v = VDict e ∧ v' = VDict e'
    ∧ (∀ k, k ≠ "layers" → k ≠ "primary_layer" → k ∉ annotation_keys f c →
         e' !! k = e !! k)
    ∧ (∀ k, k ∈ annotation_keys f c → is_Some (e' !! k)).
Proof.
  intros H. destruct (enhance_entity_dict f c v v' H) as [e ->].
  destruct (enhance_entity_result f c e v' H)
    as (existing & extra & anns & _ & (_ & Hkeys & _) & ->).
  destruct (lookup_enhanced f c anns (existing ∪ extra) e Hkeys)
    as (_ & _ & Hframe & _).
  eexists e, _. split; [done|]. split; [done|]. split; [done|].
  intros k Hk. apply lookup_annotate_in. by rewrite Hkeys.
Qed.

Lemma enhancement_frame_witness :
  enhance_entity Iso17025 Classes (VDict calibration_certificate)
  = Ok (VDict certificate_iso17025)
  ∧ certificate_iso17025 !! "local_name" = calibration_certificate !! "local_name".
Proof.
  split; [exact certificate_by_iso17025|].
  destruct (enhancement_frame Iso17025 Classes _ _ certificate_by_iso17025)
    as (e & e' & [= <-] & [= <-] & Hframe & _).
  apply Hframe; [discriminate..|]. simpl. set_solver.
Defined.

(** X12.  An enhancer returns the model with every key unchanged except
    the three categories and the key of its analysis, which it always
    sets; in particular the layer statistics stay as they were, and a
    category that is absent stays absent. *)
Theorem enhancement_model_frame (f : enhancer) (m out : gmap string value) :
  enhance_model f m = Ok out →
  (∀ k, k ∉ categories → k ≠ analysis_key f → out !! k = m !! k)
  ∧ out !! "layer_statistics" = m !! "layer_statistics"
  ∧ is_Some (out !! analysis_key f)
  ∧ (∀ c, m !! key_of c = None → out !! key_of c = None).
Proof.
  intros (Hcat & (a & Ha & _) & Hframe)%enhance_model_inv. split_and!.
  - done.
  - apply Hframe; [unfold categories; set_solver|by destruct f].
  - eauto.
  - intros c Hc. specialize (Hcat c). by rewrite Hc in Hcat.
Qed.

Lemma enhancement_model_frame_witness :
  enhance_model Iso17025 certificate_model = Ok certificate_model_iso17025
  ∧ is_Some (certificate_model_iso17025 !! analysis_key Iso17025).
Proof.
  split; [exact certificate_model_by_iso17025|].
  exact (proj1 (proj2 (proj2 (enhancement_model_frame Iso17025 _ _
                                certificate_model_by_iso17025)))).
Defined.

(** X13.  Each enhancer is idempotent: applied to a model that it
    returned, it returns that model unchanged. *)
Theorem enhancement_idempotent (f : enhancer) (m out : gmap string value) :
  enhance_model f m = Ok out → enhance_model f out = Ok out.
Proof. apply enhance_model_idem. Qed.

Lemma enhancement_idempotent_witness :
  enhance_model Iso17025 certificate_model = Ok certificate_model_iso17025
  ∧ enhance_model Iso17025 certificate_model_iso17025
    = Ok certificate_model_iso17025.
Proof.
  split; [exact certificate_model_by_iso17025|].
  exact (enhancement_idempotent Iso17025 _ _ certificate_model_by_iso17025).
Defined.

(** X14.  The two enhancers commute: when both return on a model, each
    returns on the result of the other, and the two composed results are
    the same model. *)
Theorem enhancers_commute (m a b : gmap string value) :
  enhance_model Iso17025 m = Ok a → enhance_model Cobit5 m = Ok b →
  ∃ r, enhance_model Cobit5 a = Ok r ∧ enhance_model Iso17025 b = Ok r.
Proof. apply enhance_model_commute. Qed.

Lemma enhancers_commute_witness :
  enhance_model Iso17025 certificate_model = Ok certificate_model_iso17025
  ∧ enhance_model Cobit5 certificate_model = Ok certificate_model_cobit5
  ∧ ∃ r, enhance_model Cobit5 certificate_model_iso17025 = Ok r
         ∧ enhance_model Iso17025 certificate_model_cobit5 = Ok r.
Proof.
  split; [exact certificate_model_by_iso17025|].
  split; [exact certificate_model_by_cobit5|].
  exact (enhancers_commute _ _ _ certificate_model_by_iso17025
           certificate_model_by_cobit5).
Defined.

(** X15.  On an entity whose layers are a non-empty list of layer names,
    an enhancer stores a list of layer names that holds every layer the
    entity had, in the order business, core, technical, without
    repetition, and the first of them as primary layer. *)
Theorem enhanced_layers_in_priority_order (f : enhancer) (c : category)
    (e : gmap string value) (ls : list string) (v' : value) :
  e !! "layers" = Some (str_list ls) → ls ≠ [] → (∀ y, y ∈ ls → y ∈ three) →
  enhance_entity f c (VDict e) = Ok v' →
  ∃ e' ls', v' = VDict e' ∧ e' !! "layers" = Some (str_list ls')
    ∧ (∀ y, y ∈ ls → y ∈ ls')
    ∧ (∀ y, y ∈ ls' → y ∈ three)
    ∧ ls' = filter (λ x, x ∈ ls') layer_order
    ∧ e' !! "primary_layer" = (VStr <$> head ls').
Proof.
  intros Hls Hne Hthree H.
  destruct (enhance_entity_result f c e v' H)
    as (existing & extra & anns & Hex & (Hextra & Hkeys & _) & ->).
  unfold get in Hex. rewrite Hls in Hex. simpl in Hex.
  change (VList (VStr <$> ls)) with (str_list ls) in Hex.
  rewrite str_set_str_list in Hex. injection Hex as <-.
  destruct (lookup_enhanced f c anns (list_to_set ls ∪ extra) e Hkeys)
    as (Hl & Hp & _).
  assert (list_to_set ls ∪ extra ⊆ three) as Hsub.
  { intros y [Hy%elem_of_list_to_set|Hy]%elem_of_union; auto. }
  assert (list_to_set ls ∪ extra ≠ (∅ : gset string)) as Hnonempty.
  { destruct ls as [|l ls]; [done|]. set_solver. }
  destruct (sorted_three _ Hsub Hnonempty) as [Hsorted Hhead].
  eexists _, _. split; [done|]. split; [exact Hl|]. split_and!.
  - intros y Hy. apply elem_of_sorted_of_set, elem_of_union. left.
    by apply elem_of_list_to_set.
  - intros y Hy%elem_of_sorted_of_set. by apply Hsub.
  - exact Hsorted.
  - rewrite Hp, Hhead. simpl. by rewrite primary_of_sorted.
Qed.

Lemma enhanced_layers_in_priority_order_witness :
  ∃ e' ls', VDict certificate_iso17025 = VDict e'
    ∧ e' !! "layers" = Some (str_list ls')
    ∧ e' !! "primary_layer" = (VStr <$> head ls').
Proof.
  destruct (enhanced_layers_in_priority_order Iso17025 Classes
              calibration_certificate ["technical"] (VDict certificate_iso17025))
    as (e' & ls' & He' & Hl & _ & _ & _ & Hp).
  - reflexivity.
  - discriminate.
  - intros y Hy. unfold three. set_solver.
  - exact certificate_by_iso17025.
  - exists e', ls'. split; [exact He'|]. split; [exact Hl|exact Hp].
Defined.

Import OntologyImporter ImportSpec ImporterFacts TraceFacts.



(** X17.  Every call of [add_memory] that [import_with_layers] makes is
    for the given group and has source [json]; for a model with an error
    marker it makes no call and returns a failure with that error. *)
Theorem import_calls_target_group (snk : sink) (now : string)
    (cd : gmap string value) (gid fw : string) :
  Forall (λ sub, group_id sub = gid ∧ source sub = "json")
    (import_with_layers snk now cd gid fw).2
  ∧ ∀ err, cd !! "error" = Some err →
      import_with_layers snk now cd gid fw = (not_imported err, []).
Proof.
  unfold import_with_layers. split.
  - destruct (cd !! "error") as [err|]; [constructor|].
    destruct (import_all snk now cd gid fw []) as [res calls] eqn:Hall.
    destruct (disciplined_import_all snk now cd gid fw _ _ _ Hall)
      as (new & -> & Hforall & _).
    by destruct res.
  - by intros err ->.
Qed.

Lemma import_calls_target_group_witness :
  error_model !! "error" = Some (VStr "Parsing failed")
  ∧ import_with_layers unavailable "2024-01-01T00:00:00+00:00" error_model
      "lab" "Generic"
    = (not_imported (VStr "Parsing failed"), []).
Proof.
  assert (error_model !! "error" = Some (VStr "Parsing failed")) as Herr
    by reflexivity.
  split; [exact Herr|].
  exact (proj2 (import_calls_target_group unavailable
                  "2024-01-01T00:00:00+00:00" error_model "lab" "Generic")
           (VStr "Parsing failed") Herr).
Defined.

(** X18.  The calls that the import of a category by layer makes are,
    in the order business, technical, core, the calls for the layers that
    have entities: each carries the layer, the framework, the entities of
    the category whose primary layer is that layer, and their number.  A
    run that is cut short makes an initial part of these calls. *)
Theorem layer_calls_hold_their_entities (kind Kind : string) (snk : sink)
    (es : list value) (gid fw : string) (calls0 calls : list submission)
    (res : gmap string value + failure) :
  import_by_layer kind Kind snk (VList es) gid fw calls0 = (res, calls) →
  ∃ new, calls = (calls0 ++ new)%list
    ∧ new `prefix_of` expected_layer_calls kind Kind gid fw es
    ∧ (∀ r, res = inl r → new = expected_layer_calls kind Kind gid fw es).
Proof. apply import_by_layer_calls. Qed.

Lemma layer_calls_hold_their_entities_witness :
  import_by_layer "classes" "Classes" accepting
    (VList [VDict calibration_certificate]) "lab" "ISO17025" []
  = (inl (<["technical" := VDict (<["message" := VStr "Episode queued"]> ∅)]> ∅),
     [layer_submission "classes" "Classes" "lab" "ISO17025" "technical"
        [VDict calibration_certificate]])
  ∧ ∃ new,
      [layer_submission "classes" "Classes" "lab" "ISO17025" "technical"
         [VDict calibration_certificate]] = ([] ++ new)%list
      ∧ new = expected_layer_calls "classes" "Classes" "lab" "ISO17025"
                [VDict calibration_certificate].
Proof.
  assert (import_by_layer "classes" "Classes" accepting
            (VList [VDict calibration_certificate]) "lab" "ISO17025" []
          = (inl (<["technical" :=
                      VDict (<["message" := VStr "Episode queued"]> ∅)]> ∅),
             [layer_submission "classes" "Classes" "lab" "ISO17025" "technical"
                [VDict calibration_certificate]])) as H
    by (vm_compute; reflexivity).
  split; [exact H|].
  destruct (layer_calls_hold_their_entities _ _ _ _ _ _ _ _ _ H)
    as (new & Hnew & _ & Hall).
  exists new. split; [exact Hnew|]. exact (Hall _ eq_refl).
Defined.


(** X19.  The calls that [import_with_layers] makes are an initial part
    of the plan of the import: the metadata, then each category by layer,
    then the relationships by predicate. *)
Theorem import_calls_follow_plan (snk : sink) (now : string)
    (cd : gmap string value) (gid fw : string) :
  (import_with_layers snk now cd gid fw).2 `prefix_of` expected_calls cd gid fw.
Proof. apply import_follows_plan. Qed.

(** X20.  With a sink that never raises, whatever it returns, the import
    of data that the importer can process makes every call of the plan
    and returns a success with a summary and the results, which hold an
    entry for each of the five parts that the data has. *)
Theorem import_completes_when_sink_returns (snk : sink) (now : string)
    (cd : gmap string value) (gid fw : string) :
  (∀ calls sub, ∃ v, snk calls sub = Returns v) →
  cd !! "error" = None → importableb cd = true →
  ∃ results summary,
    import_with_layers snk now cd gid fw
    = (imported results summary, expected_calls cd gid fw)
    ∧ ∀ k, is_Some (results !! k) ↔ k ∈ import_keys ∧ is_Some (cd !! k).
Proof. apply import_completes. Qed.

Lemma import_completes_when_sink_returns_witness :
  (∀ calls sub, ∃ v, accepting calls sub = Returns v)
  ∧ sample_model !! "error" = None ∧ importableb sample_model = true
  ∧ ∃ results summary,
      import_with_layers accepting "2024-01-01T00:00:00+00:00" sample_model
        "lab" "Generic"
      = (imported results summary, expected_calls sample_model "lab" "Generic").
Proof.
  pose proof import_completes_when_sink_returns as Hthm.
  assert (∀ calls sub, ∃ v, accepting calls sub = Returns v) as Hsnk
    by (intros calls sub; eexists; reflexivity).
  assert (sample_model !! "error" = None) as Herr by reflexivity.
  assert (importableb sample_model = true) as Hcd by (vm_compute; reflexivity).
  split; [exact Hsnk|]. split; [exact Herr|]. split; [exact Hcd|].
  destruct (Hthm accepting "2024-01-01T00:00:00+00:00" sample_model "lab"
              "Generic" Hsnk Herr Hcd) as (results & summary & H & _).
  exists results, summary. exact H.
Defined.

Import GroupFacts.

(** X21.  The relationships are grouped by predicate name without loss:
    the groups have different names, each group holds, in their order,
    exactly the relationships with its name and is not empty, and the
    sizes of the groups add up to the number of relationships. *)
Theorem relationships_grouped_by_predicate (rels : list value)
    (groups : list (string * list value)) :
  group_relationships [] rels = Ok groups →
  NoDup groups.*1
  ∧ (∀ p l, (p, l) ∈ groups → l = with_predicate p rels ∧ l ≠ [])
  ∧ sum_list (length <$> groups.*2) = length rels.
Proof.
  intros H.
  assert (grouped [] []) as Hbase.
  { split_and!; [constructor|by intros ? ? ?%elem_of_nil|done|done]. }
  destruct (group_relationships_grouped [] [] rels groups H Hbase)
    as (Hnodup & Hall & _ & Hsum).
  by split_and!.
Qed.

Lemma relationships_grouped_by_predicate_witness :
  group_relationships [] [uses_a; owns_b; uses_c]
  = Ok [("uses", [uses_a; uses_c]); ("owns", [owns_b])]
  ∧ sum_list (length <$> [("uses", [uses_a; uses_c]); ("owns", [owns_b])].*2)
    = length [uses_a; owns_b; uses_c].
Proof.
  assert (group_relationships [] [uses_a; owns_b; uses_c]
          = Ok [("uses", [uses_a; uses_c]); ("owns", [owns_b])]) as H
    by (vm_compute; reflexivity).
  split; [exact H|].
  exact (proj2 (proj2 (relationships_grouped_by_predicate _ _ H))).
Defined.

Import TextFacts.

(** X22.  A keyword of the classifier that occurs, in lower case, in one of
    the five text fields of an entity assigns its layer: a technical
    keyword the technical layer, a core keyword the core layer, and a
    business keyword the business layer, which is then the primary one. *)
Theorem keyword_in_text_assigns_layer (e : gmap string value)
    (ty k s keyword : string) (ls : list string) :
  _determine_layers e ty = Ok ls →
  k ∈ content_keys → e !! k = Some (VStr s) →
  contains keyword (lower s) = true →
  (keyword ∈ technical_keywords → "technical" ∈ ls)
  ∧ (keyword ∈ business_keywords →
     "business" ∈ ls ∧ _get_primary_layer ls = "business")
  ∧ (keyword ∈ core_keywords → "core" ∈ ls).
Proof.
  intros Hls Hk Hs Hc.
  destruct (determine_layers_inv _ _ _ Hls)
    as (txt & t & b & c & x & Htxt & Ht & Hb & Hc' & _ & ->).
  destruct (text_content_part e k s txt Htxt Hk Hs) as (pre & post & ->).
  pose proof (contains_app_m keyword pre (lower s) post Hc) as Hin.
  split_and!; intros Hkw.
  - apply elem_of_sorted_of_set, elem_of_chosen_layers.
    unfold _is_technical_entity in Ht.
    rewrite (keyword_found _ _ _ Hkw Hin) in Ht. injection Ht as <-. auto.
  - assert ("business" ∈ sorted_of_set (chosen_layers t b c x)) as Hbus.
    { apply elem_of_sorted_of_set, elem_of_chosen_layers.
      unfold _is_business_entity in Hb.
      rewrite (keyword_found _ _ _ Hkw Hin) in Hb. injection Hb as <-. auto. }
    split; [done|by apply primary_business].
  - apply elem_of_sorted_of_set, elem_of_chosen_layers.
    unfold _is_core_entity in Hc'.
    rewrite (keyword_found _ _ _ Hkw Hin) in Hc'. injection Hc' as <-. auto.
Qed.

Lemma keyword_in_text_assigns_layer_witness :
  _determine_layers governance_control "class" = Ok ["business"; "core"]
  ∧ contains "governance" (lower "GovernanceControl") = true
  ∧ "business" ∈ ["business"; "core"]
  ∧ _get_primary_layer ["business"; "core"] = "business".
Proof.
  assert (_determine_layers governance_control "class" = Ok ["business"; "core"])
    as Hls by (vm_compute; reflexivity).
  assert ("local_name" ∈ content_keys) as Hk
    by (apply (bool_decide_unpack _); by vm_compute).
  assert (governance_control !! "local_name" = Some (VStr "GovernanceControl"))
    as Hs by reflexivity.
  assert (contains "governance" (lower "GovernanceControl") = true) as Hc
    by (vm_compute; reflexivity).
  assert ("governance" ∈ business_keywords) as Hkw
    by (apply (bool_decide_unpack _); by vm_compute).
  split; [exact Hls|]. split; [exact Hc|].
  exact (proj1 (proj2 (keyword_in_text_assigns_layer governance_control "class"
                         "local_name" "GovernanceControl" "governance" _
                         Hls Hk Hs Hc)) Hkw).
Defined.

Import COBIT5 TextFacts CodeFacts.


